(** * SubtitleBurn: the batch subtitle burner of [batchburn_main.py]

    A shallow embedding of the non-GUI part of the program: encoder
    selection, the bit-depth probe, the per-folder [burn_state.json] store
    ([scan_folders], [mark_done]) and the batch loop [run], followed by the
    properties of the specification that were checked against it.

    Conventions of the embedding.
    - Python [str] values are [string]s whose characters are code points
      below 256.
    - A Python [dict] with string keys is a [gmap string _]; the ordered
      [folders] registry is an association list.
    - Everything the program obtains from outside (directory listings, the
      results of [subprocess.run], [random.random()], file sizes) is an
      explicit argument; everything it does to the outside (state files,
      temporary files, log lines, progress updates) is explicit state or an
      entry of the returned event trace.
    - A Python exception is a value of [exn] returned on the left of a sum.
    - A Python float is the rational it denotes; the rounding of each
      floating-point operation is a parameter [round]. *)

From Stdlib Require Import Ascii QArith Lia.
From stdpp Require Import gmap strings list fin_maps pretty.

Local Open Scope bool_scope.

(** ** Python string operations used by the program *)

Module Py.

(** [c.lower()] for one code point below 256. *)
Definition lower_char (c : ascii) : ascii :=
  let n := nat_of_ascii c in
  if (65 <=? n)%nat && (n <=? 90)%nat then ascii_of_nat (n + 32)
  else if (192 <=? n)%nat && (n <=? 222)%nat && negb (n =? 215)%nat
       then ascii_of_nat (n + 32)
       else c.

(** [s.lower()] *)
Fixpoint lower (s : string) : string :=
  match s with
  | EmptyString => EmptyString
  | String c s' => String (lower_char c) (lower s')
  end.

(** [s.startswith(p)] *)
Definition startswith (s p : string) : bool := String.prefix p s.

(** [s.endswith(suf)] *)
Definition endswith (s suf : string) : bool :=
  let n := String.length s in
  let m := String.length suf in
  (m <=? n)%nat && String.eqb (String.substring (n - m) m s) suf.

(** [s.endswith(sufs)] for a tuple of suffixes. *)
Definition endswith_any (s : string) (sufs : list string) : bool :=
  existsb (endswith s) sufs.

(** [sub in s] for two strings: [sub] occurs in [s] as a substring. *)
Fixpoint contains (sub s : string) : bool :=
  startswith s sub ||
  match s with
  | EmptyString => false
  | String _ s' => contains sub s'
  end.

(** [c.isspace()] for one code point below 256. *)
Definition isspace (c : ascii) : bool :=
  match nat_of_ascii c with
  | 9 | 10 | 11 | 12 | 13 | 28 | 29 | 30 | 31 | 32 | 133 | 160 => true
  | _ => false
  end.

Fixpoint lstrip (s : string) : string :=
  match s with
  | EmptyString => EmptyString
  | String c s' => if isspace c then lstrip s' else s
  end.

Definition rstrip (s : string) : string := String.rev (lstrip (String.rev s)).

(** [s.strip()] *)
Definition strip (s : string) : string := rstrip (lstrip s).

(** [s.split(sep)] for a one-character separator: never empty. *)
Fixpoint split (sep : ascii) (s : string) : list string :=
  match s with
  | EmptyString => [EmptyString]
  | String c s' =>
      if Ascii.eqb c sep then EmptyString :: split sep s'
      else match split sep s' with
           | h :: t => String c h :: t
           | [] => [String c EmptyString]
           end
  end.

(** [s.rfind(c)] for a one-character needle, as an index from the left. *)
Fixpoint rfind (c : ascii) (s : string) : option nat :=
  match s with
  | EmptyString => None
  | String d s' =>
      match rfind c s' with
      | Some i => Some (S i)
      | None => if Ascii.eqb d c then Some 0%nat else None
      end
  end.

(** [all(ch == c for ch in s)] *)
Fixpoint all_char (c : ascii) (s : string) : bool :=
  match s with
  | EmptyString => true
  | String d s' => Ascii.eqb d c && all_char c s'
  end.

(** [os.path.splitext(name)[0]] for a bare file name (no separator):
    the extension starts at the last dot, unless only dots precede it. *)
Definition splitext_root (name : string) : string :=
  match rfind "."%char name with
  | Some i =>
      let root := String.substring 0 i name in
      if all_char "."%char root then name else root
  | None => name
  end.

(** [os.path.join(a, b)] with [/] as the separator: an absolute [b]
    replaces [a], and no separator is added after an empty [a] or after
    one that ends with a separator already (the root [/]). *)
Definition path_join (a b : string) : string :=
  if startswith b "/" then b
  else if String.eqb a "" || endswith a "/" then a +:+ b
  else a +:+ "/" +:+ b.

(** Exceptions the program can meet. *)
Inductive exn :=
| KeyError (key : string)
| IndexError
| OtherError (msg : string).

(** [str(e)] *)
Definition exn_str (e : exn) : string :=
  match e with
  | KeyError k => "'" +:+ k +:+ "'"
  | IndexError => "list index out of range"
  | OtherError m => m
  end.

End Py.

(** What [subprocess.run(cmd, stdout=PIPE, ..., text=True)] does when called
    without [check=True] and without [timeout]: it either raises (the
    program could not be started, its output could not be decoded) or
    returns a completed process whatever the exit code. *)
Inductive proc_result :=
| Raised (e : Py.exn)
| Completed (returncode : Z) (stdout : string).

(** ** Encoder selection *)

(** The argument of [pick_best_encoder] is the list built by
    [getallmyencoders] or, on the fallback path, the text printed by
    [ffmpeg -encoders]; Python's [in] is membership on the first and
    substring search on the second. *)
Inductive encoders :=
| EncList (l : list string)
| EncText (s : string).

Definition py_in (x : string) (e : encoders) : bool :=
  match e with
  | EncList l => bool_decide (x ∈ l)
  | EncText s => Py.contains x s
  end.

(** Returns [[bestav1, best_hevc, best264]]. *)
Definition pick_best_encoder (e : encoders) : string * string * string :=
  let best_hevc :=
    if py_in "hevc_nvenc" e then "hevc_nvenc"
    else if py_in "hevc_qsv" e then "hevc_qsv"
    else if py_in "hevc_amf" e then "hevc_amf"
    else "libx265" in
  let best264 :=
    if py_in "h264_nvenc" e then "h264_nvenc"
    else if py_in "h264_qsv" e then "h264_qsv"
    else if py_in "h264_amf" e then "h264_amf"
    else "libx264" in
  let bestav1 :=
    if py_in "av1_nvenc" e then "av1_nvenc"
    else if py_in "av1_qsv" e then "av1_qsv"
    else if py_in "av1_amf" e then "av1_amf"
    else "libxav1" in
  (bestav1, best_hevc, best264).

(** The specification's [selectBest]: per codec family, the first
    identifier of a fixed preference list (NVENC, QSV, AMF) that is in the
    available set, and the family's software encoder when none is. *)
Module SelectBest.

Inductive family := AV1 | HEVC | H264.

Definition preference (fam : family) : list string :=
  match fam with
  | AV1 => ["av1_nvenc"; "av1_qsv"; "av1_amf"]
  | HEVC => ["hevc_nvenc"; "hevc_qsv"; "hevc_amf"]
  | H264 => ["h264_nvenc"; "h264_qsv"; "h264_amf"]
  end.

Definition software (fam : family) : string :=
  match fam with
  | AV1 => "libxav1"
  | HEVC => "libx265"
  | H264 => "libx264"
  end.

Definition choose (available : gset string) (fam : family) : string :=
  hd (software fam) (filter (λ x, x ∈ available) (preference fam)).

Definition selectBest (available : gset string) : string * string * string :=
  (choose available AV1, choose available HEVC, choose available H264).

End SelectBest.

(** ** Bit-depth probe *)

Definition probe_cmd (input_path : string) : list string :=
  ["ffprobe"; "-v"; "error";
   "-select_streams"; "v:0";
   "-show_entries"; "stream=pix_fmt";
   "-of"; "default=nokey=1:noprint_wrappers=1";
   input_path].

(** [is_10bit], given what [subprocess.run(probe_cmd, ...)] did. *)
Definition is_10bit (probe : proc_result) : Py.exn + bool :=
  match probe with
  | Raised e => inl e
  | Completed _ stdout =>
      let pix_fmt := Py.strip stdout in
      inr (Py.contains "10" pix_fmt)
  end.

(** ** The per-folder state store *)

(** The content of one [burn_state.json]: a JSON object whose values are
    lists of file names.  [state_files !! folder] is the content of
    [folder/burn_state.json], and [None] when that file does not exist. *)
Abbreviation state := (gmap string (list string)).
Abbreviation state_files := (gmap string (gmap string (list string))).

(** [state.get("finished", [])] and [state.get("pending", [])] *)
Definition finished_of (st : state) : list string := default [] (st !! "finished").
Definition pending_of (st : state) : list string := default [] (st !! "pending").

(** [l.remove(x)] on a list that contains [x]: drops the first occurrence. *)
Fixpoint list_remove_first (x : string) (l : list string) : list string :=
  match l with
  | [] => []
  | y :: l' => if decide (x = y) then l' else y :: list_remove_first x l'
  end.

(** The state [mark_done] starts from: the state file read back, or a
    fresh state when there is none. *)
Definition current_state (fs : state_files) (folder : string) : state :=
  match fs !! folder with
  | Some st => st
  | None => {[ "finished" := []; "pending" := [] ]}
  end.

(** [mark_done], on state files that hold a JSON object whose values are
    lists of names, in folders where the state file can be written: the
    errors of [json.load] on other contents and of [open] are not part of
    the embedding. *)
Definition mark_done (fs : state_files) (folder f : string) : Py.exn + state_files :=
  let st := current_state fs folder in
  match st !! "finished" with
  | None => inl (Py.KeyError "finished")
  | Some fin =>
      let st := if bool_decide (f ∈ fin) then st else <["finished" := fin ++ [f]]> st in
      match st !! "pending" with
      | None => inl (Py.KeyError "pending")
      | Some pen =>
          let st :=
            if bool_decide (f ∈ pen)
            then <["pending" := list_remove_first f pen]> st
            else st in
          inr (<[folder := st]> fs)
      end
  end.

(** ** Scanning folders *)

(** One entry of the [folders] registry (the UI handles are left out;
    a [StringVar] is the string it holds). *)
Record work_item := {
  files : list string;
  done : list string;
  subs : list string;
  audios : list string;
  selected_sub : string;
  selected_audio : string;
  video_count : nat;
  video_size : Z;
}.

(** [d[k] = v] on an insertion-ordered dict. *)
Fixpoint dict_set {V} (k : string) (v : V) (d : list (string * V)) : list (string * V) :=
  match d with
  | [] => [(k, v)]
  | (k', v') :: d' =>
      if decide (k = k') then (k, v) :: d' else (k', v') :: dict_set k v d'
  end.

Definition video_exts : list string :=
  [".mkv"; ".mp4"; ".avi"; ".mov"; ".m4v"; ".webm"].

Definition is_video (f : string) : bool :=
  Py.endswith_any (Py.lower f) video_exts.

Definition is_jpn (s : string) : bool :=
  Py.contains "(jpn)" (Py.lower s) || Py.contains "jpn" (Py.lower s)
  || Py.contains "japanese" (Py.lower s).

(** The value the auto-selection leaves in a [StringVar]: untouched (empty)
    without choices, else the first Japanese choice, else the first one. *)
Definition auto_select (choices : list string) : string :=
  match choices with
  | [] => ""
  | first :: _ =>
      match filter is_jpn choices with
      | j :: _ => j
      | [] => first
      end
  end.

Section Scan.

(** [get_streams path]: the subtitle and audio descriptions found by
    ffprobe, or the exception raised while parsing its output. *)
Variable get_streams : string → Py.exn + (list string * list string).

(** [os.path.getsize path], [None] when it raises. *)
Variable getsize : string → option Z.

Definition total_size_of (dirpath : string) (direct_videos : list string) : Z :=
  fold_left
    (λ total_size vf,
       match getsize (Py.path_join dirpath vf) with
       | Some n => (total_size + n)%Z
       | None => total_size
       end)
    direct_videos 0%Z.

(** The body of the [os.walk] loop for one directory: the state files
    afterwards, and the entry added to [folders] ([None] when the
    directory is skipped) or the exception that escapes. *)
Definition scan_dir (dirpath : string) (dir_files : list string) (fs : state_files)
  : state_files * (Py.exn + option work_item) :=
  let direct_videos := filter is_video dir_files in
  match direct_videos with
  | [] => (fs, inr None)
  | first :: _ =>
      let '(st, done, pending) :=
        match fs !! dirpath with
        | Some st =>
            let done := finished_of st in
            let pending := pending_of st in
            let pending :=
              match pending with
              | [] => filter (λ f, f ∉ done) direct_videos
              | _ :: _ => pending
              end in
            (st, done, pending)
        | None =>
            let pending := direct_videos in
            ({[ "finished" := []; "pending" := pending ]}, [], pending)
        end in
      let fs' := <[dirpath := st]> fs in
      match get_streams (Py.path_join dirpath first) with
      | inl e => (fs', inl e)
      | inr (subs, audios) =>
          (fs', inr (Some {|
             files := pending;
             done := done;
             subs := subs;
             audios := audios;
             selected_sub := auto_select subs;
             selected_audio := auto_select audios;
             video_count := length direct_videos;
             video_size := total_size_of dirpath direct_videos |}))
      end
  end.

(** [scan_folders], over the sequence of [(dirpath, files)] that
    [os.walk(root_folder)] yields. *)
Fixpoint scan_walk (walk : list (string * list string)) (fs : state_files)
    (folders : list (string * work_item))
  : state_files * (Py.exn + list (string * work_item)) :=
  match walk with
  | [] => (fs, inr folders)
  | (dirpath, dir_files) :: walk' =>
      match scan_dir dirpath dir_files fs with
      | (fs', inl e) => (fs', inl e)
      | (fs', inr None) => scan_walk walk' fs' folders
      | (fs', inr (Some item)) => scan_walk walk' fs' (dict_set dirpath item folders)
      end
  end.

Definition scan_folders (walk : list (string * list string)) (fs : state_files)
  : state_files * (Py.exn + list (string * work_item)) :=
  scan_walk walk fs [].

End Scan.

(** ** Progress arithmetic *)

Section Progress.

(** Python's [/] and [*] on these operands are floating-point operations:
    the exact quotient or product, rounded to a double by [round]. *)
Variable round : Q → Q.

Definition true_div (a b : nat) : Q :=
  round (inject_Z (Z.of_nat a) / inject_Z (Z.of_nat b)).

Definition float_mul (x y : Q) : Q := round (x * y).

(** [(processed_in_folder / num_files) * 100 if num_files else 100] *)
Definition folder_percent (processed_in_folder num_files : nat) : Q :=
  if (num_files =? 0)%nat then 100
  else float_mul (true_div processed_in_folder num_files) 100.

(** [(completed_tasks / total_tasks) * 100 if total_tasks else 100] *)
Definition global_percent (completed_tasks total_tasks : nat) : Q :=
  if (total_tasks =? 0)%nat then 100
  else float_mul (true_div completed_tasks total_tasks) 100.

End Progress.

(** ** The batch run *)

(** The files the run creates and deletes, next to the state files. *)
Record world := {
  store : state_files;
  disk : gset string;
}.

(** What the outside does while one file is processed. *)
Record file_env := {
  random_value : string;   (* the digits printed for [random.random()] *)
  probe : proc_result;     (* the ffprobe call of [is_10bit] *)
  extract : proc_result;   (* the ffmpeg call that extracts the subtitles *)
  extract_wrote : bool;    (* ... and whether it left [subtitle_file] behind *)
  burn : proc_result;      (* the ffmpeg call that burns *)
  burn_wrote : bool;       (* ... and whether it left [output_f] behind *)
}.

Inductive event :=
| Log (message : string)
| Invoke (cmd : list string) (r : proc_result)
| CallMarkDone (folder f : string)
| Makedirs (path : string)
| SetProgress (folder_path : string) (percent : Q)
| SetGlobalProgress (percent : Q)
| ShowError (title message : string)
| ShowInfo (title message : string).

(** [x.get().split(":")[1]], [None] when the index is out of range. *)
Definition stream_index (selected : string) : option string :=
  Py.split ":"%char selected !! 1%nat.

(** [idx is not None and idx != ""] *)
Definition has_index (idx : option string) : bool :=
  match idx with
  | Some i => negb (String.eqb i "")
  | None => false
  end.

(** [f"0:{idx}"] under [has_index idx]. *)
Definition stream_map (idx : option string) : string :=
  "0:" +:+ default "None" idx.

(** [if os.path.exists(p): os.remove(p)]; removing a file that exists is
    taken to succeed. *)
Definition remove_if_exists (p : string) (d : gset string) : gset string :=
  if bool_decide (p ∈ d) then d ∖ {[p]} else d.

(** A tool that may have created [p]. *)
Definition wrote (created : bool) (p : string) (d : gset string) : gset string :=
  if created then {[p]} ∪ d else d.

Definition extract_cmd (input_f : string) (sub_idx : option string)
    (subtitle_file : string) : list string :=
  ["ffmpeg"; "-y"; "-i"; input_f; "-map"; stream_map sub_idx; subtitle_file].

Definition burn_cmd (input_f : string) (aud_idx : option string) (vf_option : string)
    (chosen_encoder output_f : string) : list string :=
  ["ffmpeg"; "-y"; "-hwaccel"; "auto"; "-i"; input_f]
  ++ ["-map"; "0:v:0"]
  ++ (if has_index aud_idx then ["-map"; stream_map aud_idx] else ["-map"; "0:a?"])
  ++ (if String.eqb vf_option "" then [] else ["-vf"; vf_option])
  ++ ["-c:v"; chosen_encoder; "-c:a"; "copy"; output_f].

(** The paths one iteration of the file loop works with. *)
Definition input_path (folder f : string) : string := Py.path_join folder f.
Definition output_path (outfolder f : string) : string :=
  Py.path_join outfolder (Py.splitext_root f +:+ "-burned.mp4").
Definition subname_of (env : file_env) : string := "subs" +:+ random_value env +:+ ".ass".
Definition subtitle_path (folder : string) (env : file_env) : string :=
  Py.path_join folder (subname_of env).

(** The bit depth the run assumes: [False] when [is_10bit] raises. *)
Definition input_is_10bit (env : file_env) : bool :=
  match is_10bit (probe env) with
  | inr b => b
  | inl _ => false
  end.

(** The encoder and the filter chosen from the bit depth, before the
    subtitle step may clear the filter. *)
Definition chosen_encoder (best265 best264 : string) (env : file_env) : string :=
  if input_is_10bit env then best265 else best264.

Definition initial_vf (env : file_env) : string :=
  if input_is_10bit env
  then "subtitles=" +:+ subname_of env
  else "format=yuv420p,subtitles=" +:+ subname_of env.

(** The subtitle step: the subtitle index and filter the burn step will
    see, the disk afterwards, and the events. *)
Definition extract_step (folder f : string) (data : work_item) (env : file_env)
    (d : gset string) : option string * string * gset string * list event :=
  let sub_idx := stream_index (selected_sub data) in
  let subtitle_file := subtitle_path folder env in
  if has_index sub_idx then
    let cmd := extract_cmd (input_path folder f) sub_idx subtitle_file in
    match extract env with
    | Completed _ stdout =>
        (sub_idx, initial_vf env, wrote (extract_wrote env) subtitle_file d,
         [Invoke cmd (extract env); Log stdout])
    | Raised e =>
        (None, "",
         remove_if_exists subtitle_file (wrote (extract_wrote env) subtitle_file d),
         [Invoke cmd (extract env);
          Log ("Failed to extract subtitle for " +:+ f +:+ ": " +:+ Py.exn_str e)])
    end
  else (sub_idx, "", d, []).

(** The part of the file loop's body before the progress update. *)
Definition process_file (best265 best264 folder outfolder : string)
    (data : work_item) (f : string) (env : file_env) (w : world)
  : world * list event :=
  let input_f := input_path folder f in
  let output_f := output_path outfolder f in
  let subtitle_file := subtitle_path folder env in
  let aud_idx := stream_index (selected_audio data) in
  let detected :=
    [Invoke (probe_cmd input_f) (probe env);
     if input_is_10bit env
     then Log ("Detected 10-bit input for: " +:+ f)
     else Log ("Detected 8-bit input for: " +:+ f)] in
  let '(sub_idx, vf_option, d1, ev_extract) := extract_step folder f data env (disk w) in
  let cmd := burn_cmd input_f aud_idx vf_option (chosen_encoder best265 best264 env) output_f in
  let d2 := wrote (burn_wrote env) output_f d1 in
  match burn env with
  | Completed _ stdout =>
      let d3 :=
        match sub_idx with
        | Some _ => remove_if_exists subtitle_file d2
        | None => d2
        end in
      match mark_done (store w) folder f with
      | inr fs' =>
          ({| store := fs'; disk := d3 |},
           detected ++ ev_extract
           ++ [Invoke cmd (burn env); Log stdout; CallMarkDone folder f])
      | inl e =>
          ({| store := store w; disk := d3 |},
           detected ++ ev_extract
           ++ [Invoke cmd (burn env); Log stdout; CallMarkDone folder f;
               Log ("Error burning " +:+ f +:+ ": " +:+ Py.exn_str e)])
      end
  | Raised e =>
      ({| store := store w; disk := d2 |},
       detected ++ ev_extract
       ++ [Invoke cmd (burn env);
           Log ("Error burning " +:+ f +:+ ": " +:+ Py.exn_str e)])
  end.

Section Run.

Variable round : Q → Q.

(** What the outside does for the [n]-th file the run processes,
    counting from 0 over the whole run. *)
Variable envs : nat → file_env.

Variables best265 best264 : string.

(** The loop over [list(data["files"])]; returns [completed_tasks] too. *)
Fixpoint process_files (folder outfolder : string) (data : work_item)
    (num_files total_tasks : nat) (fs : list string)
    (processed_in_folder completed_tasks : nat) (w : world)
  : world * nat * list event :=
  match fs with
  | [] => (w, completed_tasks, [])
  | f :: fs' =>
      let '(w1, ev) :=
        process_file best265 best264 folder outfolder data f (envs completed_tasks) w in
      let processed_in_folder := S processed_in_folder in
      let completed_tasks := S completed_tasks in
      let progress :=
        [SetProgress folder (folder_percent round processed_in_folder num_files);
         SetGlobalProgress (global_percent round completed_tasks total_tasks)] in
      let '(w2, completed_tasks, ev') :=
        process_files folder outfolder data num_files total_tasks fs'
          processed_in_folder completed_tasks w1 in
      (w2, completed_tasks, ev ++ progress ++ ev')
  end.

(** The loop over [folders.items()].  [os.makedirs] is recorded in the
    trace and taken to succeed; the two [os.chdir] calls, whose failure the
    code ignores, are left out. *)
Fixpoint process_folders (total_tasks : nat) (folders : list (string * work_item))
    (completed_tasks : nat) (w : world) : world * nat * list event :=
  match folders with
  | [] => (w, completed_tasks, [])
  | (folder, data) :: folders' =>
      match files data with
      | [] => process_folders total_tasks folders' completed_tasks w
      | _ :: _ =>
          let outfolder := folder +:+ "-burned" in
          let num_files := length (files data) in
          let '(w1, completed_tasks, ev) :=
            process_files folder outfolder data num_files total_tasks (files data)
              0 completed_tasks w in
          let '(w2, completed_tasks, ev') :=
            process_folders total_tasks folders' completed_tasks w1 in
          (w2, completed_tasks,
           Makedirs outfolder :: ev
           ++ Log ("Finished processing folder: " +:+ folder) :: ev')
      end
  end.

(** [sum(len(data["files"]) for data in folders.values())] *)
Definition count_tasks (folders : list (string * work_item)) : nat :=
  sum_list (map (λ entry, length (files entry.2)) folders).

End Run.

(** [run], given the encoders found ([enc_list]) and the registry left by
    [select_folder]. *)
Definition run (round : Q → Q) (envs : nat → file_env) (enc_list : encoders)
    (folders : list (string * work_item)) (w : world) : world * list event :=
  let '(bestav1, best265, best264) := pick_best_encoder enc_list in
  match folders with
  | [] =>
      (w, [ShowError "Error" "No folders selected. Please select a folder first."])
  | _ :: _ =>
      let total_tasks := count_tasks folders in
      let '(w', _, ev) :=
        process_folders round envs best265 best264 total_tasks folders 0 w in
      (w', ev ++ [SetGlobalProgress 100; SetProgress "" 100;
                  ShowInfo "Done" "All folders done!"])
  end.

(** ** Vocabulary of the properties *)

(** [sub] occurs in [s]. *)
Definition substring_of (sub s : string) : Prop :=
  ∃ pre post, s = pre +:+ sub +:+ post.

(** [x] occurs at most once in [l]. *)
Definition at_most_once (x : string) (l : list string) : Prop :=
  ∀ i j, l !! i = Some x → l !! j = Some x → i = j.

(** No file name is both finished and pending. *)
Definition disjoint_lists (finished pending : list string) : Prop :=
  ∀ x, x ∈ finished → x ∉ pending.

(** A state file that holds both lists. *)
Definition well_formed (st : state) : Prop :=
  is_Some (st !! "finished") ∧ is_Some (st !! "pending").

(** The state [mark_done] writes, when both lists are there. *)
Definition marked_state (f : string) (st : state) : state :=
  <["pending" := list_remove_first f (pending_of st)]>
    (<["finished" := if bool_decide (f ∈ finished_of st) then finished_of st
                     else finished_of st ++ [f]]> st).

(** What the scanner establishes and [mark_done] maintains for a state:
    no pending name is listed twice or is also finished. *)
Definition state_ok (st : state) : Prop :=
  NoDup (pending_of st) ∧ disjoint_lists (finished_of st) (pending_of st).

Definition store_ok (fs : state_files) : Prop :=
  ∀ folder st, fs !! folder = Some st → state_ok st.

(** The state files the program itself can produce, starting without any:
    by scans of directory trees (a directory lists each name once), by
    calls of [mark_done], and by whole batch runs over any registry. *)
Inductive reachable : state_files → Prop :=
| reachable_fresh : reachable ∅
| reachable_scan get_streams getsize walk fs :
    reachable fs →
    Forall (λ entry : string * list string, NoDup entry.2) walk →
    reachable (scan_folders get_streams getsize walk fs).1
| reachable_mark_done folder f fs fs' :
    reachable fs →
    mark_done fs folder f = inr fs' →
    reachable fs'
| reachable_run round envs enc_list folders fs d :
    reachable fs →
    reachable (store (run round envs enc_list folders {| store := fs; disk := d |}).1).

(** The commands a trace handed to [subprocess.run], in order. *)
Fixpoint invoked (tr : list event) : list (list string) :=
  match tr with
  | [] => []
  | Invoke cmd _ :: tr' => cmd :: invoked tr'
  | _ :: tr' => invoked tr'
  end.

(** The [mark_done] calls of a trace. *)
Fixpoint marked (tr : list event) : list (string * string) :=
  match tr with
  | [] => []
  | CallMarkDone folder f :: tr' => (folder, f) :: marked tr'
  | _ :: tr' => marked tr'
  end.

(** The log lines of a trace. *)
Fixpoint logged (tr : list event) : list string :=
  match tr with
  | [] => []
  | Log m :: tr' => m :: logged tr'
  | _ :: tr' => logged tr'
  end.

(** The values a trace gave to the global progress bar, in order. *)
Fixpoint global_percents (tr : list event) : list Q :=
  match tr with
  | [] => []
  | SetGlobalProgress p :: tr' => p :: global_percents tr'
  | _ :: tr' => global_percents tr'
  end.

Definition nondecreasing (l : list Q) : Prop :=
  ∀ i j x y, (i ≤ j)%nat → l !! i = Some x → l !! j = Some y → (x <= y)%Q.

(** The subtitle filter survives the subtitle step: a track is selected
    and its extraction did not raise. *)
Definition subtitles_kept (data : work_item) (env : file_env) : bool :=
  has_index (stream_index (selected_sub data)) &&
  match extract env with
  | Completed _ _ => true
  | Raised _ => false
  end.

(** ** Example inputs *)

(** Folder [X] with a hand-edited state file that lists [a.mkv] twice. *)
Definition store_listed_twice : state_files :=
  {[ "X" := {[ "finished" := []; "pending" := ["a.mkv"; "a.mkv"] ]} ]}.

(** Folder [X] after a fresh scan of [a.mkv] and [b.mkv]. *)
Definition store_ab : state_files :=
  {[ "X" := {[ "finished" := []; "pending" := ["a.mkv"; "b.mkv"] ]} ]}.

(** ... and after [a.mkv] was then marked done. *)
Definition store_a_done : state_files :=
  {[ "X" := {[ "finished" := ["a.mkv"]; "pending" := ["b.mkv"] ]} ]}.

(** Folder [X] with [a.mkv] finished and nothing pending, and what
    [os.walk] lists in it once [b.mkv] and [c.mkv] have been added. *)
Definition store_a_finished : state_files :=
  {[ "X" := {[ "finished" := ["a.mkv"]; "pending" := [] ]} ]}.

Definition listing_abc : list string :=
  ["a.mkv"; "b.mkv"; "c.mkv"; "burn_state.json"].

Definition listing_ab : list string := ["a.mkv"; "b.mkv"].

(** Videos without audio or subtitle streams, sizes unreadable. *)
Definition no_streams : string → Py.exn + (list string * list string) :=
  λ _, inr ([], []).

Definition no_sizes : string → option Z := λ _, None.

Definition newline : string := String (ascii_of_nat 10) "".


Definition data_jpn : work_item :=
  {| files := ["a.mkv"; "b.mkv"]; done := [];
     subs := ["ass (jpn):2"]; audios := ["aac (jpn):1"];
     selected_sub := "ass (jpn):2"; selected_audio := "aac (jpn):1";
     video_count := 2; video_size := 0 |}.

(** An 8-bit file for which every tool call succeeds. *)
Definition env_ok : file_env :=
  {| random_value := "0.5";
     probe := Completed 0 ("yuv420p" +:+ newline);
     extract := Completed 0 ""; extract_wrote := true;
     burn := Completed 0 ""; burn_wrote := true |}.

(** The same file when ffmpeg fails to encode and exits with code 1. *)
Definition env_burn_fails : file_env :=
  {| random_value := "0.5";
     probe := Completed 0 ("yuv420p" +:+ newline);
     extract := Completed 0 ""; extract_wrote := true;
     burn := Completed 1 "Conversion failed!"; burn_wrote := false |}.

(** The same file when the subtitle extraction raises after ffmpeg has
    started writing the sidecar file. *)
Definition env_extract_raises : file_env :=
  {| random_value := "0.5";
     probe := Completed 0 ("yuv420p" +:+ newline);
     extract := Raised (Py.OtherError "'utf-8' codec can't decode byte 0xff");
     extract_wrote := true;
     burn := Completed 0 ""; burn_wrote := true |}.



Definition world_ab : world := {| store := store_ab; disk := ∅ |}.

(** ** Encoder detection *)

Definition codec_groups : list (string * list string) :=
  [("av1", ["av1_nvenc"; "av1_amf"; "av1_qsv"]);
   ("hevc", ["hevc_nvenc"; "hevc_amf"; "hevc_qsv"]);
   ("h264", ["h264_nvenc"; "h264_amf"; "h264_qsv"])].

(** What [subprocess.run(cmd, ..., check=True, timeout=4)] does: it returns
    when the exit code is 0, raises [CalledProcessError] on another exit
    code and [TimeoutExpired] after 4 seconds (both are
    [SubprocessError]s), or raises something else, such as the [OSError]
    of a missing program. *)
Inductive trial :=
| TrialExit (returncode : Z)
| TrialTimeout
| TrialRaised (e : Py.exn).

Definition test_cmd (encoder_name : string) : list string :=
  ["ffmpeg"; "-hide_banner"; "-loglevel"; "error";
   "-f"; "lavfi"; "-i"; "sine=frequency=440:duration=0.2";
   "-f"; "lavfi"; "-i"; "testsrc2=duration=0.2:size=320x240:rate=1";
   "-c:v"; encoder_name;
   "-c:a"; "aac";
   "-f"; "null"; "-"].

Section Detection.

(** The outcome of each trial encode, by command. *)
Variable run_trial : list string → trial.

Definition test_encoder (encoder_name : string) : Py.exn + (string * bool) :=
  match run_trial (test_cmd encoder_name) with
  | TrialExit 0 => inr (encoder_name, true)
  | TrialExit _ => inr (encoder_name, false)
  | TrialTimeout => inr (encoder_name, false)
  | TrialRaised e => inl e
  end.

(** The loop of [test_group], from the [results] built so far. *)
Fixpoint test_group_from (encoders : list string) (results : list (string * bool))
  : Py.exn + list (string * bool) :=
  match encoders with
  | [] => inr results
  | enc :: encoders' =>
      match test_encoder enc with
      | inl e => inl e
      | inr (name, available) => test_group_from encoders' (dict_set name available results)
      end
  end.

Definition test_group (encoders : list string) : Py.exn + list (string * bool) :=
  test_group_from encoders [].

(** [d.update(other)] *)
Definition dict_update {V} (d other : list (string * V)) : list (string * V) :=
  fold_left (λ acc entry, dict_set entry.1 entry.2 acc) other d.

(** The loop over the futures, in submission order: the first group whose
    worker raised makes [future.result()] raise. *)
Fixpoint collect_results (groups : list (list string)) (final_results : list (string * bool))
  : Py.exn + list (string * bool) :=
  match groups with
  | [] => inr final_results
  | group :: groups' =>
      match test_group group with
      | inl e => inl e
      | inr results => collect_results groups' (dict_update final_results results)
      end
  end.

Definition getallmyencoders : Py.exn + list string :=
  match collect_results (map snd codec_groups) [] with
  | inl e => inl e
  | inr final_results =>
      inr (map fst (List.filter (λ entry : string * bool, entry.2) final_results))
  end.

(** The first lines of [run]: the trial encodes, and when they raise, the
    text that [get_available_encoders] returns ([encoder_listing] is what
    its [subprocess.run] did); an exception of the latter escapes. *)
Definition find_encoders (encoder_listing : proc_result) : Py.exn + encoders :=
  match getallmyencoders with
  | inr enc_list => inr (EncList enc_list)
  | inl _ =>
      match encoder_listing with
      | Completed _ stdout => inr (EncText stdout)
      | Raised e => inl e
      end
  end.

End Detection.

(** ** Stream probing *)

(** One entry of ffprobe's ["streams"] array, with the keys [get_streams]
    reads ([language] is [tags.language]); a key that is absent is [None]. *)
Record stream := {
  codec_type : option string;
  index : option Z;
  codec_name : option string;
  language : option string;
}.

(** What [json.loads(result.stdout)] gives: an exception (of the ffprobe
    call or of the parser), or an object with or without ["streams"]. *)
Inductive ffprobe_json :=
| NoJson (e : Py.exn)
| Json (streams : option (list stream)).

(** [f"{stream['codec_name']} ({lang}):{idx}"] *)
Definition describe (s : stream) : Py.exn + string :=
  match index s with
  | None => inl (Py.KeyError "index")
  | Some idx =>
      let lang := default "und" (language s) in
      match codec_name s with
      | None => inl (Py.KeyError "codec_name")
      | Some name => inr (name +:+ " (" +:+ lang +:+ "):" +:+ pretty idx)
      end
  end.

(** The loop of [get_streams] over [data["streams"]]. *)
Fixpoint get_streams_loop (streams : list stream)
    (subtitle_choices audio_choices : list string)
  : Py.exn + (list string * list string) :=
  match streams with
  | [] => inr (subtitle_choices, audio_choices)
  | s :: streams' =>
      match codec_type s with
      | None => inl (Py.KeyError "codec_type")
      | Some t =>
          if String.eqb t "audio" then
            match describe s with
            | inl e => inl e
            | inr desc => get_streams_loop streams' subtitle_choices (audio_choices ++ [desc])
            end
          else if String.eqb t "subtitle" then
            match describe s with
            | inl e => inl e
            | inr desc => get_streams_loop streams' (subtitle_choices ++ [desc]) audio_choices
            end
          else get_streams_loop streams' subtitle_choices audio_choices
      end
  end.

(** [get_streams], given what ffprobe printed for each path. *)
Definition get_streams (ffprobe : string → ffprobe_json) (file_path : string)
  : Py.exn + (list string * list string) :=
  match ffprobe file_path with
  | NoJson e => inl e
  | Json None => inl (Py.KeyError "streams")
  | Json (Some streams) => get_streams_loop streams [] []
  end.

(** ** Vocabulary of the further properties *)

(** The trial succeeded: the only outcome [test_encoder] reports as
    available. *)
Definition trial_ok (t : trial) : bool :=
  match t with
  | TrialExit 0 => true
  | _ => false
  end.

(** The nine encoder names that are tried, in the order of [codec_groups]. *)
Definition candidates : list string := mjoin (map snd codec_groups).

(** [c] occurs in [s]. *)
Fixpoint has_char (c : ascii) (s : string) : bool :=
  match s with
  | EmptyString => false
  | String d s' => Ascii.eqb d c || has_char c s'
  end.

(** The (folder, file) pairs a run works through, in order. *)
Definition tasks (folders : list (string * work_item)) : list (string * string) :=
  folders ≫= λ entry, pair entry.1 <$> files entry.2.

(** [subprocess.run] returned, whatever the exit code. *)
Definition returned (r : proc_result) : bool :=
  match r with
  | Completed _ _ => true
  | Raised _ => false
  end.

(** The values a trace gave to the progress bar of [folder], in order. *)
Fixpoint folder_percents (folder : string) (tr : list event) : list Q :=
  match tr with
  | [] => []
  | SetProgress folder' p :: tr' =>
      if decide (folder' = folder) then p :: folder_percents folder tr'
      else folder_percents folder tr'
  | _ :: tr' => folder_percents folder tr'
  end.

(** A stream entry [get_streams] can read: it has a type, and an index
    and a codec name if it is an audio or a subtitle stream. *)
Definition complete_stream (s : stream) : Prop :=
  is_Some (codec_type s)
  ∧ (codec_type s = Some "audio" ∨ codec_type s = Some "subtitle" →
     is_Some (index s) ∧ is_Some (codec_name s)).

(** Neither the codec name nor the language tag contains a colon. *)
Definition colon_free (s : stream) : Prop :=
  (∀ name, codec_name s = Some name → has_char ":" name = false)
  ∧ has_char ":" (default "und" (language s)) = false.

(** From [st] to [st'] nothing finished is forgotten and nothing becomes
    pending. *)
Definition state_advances (st st' : state) : Prop :=
  (∀ x, x ∈ finished_of st → x ∈ finished_of st')
  ∧ (∀ x, x ∈ pending_of st' → x ∈ pending_of st).

(** Every state file of [fs] is still there in [fs'], advanced. *)
Definition store_advances (fs fs' : state_files) : Prop :=
  ∀ folder st, fs !! folder = Some st →
    ∃ st', fs' !! folder = Some st' ∧ state_advances st st'.

(** Of the tasks [ts], numbered from [start], those whose burn call
    returned. *)
Definition returned_tasks (envs : nat → file_env) (start : nat)
    (ts : list (string * string)) : list (string * string) :=
  fst <$> filter (λ tn : string * string * nat, returned (burn (envs tn.2)) = true)
            (zip ts (seq start (length ts))).

(** ** Further example inputs *)

(** A machine on which only the QSV and AMF encoders of HEVC work, the
    NVENC encoder of H264 fails and every other trial times out. *)
Definition trials_qsv_amf : list string → trial :=
  λ cmd,
    if bool_decide (cmd = test_cmd "hevc_qsv") then TrialExit 0
    else if bool_decide (cmd = test_cmd "hevc_amf") then TrialExit 0
    else if bool_decide (cmd = test_cmd "h264_nvenc") then TrialExit 1
    else TrialTimeout.

(** A machine without ffmpeg: every trial raises. *)
Definition trials_no_ffmpeg : list string → trial :=
  λ _, TrialRaised (Py.OtherError "[Errno 2] No such file or directory: 'ffmpeg'").

(** What ffprobe lists for a film with an English and a Japanese audio
    and subtitle track. *)
Definition film_streams : list stream :=
  [{| codec_type := Some "video"; index := Some 0%Z;
      codec_name := Some "hevc"; language := None |};
   {| codec_type := Some "audio"; index := Some 1%Z;
      codec_name := Some "aac"; language := Some "eng" |};
   {| codec_type := Some "audio"; index := Some 2%Z;
      codec_name := Some "flac"; language := Some "jpn" |};
   {| codec_type := Some "subtitle"; index := Some 3%Z;
      codec_name := Some "ass"; language := Some "eng" |};
   {| codec_type := Some "subtitle"; index := Some 4%Z;
      codec_name := Some "ass"; language := Some "jpn" |};
   {| codec_type := Some "attachment"; index := None;
      codec_name := None; language := None |}].

Definition ffprobe_film : string → ffprobe_json := λ _, Json (Some film_streams).

(** Folder [X] with a state file from which [pending] was deleted. *)
Definition store_no_pending : state_files :=
  {[ "X" := {[ "finished" := ["a.mkv"] ]} ]}.


(** Folder [X] with [a.mkv] finished and a pending name whose file is no
    longer in the directory. *)
Definition store_gone_pending : state_files :=
  {[ "X" := {[ "finished" := ["a.mkv"]; "pending" := ["gone.mkv"] ]} ]}.

(** * Properties *)

(** ** Strings *)

Lemma append_cons (c : ascii) (a b : string) : String c a +:+ b = String c (a +:+ b).
Proof. reflexivity. Qed.

Lemma append_nil_l (b : string) : "" +:+ b = b.
Proof. reflexivity. Qed.

Lemma append_assoc (a b c : string) : (a +:+ b) +:+ c = a +:+ (b +:+ c).
Proof.
  induction a as [|ch a IH]; [reflexivity|].
  rewrite !append_cons. now rewrite IH.
Qed.

Lemma length_append (a b : string) :
  String.length (a +:+ b) = (String.length a + String.length b)%nat.
Proof.
  induction a as [|c a IH]; [reflexivity|].
  rewrite append_cons. cbn [String.length]. by rewrite IH.
Qed.

(** Two strings that are equal have the same last [n] characters. *)
Lemma append_suffix_inj (a b s t : string) :
  String.length s = String.length t → a +:+ s = b +:+ t → s = t.
Proof.
  revert b. induction a as [|c a IH]; intros b Hlen H.
  - rewrite append_nil_l in H. subst s. rewrite length_append in Hlen.
    destruct b as [|d b]; [reflexivity|]. cbn [String.length] in Hlen. lia.
  - destruct b as [|d b].
    + rewrite append_nil_l in H. subst t.
      rewrite append_cons in Hlen. cbn [String.length] in Hlen.
      rewrite length_append in Hlen. lia.
    + rewrite !append_cons in H. injection H as _ H. by eapply IH.
Qed.

(** Whatever [os.path.join(a, b)] puts in front, the path ends with [b]. *)
Lemma path_join_suffix (a b : string) : ∃ pre, Py.path_join a b = pre +:+ b.
Proof.
  unfold Py.path_join. destruct (Py.startswith b "/"); [by exists ""|].
  destruct (String.eqb a "" || Py.endswith a "/"); [by exists a|].
  exists (a +:+ "/"). by rewrite append_assoc.
Qed.

Lemma startswith_spec (s p : string) :
  Py.startswith s p = true ↔ ∃ post, s = p +:+ post.
Proof.
  unfold Py.startswith. revert s.
  induction p as [|c p IH]; intros s.
  - destruct s; cbn; split; eauto.
  - destruct s as [|d s]; cbn [String.prefix].
    + split; [discriminate|]. intros [post H]. discriminate.
    + destruct (ascii_dec c d) as [->|Hne].
      * rewrite IH. split; intros [post H]; exists post.
        -- rewrite append_cons. now subst.
        -- rewrite append_cons in H. now injection H.
      * split; [discriminate|]. intros [post H].
        rewrite append_cons in H. congruence.
Qed.

Lemma contains_spec (sub s : string) :
  Py.contains sub s = true ↔ substring_of sub s.
Proof.
  unfold substring_of. induction s as [|c s IH]; cbn [Py.contains].
  - rewrite orb_false_r, startswith_spec. split.
    + intros [post H]. exists "", post. exact H.
    + intros ([|d pre] & post & H); [eauto|discriminate].
  - rewrite orb_true_iff, startswith_spec, IH. split.
    + intros [[post H]|(pre & post & H)].
      * exists "", post. exact H.
      * exists (String c pre), post. rewrite append_cons. now rewrite H.
    + intros ([|d pre] & post & H).
      * left. eauto.
      * right. exists pre, post. rewrite append_cons in H. congruence.
Qed.

(** ** Encoder selection *)

Lemma choose_first_available (l : list string) (a b c sw : string) :
  hd sw (filter (λ x, x ∈ (list_to_set l : gset string)) [a; b; c]) =
  if bool_decide (a ∈ l) then a
  else if bool_decide (b ∈ l) then b
  else if bool_decide (c ∈ l) then c
  else sw.
Proof.
  rewrite !filter_cons, filter_nil.
  repeat case_bool_decide; repeat case_decide;
    try reflexivity; exfalso; set_solver.
Qed.

(** C6: on a list of available encoders, [pick_best_encoder] is the
    specification's [selectBest] of the set of its elements, that is, per
    family the first of NVENC, QSV, AMF that is available and the software
    encoder otherwise; with only [hevc_qsv] and [hevc_amf] available the
    HEVC slot is [hevc_qsv], and with nothing available the three slots
    are the software encoders. *)
Theorem pick_best_encoder_preference (l : list string) :
  pick_best_encoder (EncList l) = SelectBest.selectBest (list_to_set l)
  ∧ (pick_best_encoder (EncList ["hevc_qsv"; "hevc_amf"])).1.2 = "hevc_qsv"
  ∧ pick_best_encoder (EncList []) = ("libxav1", "libx265", "libx264").
Proof.
  split; [|split; reflexivity].
  unfold pick_best_encoder, SelectBest.selectBest, SelectBest.choose.
  cbn [py_in SelectBest.preference SelectBest.software].
  now rewrite !choose_first_available.
Qed.

(** The selection depends on the available encoders as a set only. *)
Corollary pick_best_encoder_set_ext (l1 l2 : list string) :
  (∀ x, x ∈ l1 ↔ x ∈ l2) →
  pick_best_encoder (EncList l1) = pick_best_encoder (EncList l2).
Proof.
  intros H. unfold pick_best_encoder, py_in.
  now rewrite !(bool_decide_ext _ _ (H _)).
Qed.

(** ** Bit-depth probe *)


(** ** The state store *)

Lemma list_remove_first_subseteq (x y : string) (l : list string) :
  y ∈ list_remove_first x l → y ∈ l.
Proof.
  induction l as [|z l IH]; cbn; [done|].
  destruct (decide (x = z)); rewrite !elem_of_cons; tauto.
Qed.

Lemma list_remove_first_absent (x : string) (l : list string) :
  x ∉ l → list_remove_first x l = l.
Proof.
  induction l as [|z l IH]; cbn; [done|].
  intros Hx. case_decide; [set_solver|].
  f_equal. apply IH. set_solver.
Qed.

Lemma list_remove_first_NoDup (x : string) (l : list string) :
  NoDup l → NoDup (list_remove_first x l).
Proof.
  induction 1 as [|z l Hz Hl IH]; cbn; [constructor|].
  case_decide; [done|].
  constructor; [|done].
  intros Hin. apply Hz. eapply list_remove_first_subseteq, Hin.
Qed.

Lemma at_most_once_tail (x y : string) (l : list string) :
  at_most_once x (y :: l) → at_most_once x l.
Proof.
  intros H i j Hi Hj.
  specialize (H (S i) (S j) Hi Hj). lia.
Qed.

Lemma list_remove_first_gone (x : string) (l : list string) :
  at_most_once x l → x ∉ list_remove_first x l.
Proof.
  induction l as [|z l IH]; cbn; intros Hone; [set_solver|].
  case_decide as Hxz.
  - subst z. intros (j & Hj)%list_elem_of_lookup.
    specialize (Hone 0%nat (S j) eq_refl Hj). lia.
  - apply not_elem_of_cons. split; [done|].
    eapply IH, at_most_once_tail, Hone.
Qed.

Lemma NoDup_at_most_once (x : string) (l : list string) :
  NoDup l → at_most_once x l.
Proof. intros Hl i j Hi Hj. eapply NoDup_lookup; eauto. Qed.

Lemma classic_at_most_once (x : string) (l : list string) :
  at_most_once x l ∨ ¬ at_most_once x l.
Proof.
  destruct (decide (x ∈ list_remove_first x l)) as [Hin|Hnin].
  - right. intros Hone. by apply list_remove_first_gone in Hone.
  - left. induction l as [|z l IH]; [intros i j Hi; by rewrite lookup_nil in Hi|].
    cbn in Hnin. destruct (decide (x = z)) as [<-|Hne].
    + intros [|i] [|j] Hi Hj; try done; exfalso; apply Hnin;
        apply list_elem_of_lookup; eauto.
    + apply not_elem_of_cons in Hnin as [_ Hnin]. specialize (IH Hnin).
      intros [|i] [|j] Hi Hj; cbn in *; try congruence.
      f_equal. by apply IH.
Qed.

(** The two occurrences of a name listed twice: the first call of
    [mark_done] removes one, the second the other. *)
Lemma list_remove_first_twice_in (x : string) (l : list string) :
  ¬ at_most_once x l → x ∈ list_remove_first x l.
Proof.
  induction l as [|z l IH]; cbn; intros Hnot.
  - exfalso. apply Hnot. intros i j Hi. by rewrite lookup_nil in Hi.
  - case_decide as Hxz.
    + subst z. destruct (decide (x ∈ l)) as [|Hnin]; [done|].
      exfalso. apply Hnot. intros [|i] [|j] Hi Hj; try done.
      * exfalso. apply Hnin. apply list_elem_of_lookup. by exists j.
      * exfalso. apply Hnin. apply list_elem_of_lookup. by exists i.
      * exfalso. apply Hnin. apply list_elem_of_lookup. by exists i.
    + apply elem_of_cons. right. apply IH. intros Hone. apply Hnot.
      intros [|i] [|j] Hi Hj; cbn in *; try congruence.
      f_equal. by apply Hone.
Qed.

Lemma mark_done_well_formed (fs : state_files) (folder f : string) :
  well_formed (current_state fs folder) →
  mark_done fs folder f = inr (<[folder := marked_state f (current_state fs folder)]> fs).
Proof.
  intros [[fin Hfin] [pen Hpen]].
  unfold mark_done, marked_state, finished_of, pending_of.
  rewrite Hfin, Hpen. simpl.
  case_bool_decide as Hf.
  - rewrite Hpen. rewrite (insert_id _ "finished" fin) by done.
    case_bool_decide as Hp; [reflexivity|].
    rewrite list_remove_first_absent by done.
    rewrite (insert_id _ "pending" pen) by done. reflexivity.
  - rewrite lookup_insert_ne by done. rewrite Hpen.
    case_bool_decide as Hp; [reflexivity|].
    rewrite list_remove_first_absent by done.
    rewrite (insert_id _ "pending" pen); [reflexivity|].
    by rewrite lookup_insert_ne.
Qed.

Lemma mark_done_inr_well_formed (fs fs' : state_files) (folder f : string) :
  mark_done fs folder f = inr fs' → well_formed (current_state fs folder).
Proof.
  unfold mark_done, well_formed.
  destruct (current_state fs folder !! "finished") as [fin|] eqn:Hfin; [|done].
  case_bool_decide.
  - destruct (current_state fs folder !! "pending") eqn:Hpen; [eauto|done].
  - rewrite lookup_insert_ne by done.
    destruct (current_state fs folder !! "pending") eqn:Hpen; [eauto|done].
Qed.

Lemma marked_state_finished (f : string) (st : state) :
  finished_of (marked_state f st) =
  if bool_decide (f ∈ finished_of st) then finished_of st else finished_of st ++ [f].
Proof.
  unfold marked_state. unfold finished_of at 1.
  rewrite lookup_insert_ne by done. by rewrite lookup_insert_eq.
Qed.

Lemma marked_state_pending (f : string) (st : state) :
  pending_of (marked_state f st) = list_remove_first f (pending_of st).
Proof.
  unfold marked_state. unfold pending_of at 1. by rewrite lookup_insert_eq.
Qed.

Lemma marked_state_well_formed (f : string) (st : state) :
  well_formed (marked_state f st).
Proof.
  unfold well_formed, marked_state. split.
  - rewrite lookup_insert_ne by done. rewrite lookup_insert_eq. eauto.
  - rewrite lookup_insert_eq. eauto.
Qed.

Lemma marked_state_finished_in (f : string) (st : state) :
  f ∈ finished_of (marked_state f st).
Proof.
  rewrite marked_state_finished. case_bool_decide; [done|].
  apply elem_of_app. right. by apply list_elem_of_singleton.
Qed.

Lemma fresh_state_well_formed (fs : state_files) (folder : string) :
  fs !! folder = None →
  well_formed (current_state fs folder)
  ∧ finished_of (current_state fs folder) = []
  ∧ pending_of (current_state fs folder) = [].
Proof.
  intros Hnone. unfold current_state. rewrite Hnone.
  unfold well_formed. repeat split; eexists; reflexivity.
Qed.

Lemma list_remove_first_shorter (x : string) (l : list string) :
  x ∈ l → (length (list_remove_first x l) < length l)%nat.
Proof.
  induction l as [|z l IH]; cbn; intros Hx; [by apply elem_of_nil in Hx|].
  destruct (decide (x = z)) as [|Hne]; cbn; [lia|].
  apply elem_of_cons in Hx as [?|Hx]; [done|]. specialize (IH Hx). lia.
Qed.

Lemma marked_state_idem (f : string) (st : state) :
  f ∉ pending_of (marked_state f st) →
  marked_state f (marked_state f st) = marked_state f st.
Proof.
  intros Hgone.
  pose proof (marked_state_finished_in f st) as Hin.
  destruct (marked_state_well_formed f st) as [[fin Hfin] [pen Hpen]].
  unfold marked_state at 1.
  rewrite (bool_decide_eq_true_2 _ Hin).
  rewrite list_remove_first_absent by exact Hgone.
  unfold finished_of, pending_of in *. rewrite Hfin, Hpen in *. simpl.
  rewrite (insert_id _ "finished" fin) by done.
  by rewrite (insert_id _ "pending" pen).
Qed.

(** Once [f] is gone from [pending], a further [mark_done] rewrites the
    state file as it is. *)
Lemma mark_done_again (fs : state_files) (folder f : string) (st : state) :
  f ∉ pending_of (marked_state f st) →
  mark_done (<[folder := marked_state f st]> fs) folder f
  = inr (<[folder := marked_state f st]> fs).
Proof.
  intros Hgone.
  rewrite mark_done_well_formed;
    unfold current_state; rewrite lookup_insert_eq;
    [|apply marked_state_well_formed].
  rewrite insert_insert_eq. do 2 f_equal.
  by apply marked_state_idem.
Qed.

(** C4 as stated fails: with [a.mkv] listed twice in [pending], the first
    [mark_done] leaves one occurrence and the second removes it. *)
Lemma mark_done_twice_differs_when_listed_twice :
  ¬ (∀ (fs fs1 fs2 : state_files) (folder f : string) (st1 st2 : state),
       mark_done fs folder f = inr fs1 →
       mark_done fs1 folder f = inr fs2 →
       fs1 !! folder = Some st1 →
       fs2 !! folder = Some st2 →
       (∀ x, x ∈ finished_of st1 ↔ x ∈ finished_of st2)
       ∧ (∀ x, x ∈ pending_of st1 ↔ x ∈ pending_of st2)).
Proof.
  intros H.
  destruct (H store_listed_twice
              {[ "X" := {[ "finished" := ["a.mkv"]; "pending" := ["a.mkv"] ]} ]}
              {[ "X" := {[ "finished" := ["a.mkv"]; "pending" := [] ]} ]}
              "X" "a.mkv"
              {[ "finished" := ["a.mkv"]; "pending" := ["a.mkv"] ]}
              {[ "finished" := ["a.mkv"]; "pending" := [] ]})
    as [_ Hp]; try (vm_compute; reflexivity).
  specialize (Hp "a.mkv"). vm_compute in Hp.
  destruct Hp as [Hp _].
  specialize (Hp (list_elem_of_here _ _)). inversion Hp.
Qed.

(** C4 (amended): when the state file is absent, or holds both lists and
    lists [f] at most once as pending, [mark_done folder f] succeeds, a
    second call changes nothing, and the state written has [f] finished
    and not pending: [finished] is unchanged if it had [f] and gets [f]
    appended otherwise, [pending] loses [f] and is unchanged if it did not
    have it, and other folders' state files are untouched. *)
Theorem mark_done_idempotent (fs : state_files) (folder f : string) :
  fs !! folder = None
  ∨ (well_formed (current_state fs folder)
     ∧ at_most_once f (pending_of (current_state fs folder))) →
  ∃ fs1 st1,
    mark_done fs folder f = inr fs1
    ∧ mark_done fs1 folder f = inr fs1
    ∧ fs1 !! folder = Some st1
    ∧ (∀ other, other ≠ folder → fs1 !! other = fs !! other)
    ∧ well_formed st1
    ∧ f ∈ finished_of st1
    ∧ (f ∉ pending_of st1)
    ∧ (f ∈ finished_of (current_state fs folder) →
       finished_of st1 = finished_of (current_state fs folder))
    ∧ (f ∉ finished_of (current_state fs folder) →
       finished_of st1 = finished_of (current_state fs folder) ++ [f])
    ∧ pending_of st1 = list_remove_first f (pending_of (current_state fs folder))
    ∧ (f ∉ pending_of (current_state fs folder) →
       pending_of st1 = pending_of (current_state fs folder))
    ∧ (fs !! folder = None → finished_of st1 = [f] ∧ pending_of st1 = []).
Proof.
  intros Hpre.
  assert (well_formed (current_state fs folder)
          ∧ at_most_once f (pending_of (current_state fs folder))) as [Hwf Hone].
  { destruct Hpre as [Hnone|Hpre]; [|exact Hpre].
    destruct (fresh_state_well_formed fs folder Hnone) as (Hwf & _ & Hpen).
    split; [exact Hwf|]. rewrite Hpen. intros i j Hi. by rewrite lookup_nil in Hi. }
  set (st := current_state fs folder) in *.
  assert (Hgone : f ∉ pending_of (marked_state f st)).
  { rewrite marked_state_pending. by apply list_remove_first_gone. }
  exists (<[folder := marked_state f st]> fs), (marked_state f st).
  split; [by apply mark_done_well_formed|].
  split; [by apply mark_done_again|].
  split; [by rewrite lookup_insert_eq|].
  split; [intros other Hne; by rewrite lookup_insert_ne|].
  split; [apply marked_state_well_formed|].
  split; [apply marked_state_finished_in|].
  split; [exact Hgone|].
  rewrite marked_state_finished, marked_state_pending.
  split; [intros Hin; by rewrite bool_decide_eq_true_2|].
  split; [intros Hin; by rewrite bool_decide_eq_false_2|].
  split; [reflexivity|].
  split; [intros Hin; by apply list_remove_first_absent|].
  intros Hnone.
  destruct (fresh_state_well_formed fs folder Hnone) as (_ & Hfin & Hpen).
  fold st in Hfin, Hpen. rewrite Hfin, Hpen. split; reflexivity.
Qed.

Lemma mark_done_idempotent_witness :
  (well_formed (current_state store_ab "X")
   ∧ at_most_once "a.mkv" (pending_of (current_state store_ab "X")))
  ∧ ∃ fs1, mark_done store_ab "X" "a.mkv" = inr fs1
           ∧ mark_done fs1 "X" "a.mkv" = inr fs1.
Proof.
  assert (well_formed (current_state store_ab "X")
          ∧ at_most_once "a.mkv" (pending_of (current_state store_ab "X"))) as H.
  { split.
    - split; eexists; vm_compute; reflexivity.
    - apply NoDup_at_most_once.
      apply (bool_decide_unpack _). vm_compute. reflexivity. }
  split; [exact H|].
  destruct (mark_done_idempotent store_ab "X" "a.mkv" (or_intror H))
    as (fs1 & st1 & H1 & H2 & _).
  exists fs1. split; assumption.
Defined.

(** The condition of the amended C4 is the weakest one: on a state file
    with both lists, a second [mark_done] changes nothing exactly when [f]
    was listed at most once as pending. *)
Corollary mark_done_twice_iff (fs : state_files) (folder f : string) :
  well_formed (current_state fs folder) →
  let fs1 := <[folder := marked_state f (current_state fs folder)]> fs in
  mark_done fs1 folder f = inr fs1 ↔ at_most_once f (pending_of (current_state fs folder)).
Proof.
  intros Hwf fs1. split.
  - intros Hidem.
    destruct (decide (f ∈ list_remove_first f (pending_of (current_state fs folder))))
      as [Hin|Hnin].
    + exfalso.
      assert (current_state fs1 folder = marked_state f (current_state fs folder))
        as Hcs by (unfold current_state at 1; subst fs1; by rewrite lookup_insert_eq).
      rewrite mark_done_well_formed in Hidem
        by (rewrite Hcs; apply marked_state_well_formed).
      rewrite Hcs in Hidem. subst fs1.
      rewrite insert_insert_eq in Hidem.
      injection Hidem as Hidem.
      apply (f_equal (λ m : state_files, pending_of <$> m !! folder)) in Hidem.
      rewrite !lookup_insert_eq in Hidem. cbn in Hidem.
      injection Hidem as Hidem.
      rewrite !marked_state_pending in Hidem.
      apply list_remove_first_shorter in Hin. rewrite Hidem in Hin. lia.
    + destruct (classic_at_most_once f (pending_of (current_state fs folder)))
        as [?|Hnot]; [done|].
      by apply list_remove_first_twice_in in Hnot.
  - intros Hone. apply mark_done_again.
    rewrite marked_state_pending. by apply list_remove_first_gone.
Qed.

(** ** The scanner *)

Section ScanFacts.

Variable get_streams : string → Py.exn + (list string * list string).
Variable getsize : string → option Z.

(** What [scan_dir] leaves on disk: a state file that was there is
    written back as it was read; a fresh one lists all videos as
    pending. *)
Lemma scan_dir_store (dirpath : string) (dir_files : list string) (fs : state_files) :
  (scan_dir get_streams getsize dirpath dir_files fs).1 =
  match filter is_video dir_files, fs !! dirpath with
  | [], _ => fs
  | _ :: _, Some _ => fs
  | _ :: _, None =>
      <[dirpath := {[ "finished" := []; "pending" := filter is_video dir_files ]}]> fs
  end.
Proof.
  unfold scan_dir.
  destruct (filter is_video dir_files) as [|first videos] eqn:Hv; [reflexivity|].
  destruct (fs !! dirpath) as [st|] eqn:Hst.
  - destruct (get_streams _) as [e|[subs audios]]; cbn; by apply insert_id.
  - destruct (get_streams _) as [e|[subs audios]]; reflexivity.
Qed.

(** What [scan_dir] puts in the registry. *)
Lemma scan_dir_item (dirpath : string) (dir_files : list string) (fs : state_files)
    (item : work_item) :
  (scan_dir get_streams getsize dirpath dir_files fs).2 = inr (Some item) →
  match fs !! dirpath with
  | Some st =>
      done item = finished_of st
      ∧ files item =
        match pending_of st with
        | [] => filter (λ f, f ∉ finished_of st) (filter is_video dir_files)
        | _ :: _ => pending_of st
        end
  | None => done item = [] ∧ files item = filter is_video dir_files
  end.
Proof.
  unfold scan_dir.
  destruct (filter is_video dir_files) as [|first videos] eqn:Hv; [discriminate|].
  destruct (fs !! dirpath) as [st|] eqn:Hst.
  - destruct (get_streams _) as [e|[subs audios]]; [discriminate|].
    cbn. intros [= <-]. cbn. split; reflexivity.
  - destruct (get_streams _) as [e|[subs audios]]; [discriminate|].
    cbn. intros [= <-]. cbn. split; reflexivity.
Qed.

(** [scan_dir] returns an entry whenever the directory has a video and
    the stream probe of its first video does not raise. *)
Lemma scan_dir_returns (dirpath : string) (dir_files : list string) (fs : state_files)
    (first : string) (videos subs audios : list string) :
  filter is_video dir_files = first :: videos →
  get_streams (Py.path_join dirpath first) = inr (subs, audios) →
  ∃ item, (scan_dir get_streams getsize dirpath dir_files fs).2 = inr (Some item).
Proof.
  intros Hv Hprobe. unfold scan_dir. rewrite Hv.
  destruct (fs !! dirpath) as [st|]; rewrite Hprobe; cbn; eauto.
Qed.

End ScanFacts.

(** ** Disjointness *)

Lemma current_state_ok (fs : state_files) (folder : string) :
  store_ok fs → state_ok (current_state fs folder).
Proof.
  intros Hok. unfold current_state.
  destruct (fs !! folder) as [st|] eqn:Hst; [by eapply Hok|].
  split; [constructor|]. intros x Hx. inversion Hx.
Qed.

Lemma marked_state_ok (f : string) (st : state) :
  state_ok st → state_ok (marked_state f st).
Proof.
  intros [Hnd Hdisj]. unfold state_ok.
  rewrite marked_state_finished, marked_state_pending.
  split; [by apply list_remove_first_NoDup|].
  intros x Hx Hpen.
  assert (x ∈ finished_of st ∨ x = f) as [Hfin| ->].
  { case_bool_decide; [by left|].
    apply elem_of_app in Hx as [?|Hx]; [by left|].
    right. by apply list_elem_of_singleton in Hx. }
  - eapply Hdisj; [exact Hfin|]. eapply list_remove_first_subseteq, Hpen.
  - eapply list_remove_first_gone; [|exact Hpen]. by apply NoDup_at_most_once.
Qed.

Lemma mark_done_store_ok (fs fs' : state_files) (folder f : string) :
  store_ok fs → mark_done fs folder f = inr fs' → store_ok fs'.
Proof.
  intros Hok Hmd.
  pose proof (mark_done_inr_well_formed _ _ _ _ Hmd) as Hwf.
  rewrite mark_done_well_formed in Hmd by exact Hwf.
  injection Hmd as <-.
  intros folder' st'. destruct (decide (folder = folder')) as [<-|Hne].
  - rewrite lookup_insert_eq. intros [= <-].
    by apply marked_state_ok, current_state_ok.
  - rewrite lookup_insert_ne by done. apply Hok.
Qed.

Lemma scan_dir_store_ok get_streams getsize (dirpath : string) (dir_files : list string)
    (fs : state_files) :
  store_ok fs → NoDup dir_files →
  store_ok (scan_dir get_streams getsize dirpath dir_files fs).1.
Proof.
  intros Hok Hnd. rewrite scan_dir_store.
  destruct (filter is_video dir_files) as [|first videos] eqn:Hv; [done|].
  destruct (fs !! dirpath) as [st|] eqn:Hst; [done|].
  intros folder' st'. destruct (decide (dirpath = folder')) as [<-|Hne].
  - rewrite lookup_insert_eq. intros [= <-]. split.
    + unfold pending_of. rewrite lookup_insert_ne, lookup_singleton_eq by done.
      cbn. rewrite <- Hv. by apply NoDup_filter.
    + intros x Hx. unfold finished_of in Hx.
      rewrite lookup_insert_eq in Hx. inversion Hx.
  - rewrite lookup_insert_ne by done. apply Hok.
Qed.

Lemma scan_dir_item_disjoint get_streams getsize (dirpath : string)
    (dir_files : list string) (fs : state_files) (item : work_item) :
  store_ok fs →
  (scan_dir get_streams getsize dirpath dir_files fs).2 = inr (Some item) →
  disjoint_lists (done item) (files item).
Proof.
  intros Hok Hitem. apply scan_dir_item in Hitem.
  destruct (fs !! dirpath) as [st|] eqn:Hst.
  - destruct Hitem as [-> ->]. destruct (Hok _ _ Hst) as [_ Hdisj].
    destruct (pending_of st) as [|p pen] eqn:Hpen; [|exact Hdisj].
    intros x Hx (Hnot & _)%list_elem_of_filter. by apply Hnot.
  - destruct Hitem as [-> _]. intros x Hx. inversion Hx.
Qed.

Lemma dict_set_elem_of {V} (k k' : string) (v v' : V) (d : list (string * V)) :
  (k', v') ∈ dict_set k v d → (k', v') = (k, v) ∨ (k', v') ∈ d.
Proof.
  induction d as [|[k0 v0] d IH]; cbn.
  - intros ->%list_elem_of_singleton. by left.
  - destruct (decide (k = k0)) as [->|Hne]; rewrite !elem_of_cons; intuition.
Qed.

Lemma scan_walk_ok get_streams getsize (walk : list (string * list string))
    (fs : state_files) (acc : list (string * work_item)) :
  store_ok fs →
  Forall (λ entry : string * list string, NoDup entry.2) walk →
  (∀ folder item, (folder, item) ∈ acc → disjoint_lists (done item) (files item)) →
  store_ok (scan_walk get_streams getsize walk fs acc).1
  ∧ ∀ folders folder item,
      (scan_walk get_streams getsize walk fs acc).2 = inr folders →
      (folder, item) ∈ folders → disjoint_lists (done item) (files item).
Proof.
  intros Hok Hwalk. revert fs acc Hok.
  induction Hwalk as [|[dirpath dir_files] walk Hnd Hwalk IH]; intros fs acc Hok Hacc.
  - cbn. split; [done|]. intros folders folder item [= <-]. apply Hacc.
  - cbn [scan_walk].
    pose proof (scan_dir_store_ok get_streams getsize dirpath dir_files fs Hok Hnd) as Hok'.
    pose proof (scan_dir_item_disjoint get_streams getsize dirpath dir_files fs) as Hitem.
    destruct (scan_dir get_streams getsize dirpath dir_files fs) as [fs' [e|[item|]]];
      cbn [fst snd] in *.
    + split; [done|]. discriminate.
    + apply IH; [done|]. intros folder item' [[= -> ->]|Hin]%dict_set_elem_of.
      * by apply Hitem.
      * by eapply Hacc.
    + by apply IH.
Qed.

(** ** Reconciliation on load *)

Lemma scan_folders_single_store get_streams getsize (dirpath : string)
    (dir_files : list string) (fs : state_files) :
  (scan_folders get_streams getsize [(dirpath, dir_files)] fs).1 =
  (scan_dir get_streams getsize dirpath dir_files fs).1.
Proof.
  unfold scan_folders. cbn [scan_walk].
  by destruct (scan_dir get_streams getsize dirpath dir_files fs) as [fs' [e|[item|]]].
Qed.

Lemma scan_folders_single_item get_streams getsize (dirpath : string)
    (dir_files : list string) (fs : state_files) (item : work_item) :
  (scan_dir get_streams getsize dirpath dir_files fs).2 = inr (Some item) →
  (scan_folders get_streams getsize [(dirpath, dir_files)] fs).2 = inr [(dirpath, item)].
Proof.
  unfold scan_folders. cbn [scan_walk].
  destruct (scan_dir get_streams getsize dirpath dir_files fs) as [fs' [e|[item'|]]];
    cbn; congruence.
Qed.




(** C2 fails on the code (the state read from an existing file is written
    back as read, the recomputed [pending] only goes to the registry):
    scanning folder [X] with videos [a], [b], [c] and a state file holding
    [finished = [a]], [pending = []] leaves that file unchanged, with the
    stale empty [pending], while the registry entry, when one is built,
    has [b] and [c] pending. *)
Theorem scan_writes_back_stale_pending get_streams getsize :
  let result := scan_folders get_streams getsize [("X", listing_abc)] store_a_finished in
  result.1 = store_a_finished
  ∧ pending_of <$> result.1 !! "X" = Some []
  ∧ ∀ item, result.2 = inr [("X", item)] → files item = ["b.mkv"; "c.mkv"].
Proof.
  cbn zeta. rewrite scan_folders_single_store, scan_dir_store.
  change (filter is_video listing_abc) with ["a.mkv"; "b.mkv"; "c.mkv"].
  change (store_a_finished !! "X")
    with (Some ({[ "finished" := ["a.mkv"]; "pending" := [] ]} : state)).
  split; [reflexivity|]. split; [reflexivity|].
  intros item Hitem.
  unfold scan_folders in Hitem. cbn [scan_walk] in Hitem.
  pose proof (scan_dir_item get_streams getsize "X" listing_abc store_a_finished) as Hspec.
  destruct (scan_dir get_streams getsize "X" listing_abc store_a_finished)
    as [fs' [e|[item'|]]]; cbn in Hitem; try discriminate.
  injection Hitem as ->.
  specialize (Hspec item eq_refl).
  change (store_a_finished !! "X")
    with (Some ({[ "finished" := ["a.mkv"]; "pending" := [] ]} : state)) in Hspec.
  destruct Hspec as [_ ->]. reflexivity.
Qed.

(** ** One file of the batch *)

Lemma invoked_app (tr1 tr2 : list event) :
  invoked (tr1 ++ tr2) = invoked tr1 ++ invoked tr2.
Proof.
  induction tr1 as [|[] tr1 IH]; cbn; [reflexivity|..]; by rewrite ?IH.
Qed.

Lemma marked_app (tr1 tr2 : list event) :
  marked (tr1 ++ tr2) = marked tr1 ++ marked tr2.
Proof.
  induction tr1 as [|[] tr1 IH]; cbn; [reflexivity|..]; by rewrite ?IH.
Qed.

Lemma global_percents_app (tr1 tr2 : list event) :
  global_percents (tr1 ++ tr2) = global_percents tr1 ++ global_percents tr2.
Proof.
  induction tr1 as [|[] tr1 IH]; cbn; [reflexivity|..]; by rewrite ?IH.
Qed.

(** Case analysis on everything one iteration branches on. *)
Ltac file_cases data env w folder f :=
  unfold process_file, extract_step, subtitles_kept, chosen_encoder, initial_vf;
  destruct (has_index (stream_index (selected_sub data))) eqn:Hidx;
  destruct (extract env) as [extract_exn|extract_rc extract_out] eqn:Hextract;
  destruct (burn env) as [burn_exn|burn_rc burn_out] eqn:Hburn;
  destruct (mark_done (store w) folder f) as [mark_exn|fs'] eqn:Hmark;
  destruct (input_is_10bit env) eqn:Hbit;
  cbn [fst snd andb invoked marked global_percents app store disk].

Lemma process_file_no_progress (best265 best264 folder outfolder : string)
    (data : work_item) (f : string) (env : file_env) (w : world) :
  global_percents (process_file best265 best264 folder outfolder data f env w).2 = [].
Proof. file_cases data env w folder f; reflexivity. Qed.

(** ** The state files during a run *)

Lemma process_file_store (best265 best264 folder outfolder : string)
    (data : work_item) (f : string) (env : file_env) (w : world) :
  store (process_file best265 best264 folder outfolder data f env w).1 = store w
  ∨ mark_done (store w) folder f
    = inr (store (process_file best265 best264 folder outfolder data f env w).1).
Proof. file_cases data env w folder f; auto. Qed.

Lemma process_files_store_ok (round : Q → Q) (envs : nat → file_env)
    (best265 best264 folder outfolder : string) (data : work_item)
    (num_files total_tasks : nat) (fs : list string)
    (processed completed : nat) (w : world) :
  store_ok (store w) →
  store_ok (store (process_files round envs best265 best264 folder outfolder data
                     num_files total_tasks fs processed completed w).1.1).
Proof.
  revert processed completed w.
  induction fs as [|f fs IH]; intros processed completed w Hok; [exact Hok|].
  cbn [process_files].
  pose proof (process_file_store best265 best264 folder outfolder data f
                (envs completed) w) as Hstore.
  destruct (process_file _ _ _ _ _ _ _ _) as [w1 ev]. cbn [fst] in Hstore.
  specialize (IH (S processed) (S completed) w1).
  destruct (process_files _ _ _ _ _ _ _ _ _ _ _ _ _) as [[w2 c2] ev'].
  cbn [fst] in *. apply IH.
  destruct Hstore as [->|Hmark]; [exact Hok|].
  by eapply mark_done_store_ok.
Qed.

Lemma process_folders_store_ok (round : Q → Q) (envs : nat → file_env)
    (best265 best264 : string) (total_tasks : nat)
    (folders : list (string * work_item)) (completed : nat) (w : world) :
  store_ok (store w) →
  store_ok (store (process_folders round envs best265 best264 total_tasks
                     folders completed w).1.1).
Proof.
  revert completed w.
  induction folders as [|[folder data] folders IH]; intros completed w Hok; [exact Hok|].
  cbn [process_folders].
  destruct (files data) as [|f fs] eqn:Hfiles; [by apply IH|].
  pose proof (process_files_store_ok round envs best265 best264 folder
                (folder +:+ "-burned") data (length (f :: fs)) total_tasks
                (f :: fs) 0 completed w Hok) as Hok1.
  destruct (process_files _ _ _ _ _ _ _ _ _ _ _ _ _) as [[w1 c1] ev].
  specialize (IH c1 w1 Hok1).
  destruct (process_folders _ _ _ _ _ _ _ _) as [[w2 c2] ev'].
  exact IH.
Qed.

Lemma run_store_ok (round : Q → Q) (envs : nat → file_env) (enc_list : encoders)
    (folders : list (string * work_item)) (w : world) :
  store_ok (store w) → store_ok (store (run round envs enc_list folders w).1).
Proof.
  intros Hok. unfold run.
  destruct (pick_best_encoder enc_list) as [[bestav1 b265] b264].
  destruct folders as [|entry folders]; [exact Hok|].
  pose proof (process_folders_store_ok round envs b265 b264
                (count_tasks (entry :: folders)) (entry :: folders) 0 w Hok) as Hok'.
  destruct (process_folders _ _ _ _ _ _ _ _) as [[w' c'] ev]. exact Hok'.
Qed.

(** ** Disjointness across scans, marks and runs *)

Lemma reachable_store_ok (fs : state_files) : reachable fs → store_ok fs.
Proof.
  induction 1 as [|get_streams getsize walk fs Hreach IH Hwalk
                  |folder f fs fs' Hreach IH Hmd
                  |round envs enc_list folders fs d Hreach IH].
  - intros folder st Hst. by rewrite lookup_empty in Hst.
  - apply scan_walk_ok; [done..|]. intros folder item Hin. inversion Hin.
  - by eapply mark_done_store_ok.
  - by apply run_store_ok.
Qed.

(** C5: in every state the program reaches from a tree without state
    files by scanning, by calls of [mark_done] and by batch runs, each
    state file has disjoint [finished] and [pending] lists, and so has
    each registry entry that a scan at that point builds. *)
Theorem finished_pending_disjoint (fs : state_files) :
  reachable fs →
  (∀ folder st, fs !! folder = Some st →
     disjoint_lists (finished_of st) (pending_of st))
  ∧ (∀ get_streams getsize walk folders folder item,
       Forall (λ entry : string * list string, NoDup entry.2) walk →
       (scan_folders get_streams getsize walk fs).2 = inr folders →
       (folder, item) ∈ folders →
       disjoint_lists (done item) (files item)).
Proof.
  intros Hok%reachable_store_ok. split.
  - intros folder st Hst. by destruct (Hok _ _ Hst).
  - intros get_streams getsize walk folders folder item Hwalk Hscan Hin.
    eapply (scan_walk_ok get_streams getsize walk fs []); eauto.
    intros ? ? Hnil. inversion Hnil.
Qed.

Lemma finished_pending_disjoint_witness :
  reachable store_a_done
  ∧ ∀ folder st, store_a_done !! folder = Some st →
      disjoint_lists (finished_of st) (pending_of st).
Proof.
  assert (reachable store_a_done) as Hreach.
  { apply (reachable_mark_done "X" "a.mkv" store_ab); [|vm_compute; reflexivity].
    change store_ab
      with (scan_folders no_streams no_sizes [("X", listing_ab)] ∅).1.
    apply reachable_scan; [apply reachable_fresh|].
    repeat constructor; cbn; rewrite ?elem_of_cons, ?elem_of_nil;
      intuition discriminate. }
  split; [exact Hreach|].
  apply (finished_pending_disjoint store_a_done Hreach).
Defined.

(** The last command of an iteration is the burn command, built from the
    bit depth and from what the subtitle step left of the filter. *)
Lemma burn_command_invoked (best265 best264 folder outfolder : string)
    (data : work_item) (f : string) (env : file_env) (w : world) :
  last (invoked (process_file best265 best264 folder outfolder data f env w).2)
  = Some (burn_cmd (input_path folder f) (stream_index (selected_audio data))
            (if subtitles_kept data env then initial_vf env else "")
            (chosen_encoder best265 best264 env)
            (output_path outfolder f)).
Proof. file_cases data env w folder f; reflexivity. Qed.





(** ** Routing of 12-bit input *)




(** ** Failure of the burn step *)

(** When [subprocess.run] itself raises for the burn command, the error is
    logged, [mark_done] is not called and the state files stay as they
    were. *)
Lemma burn_raised_not_marked (best265 best264 folder outfolder : string)
    (data : work_item) (f : string) (env : file_env) (w : world) (e : Py.exn) :
  burn env = Raised e →
  let result := process_file best265 best264 folder outfolder data f env w in
  marked result.2 = []
  ∧ store result.1 = store w
  ∧ last result.2 = Some (Log ("Error burning " +:+ f +:+ ": " +:+ Py.exn_str e)).
Proof.
  intros Hraised. cbn zeta.
  file_cases data env w folder f; simplify_eq; repeat split; reflexivity.
Qed.

(** C1 fails on the code: the burn call has neither [check=True] nor a
    timeout, so when ffmpeg exits with a nonzero code the call returns,
    nothing is logged as an error, and [mark_done] runs: the trace ends
    with the burn command, its logged output and the [mark_done] call,
    and the file is finished in the state file. *)
Theorem burn_exit_code_ignored (best265 best264 folder outfolder : string)
    (data : work_item) (f : string) (env : file_env) (w : world)
    (rc : Z) (out : string) :
  burn env = Completed rc out →
  rc ≠ 0%Z →
  well_formed (current_state (store w) folder) →
  let result := process_file best265 best264 folder outfolder data f env w in
  marked result.2 = [(folder, f)]
  ∧ (∃ pre cmd,
       result.2 = pre ++ [Invoke cmd (Completed rc out); Log out; CallMarkDone folder f])
  ∧ ∃ st, store result.1 !! folder = Some st
          ∧ f ∈ finished_of st
          ∧ pending_of st = list_remove_first f (pending_of (current_state (store w) folder)).
Proof.
  intros Hburned Hrc Hwf. cbn zeta.
  pose proof (mark_done_well_formed (store w) folder f Hwf) as Hdone.
  file_cases data env w folder f; simplify_eq;
    (split; [reflexivity|]);
    (split;
     [|eexists; split; [apply lookup_insert_eq|];
       split; [apply marked_state_finished_in|apply marked_state_pending]]).
  all: try (eexists [_; _; _; _], _; reflexivity).
  all: eexists [_; _], _; reflexivity.
Qed.

Lemma burn_exit_code_ignored_witness :
  (burn env_burn_fails = Completed 1 "Conversion failed!" ∧ 1%Z ≠ 0%Z)
  ∧ ∃ st,
      store (process_file "libx265" "libx264" "X" "X-burned"
               data_jpn "a.mkv" env_burn_fails world_ab).1 !! "X" = Some st
      ∧ "a.mkv" ∈ finished_of st
      ∧ pending_of st = ["b.mkv"].
Proof.
  split; [split; [reflexivity|discriminate]|].
  destruct (burn_exit_code_ignored "libx265" "libx264" "X" "X-burned"
              data_jpn "a.mkv" env_burn_fails world_ab 1 "Conversion failed!")
    as (_ & _ & st & Hst & Hfin & Hpen).
  - reflexivity.
  - discriminate.
  - split; eexists; vm_compute; reflexivity.
  - exists st. split; [exact Hst|]. split; [exact Hfin|].
    rewrite Hpen. vm_compute. reflexivity.
Defined.

(** ** Failure of the subtitle extraction *)

Lemma sidecar_is_not_output (folder f : string) (env : file_env) :
  subtitle_path folder env ≠ output_path (folder +:+ "-burned") f.
Proof.
  unfold subtitle_path, output_path, subname_of.
  destruct (path_join_suffix folder ("subs" +:+ random_value env +:+ ".ass")) as [p1 ->].
  destruct (path_join_suffix (folder +:+ "-burned")
              (Py.splitext_root f +:+ "-burned.mp4")) as [p2 ->].
  change "-burned.mp4" with ("-burned" +:+ ".mp4").
  rewrite <- !append_assoc. intros H.
  apply append_suffix_inj in H; [discriminate H|reflexivity].
Qed.

Lemma remove_if_exists_gone (p : string) (d : gset string) :
  p ∉ remove_if_exists p d.
Proof.
  unfold remove_if_exists. case_bool_decide; [|done].
  rewrite elem_of_difference, elem_of_singleton. tauto.
Qed.

Lemma wrote_other (created : bool) (p q : string) (d : gset string) :
  p ≠ q → p ∉ d → p ∉ wrote created q d.
Proof.
  unfold wrote. destruct created; [|done].
  rewrite elem_of_union, elem_of_singleton. tauto.
Qed.

Lemma wrote_created (p : string) (d : gset string) : p ∈ wrote true p d.
Proof. unfold wrote. apply elem_of_union_l, elem_of_singleton. reflexivity. Qed.

(** C9: when a subtitle track is selected and its extraction raises, the
    failure is logged, the burn command is still run, on the same input
    and output and without any filter, the sidecar file is not on disk
    when the file is done, the output is there if ffmpeg wrote it, and the
    loop goes on with the remaining files. *)
Theorem extraction_failure_still_burns (round : Q → Q) (envs : nat → file_env)
    (best265 best264 folder : string) (data : work_item) (f : string)
    (rest : list string) (num_files total_tasks processed completed : nat)
    (w : world) (e : Py.exn) :
  has_index (stream_index (selected_sub data)) = true →
  extract (envs completed) = Raised e →
  let env := envs completed in
  let outfolder := folder +:+ "-burned" in
  let result := process_file best265 best264 folder outfolder data f env w in
  Log ("Failed to extract subtitle for " +:+ f +:+ ": " +:+ Py.exn_str e) ∈ result.2
  ∧ last (invoked result.2)
    = Some (["ffmpeg"; "-y"; "-hwaccel"; "auto"; "-i"; input_path folder f;
             "-map"; "0:v:0"]
            ++ (if has_index (stream_index (selected_audio data))
                then ["-map"; stream_map (stream_index (selected_audio data))]
                else ["-map"; "0:a?"])
            ++ ["-c:v"; chosen_encoder best265 best264 env; "-c:a"; "copy";
                output_path outfolder f])
  ∧ (subtitle_path folder env ∉ disk result.1)
  ∧ (burn_wrote env = true → output_path outfolder f ∈ disk result.1)
  ∧ ∃ progress,
      process_files round envs best265 best264 folder outfolder data
        num_files total_tasks (f :: rest) processed completed w
      = let '(w', completed', tr) :=
          process_files round envs best265 best264 folder outfolder data
            num_files total_tasks rest (S processed) (S completed) result.1 in
        (w', completed', result.2 ++ progress ++ tr).
Proof.
  intros Hidx Hraised. cbn zeta.
  split; [|split; [|split; [|split]]].
  - unfold process_file, extract_step. rewrite Hidx, Hraised.
    destruct (burn (envs completed)); [|destruct (mark_done _ _ _)]; cbn [snd];
      apply elem_of_app; right; apply elem_of_app; left;
      rewrite !elem_of_cons; tauto.
  - rewrite burn_command_invoked.
    unfold subtitles_kept. rewrite Hidx, Hraised. reflexivity.
  - pose proof (sidecar_is_not_output folder f (envs completed)) as Hne.
    pose proof (remove_if_exists_gone (subtitle_path folder (envs completed))
                  (wrote (extract_wrote (envs completed))
                     (subtitle_path folder (envs completed)) (disk w))) as Hgone.
    unfold process_file, extract_step. rewrite Hidx, Hraised.
    destruct (burn (envs completed)); [|destruct (mark_done _ _ _)]; cbn [fst disk];
      by apply wrote_other.
  - intros Hwrote.
    unfold process_file, extract_step. rewrite Hidx, Hraised, Hwrote.
    destruct (burn (envs completed)); [|destruct (mark_done _ _ _)]; cbn [fst disk];
      apply wrote_created.
  - eexists. cbn [process_files].
    destruct (process_file _ _ _ _ _ _ _ _) as [w1 ev]. cbn [fst snd].
    destruct (process_files _ _ _ _ _ _ _ _ _ _ _ _ _) as [[w2 c2] ev']. reflexivity.
Qed.

Lemma extraction_failure_still_burns_witness :
  (has_index (stream_index (selected_sub data_jpn)) = true
   ∧ extract env_extract_raises
     = Raised (Py.OtherError "'utf-8' codec can't decode byte 0xff"))
  ∧ last (invoked (process_file "libx265" "libx264" "X" "X-burned"
                     data_jpn "a.mkv" env_extract_raises world_ab).2)
    = Some ["ffmpeg"; "-y"; "-hwaccel"; "auto"; "-i"; "X/a.mkv";
            "-map"; "0:v:0"; "-map"; "0:1";
            "-c:v"; "libx264"; "-c:a"; "copy"; "X-burned/a-burned.mp4"]
  ∧ ("X/subs0.5.ass" ∉ disk (process_file "libx265" "libx264" "X" "X-burned"
                               data_jpn "a.mkv" env_extract_raises world_ab).1)
  ∧ "X-burned/a-burned.mp4" ∈ disk (process_file "libx265" "libx264" "X" "X-burned"
                                      data_jpn "a.mkv" env_extract_raises world_ab).1.
Proof.
  split; [split; reflexivity|].
  destruct (extraction_failure_still_burns (λ q, q) (λ _, env_extract_raises)
              "libx265" "libx264" "X" data_jpn "a.mkv" ["b.mkv"] 2 2 0 0 world_ab
              (Py.OtherError "'utf-8' codec can't decode byte 0xff")
              eq_refl eq_refl)
    as (_ & Hcmd & Hsidecar & Houtput & _).
  split; [exact Hcmd|]. split; [exact Hsidecar|]. exact (Houtput eq_refl).
Defined.

(** ** Progress *)

Lemma global_percent_zero_total (round : Q → Q) (completed_tasks : nat) :
  global_percent round completed_tasks 0 = 100%Q.
Proof. reflexivity. Qed.

Lemma folder_percent_zero_files (round : Q → Q) (processed_in_folder : nat) :
  folder_percent round processed_in_folder 0 = 100%Q.
Proof. reflexivity. Qed.

Lemma count_tasks_cons (folder : string) (data : work_item)
    (folders : list (string * work_item)) :
  count_tasks ((folder, data) :: folders)
  = (length (files data) + count_tasks folders)%nat.
Proof. reflexivity. Qed.

Section ProgressFacts.

Variable round : Q → Q.
Variable envs : nat → file_env.

(** Every file of a folder, whatever happens to it, adds one to
    [completed_tasks] and reports the new global percentage. *)
Lemma process_files_progress (best265 best264 folder outfolder : string)
    (data : work_item) (num_files total_tasks : nat) (fs : list string)
    (processed completed : nat) (w : world) :
  let result :=
    process_files round envs best265 best264 folder outfolder data
      num_files total_tasks fs processed completed w in
  result.1.2 = (completed + length fs)%nat
  ∧ global_percents result.2
    = (λ k, global_percent round k total_tasks) <$> seq (S completed) (length fs).
Proof.
  cbn zeta. revert processed completed w.
  induction fs as [|f fs IH]; intros processed completed w.
  - cbn. split; [lia|reflexivity].
  - cbn [process_files].
    pose proof (process_file_no_progress best265 best264 folder outfolder data f
                  (envs completed) w) as Hnone.
    destruct (process_file _ _ _ _ _ _ _ _) as [w1 ev]. cbn [snd] in Hnone.
    specialize (IH (S processed) (S completed) w1).
    destruct (process_files _ _ _ _ _ _ _ _ _ _ _ _ _) as [[w2 c2] ev'].
    cbn [fst snd] in *. destruct IH as [-> IH]. split; [cbn; lia|].
    rewrite global_percents_app, Hnone.
    cbn [app global_percents length seq fmap list_fmap].
    by rewrite IH.
Qed.

Lemma process_folders_progress (best265 best264 : string) (total_tasks : nat)
    (folders : list (string * work_item)) (completed : nat) (w : world) :
  let result :=
    process_folders round envs best265 best264 total_tasks folders completed w in
  result.1.2 = (completed + count_tasks folders)%nat
  ∧ global_percents result.2
    = (λ k, global_percent round k total_tasks)
        <$> seq (S completed) (count_tasks folders).
Proof.
  cbn zeta. revert completed w.
  induction folders as [|[folder data] folders IH]; intros completed w.
  - unfold count_tasks. cbn. split; [lia|reflexivity].
  - rewrite count_tasks_cons. cbn [process_folders].
    destruct (files data) as [|f fs] eqn:Hfiles.
    + cbn [length plus]. apply IH.
    + pose proof (process_files_progress best265 best264 folder
                    (folder +:+ "-burned") data
                    (length (f :: fs)) total_tasks (f :: fs) 0 completed w) as Hfiles'.
      cbn zeta in Hfiles'.
      destruct (process_files _ _ _ _ _ _ _ _ _ _ _ _ _) as [[w1 c1] ev].
      cbn [fst snd] in Hfiles'. destruct Hfiles' as [-> Hev].
      specialize (IH (completed + length (f :: fs))%nat w1).
      destruct (process_folders _ _ _ _ _ _ _ _) as [[w2 c2] ev'].
      cbn [fst snd] in *. destruct IH as [-> IH]. split; [lia|].
      cbn [global_percents]. rewrite global_percents_app. cbn [global_percents].
      rewrite Hev, IH, seq_app, fmap_app. reflexivity.
Qed.

Lemma run_progress (enc_list : encoders) (folders : list (string * work_item))
    (w : world) :
  folders ≠ [] →
  global_percents (run round envs enc_list folders w).2
  = ((λ k, global_percent round k (count_tasks folders))
       <$> seq 1 (count_tasks folders)) ++ [100%Q].
Proof.
  intros Hne. unfold run.
  destruct (pick_best_encoder enc_list) as [[bestav1 b265] b264].
  destruct folders as [|entry folders]; [done|].
  pose proof (process_folders_progress b265 b264
                (count_tasks (entry :: folders)) (entry :: folders) 0 w) as Hp.
  cbn zeta in Hp.
  destruct (process_folders _ _ _ _ _ _ _ _) as [[w' c'] ev].
  cbn [fst snd] in *. destruct Hp as [_ Hp].
  rewrite global_percents_app, Hp. reflexivity.
Qed.

End ProgressFacts.

Section RoundedProgress.

(** What the argument needs of the rounding of double arithmetic: it is
    monotone and leaves 1 and 100, which are doubles, as they are. *)
Variable round : Q → Q.
Hypothesis round_monotone : ∀ x y, (x <= y)%Q → (round x <= round y)%Q.
Hypothesis round_one : (round 1 == 1)%Q.
Hypothesis round_hundred : (round 100 == 100)%Q.

Lemma round_proper (x y : Q) : (x == y)%Q → (round x == round y)%Q.
Proof.
  intros Hxy. apply Qle_antisym; apply round_monotone; rewrite Hxy; apply Qle_refl.
Qed.

Lemma global_percent_monotone (total j k : nat) :
  (0 < total)%nat → (j ≤ k)%nat →
  (global_percent round j total <= global_percent round k total)%Q.
Proof.
  intros Htotal Hjk. unfold global_percent, float_mul, true_div.
  destruct (Nat.eqb_spec total 0) as [->|_]; [lia|].
  apply round_monotone, Qmult_le_compat_r; [|discriminate].
  apply round_monotone. unfold Qdiv. apply Qmult_le_compat_r.
  - rewrite <- Zle_Qle. lia.
  - apply Qinv_le_0_compat. change 0%Q with (inject_Z 0).
    rewrite <- Zle_Qle. lia.
Qed.

Lemma global_percent_complete (total : nat) :
  (0 < total)%nat → (global_percent round total total == 100)%Q.
Proof.
  intros Htotal. unfold global_percent, float_mul, true_div.
  destruct (Nat.eqb_spec total 0) as [->|_]; [lia|].
  transitivity (round 100); [apply round_proper|exact round_hundred].
  transitivity (1 * 100)%Q; [|apply Qmult_1_l].
  apply Qmult_comp; [|reflexivity].
  transitivity (round 1); [apply round_proper|exact round_one].
  apply Qmult_inv_r. change 0%Q with (inject_Z 0).
  rewrite inject_Z_injective. lia.
Qed.

Lemma percents_lookup (total i : nat) (x : Q) :
  ((λ k, global_percent round k total) <$> seq 1 total) !! i = Some x →
  (i < total)%nat ∧ x = global_percent round (S i) total.
Proof.
  rewrite list_lookup_fmap. intros Hx.
  destruct (seq 1 total !! i) as [k|] eqn:Hk; [|discriminate].
  apply lookup_seq in Hk as [-> Hlt]. injection Hx as <-. by split.
Qed.

(** C8: in a run with [N > 0] tasks, the global percentages reported are
    those of 1, 2, ..., N completed tasks, one per processed file
    whatever its outcome, followed by a final 100; they never decrease,
    the one reported after the last file is 100 already, and both
    percentage formulas give 100 when their denominator is 0. *)
Theorem global_progress_monotone (envs : nat → file_env) (enc_list : encoders)
    (folders : list (string * work_item)) (w : world) :
  (0 < count_tasks folders)%nat →
  let total := count_tasks folders in
  let percents := global_percents (run round envs enc_list folders w).2 in
  percents = ((λ k, global_percent round k total) <$> seq 1 total) ++ [100%Q]
  ∧ nondecreasing percents
  ∧ last percents = Some 100%Q
  ∧ percents !! (total - 1)%nat = Some (global_percent round total total)
  ∧ (global_percent round total total == 100)%Q
  ∧ (∀ processed, folder_percent round processed 0 = 100%Q)
  ∧ (∀ completed, global_percent round completed 0 = 100%Q).
Proof.
  intros Htotal total percents.
  assert (percents = ((λ k, global_percent round k total) <$> seq 1 total) ++ [100%Q])
    as Hpercents.
  { apply run_progress. intros ->. unfold count_tasks in Htotal. cbn in Htotal. lia. }
  assert (length ((λ k, global_percent round k total) <$> seq 1 total) = total)
    as Hlen by (by rewrite length_fmap, length_seq).
  split; [exact Hpercents|]. rewrite Hpercents.
  split; [|split; [|split; [|split; [|split]]]].
  - intros i j x y Hij Hi Hj.
    apply lookup_app_Some in Hj as [Hj|[Hge Hj]].
    + apply percents_lookup in Hj as [Hjlt ->].
      rewrite lookup_app_l in Hi by lia.
      apply percents_lookup in Hi as [Hilt ->].
      apply global_percent_monotone; [done|lia].
    + apply list_lookup_singleton_Some in Hj as [_ <-].
      apply lookup_app_Some in Hi as [Hi|[_ Hi]].
      * apply percents_lookup in Hi as [Hilt ->].
        rewrite <- (global_percent_complete total Htotal).
        apply global_percent_monotone; [done|lia].
      * apply list_lookup_singleton_Some in Hi as [_ <-]. apply Qle_refl.
  - apply last_snoc.
  - rewrite lookup_app_l by lia.
    rewrite list_lookup_fmap, lookup_seq_lt by lia.
    cbn. do 2 f_equal. lia.
  - by apply global_percent_complete.
  - reflexivity.
  - reflexivity.
Qed.

End RoundedProgress.

Lemma global_progress_monotone_witness :
  (0 < count_tasks [("X", data_jpn)])%nat
  ∧ global_percents
      (run (λ q, q) (λ _, env_burn_fails) (EncList []) [("X", data_jpn)] world_ab).2
    = [global_percent (λ q, q) 1 2; global_percent (λ q, q) 2 2; 100%Q]
  ∧ nondecreasing
      (global_percents
         (run (λ q, q) (λ _, env_burn_fails) (EncList []) [("X", data_jpn)] world_ab).2).
Proof.
  assert (0 < count_tasks [("X", data_jpn)])%nat as Htotal by (vm_compute; lia).
  split; [exact Htotal|].
  destruct (global_progress_monotone (λ q, q)
              (λ x y Hxy, Hxy) (Qeq_refl 1) (Qeq_refl 100)
              (λ _, env_burn_fails) (EncList []) [("X", data_jpn)] world_ab Htotal)
    as (Hpercents & Hmono & _).
  split; [exact Hpercents|exact Hmono].
Defined.

(** * Further properties *)

(** ** Encoder detection *)

Lemma dict_set_fresh {V} (k : string) (v : V) (d : list (string * V)) :
  k ∉ d.*1 → dict_set k v d = d ++ [(k, v)].
Proof.
  induction d as [|[k' v'] d IH]; cbn; [reflexivity|].
  intros [Hne Hnin]%not_elem_of_cons.
  destruct (decide (k = k')) as [|_]; [done|]. by rewrite IH.
Qed.

Lemma dict_update_fresh {V} (d other : list (string * V)) :
  NoDup (d.*1 ++ other.*1) → dict_update d other = d ++ other.
Proof.
  unfold dict_update. revert d.
  induction other as [|[k v] other IH]; intros d Hnd; cbn [fold_left].
  - by rewrite app_nil_r.
  - cbn [fmap list_fmap fst] in Hnd.
    pose proof Hnd as Hnd'.
    apply NoDup_app in Hnd' as (_ & Hdisj & _).
    rewrite dict_set_fresh.
    + rewrite IH; [by rewrite <- app_assoc|].
      rewrite fmap_app, <- app_assoc. exact Hnd.
    + intros Hin. apply (Hdisj k Hin). left.
Qed.

Section DetectionFacts.

Variable run_trial : list string → trial.

Lemma test_encoder_returns (enc : string) :
  (∀ e, run_trial (test_cmd enc) ≠ TrialRaised e) →
  test_encoder run_trial enc = inr (enc, trial_ok (run_trial (test_cmd enc))).
Proof.
  intros Hno. unfold test_encoder.
  destruct (run_trial (test_cmd enc)) as [[| |]| |e]; try reflexivity.
  by destruct (Hno e).
Qed.

Lemma test_group_from_returns (encoders : list string) (results : list (string * bool)) :
  (∀ enc e, enc ∈ encoders → run_trial (test_cmd enc) ≠ TrialRaised e) →
  NoDup (results.*1 ++ encoders) →
  test_group_from run_trial encoders results
  = inr (results ++ map (λ enc, (enc, trial_ok (run_trial (test_cmd enc)))) encoders).
Proof.
  revert results.
  induction encoders as [|enc encoders IH]; intros results Hno Hnd; cbn [test_group_from map].
  - by rewrite app_nil_r.
  - rewrite test_encoder_returns by (intros e; apply Hno; left).
    pose proof Hnd as Hnd'.
    apply NoDup_app in Hnd' as (_ & Hdisj & _).
    rewrite dict_set_fresh by (intros Hin; apply (Hdisj enc Hin); left).
    rewrite IH.
    + by rewrite <- app_assoc.
    + intros enc' e Hin. apply Hno. by right.
    + rewrite fmap_app, <- app_assoc. exact Hnd.
Qed.

Lemma collect_results_returns (groups : list (list string))
    (final_results : list (string * bool)) :
  (∀ enc e, enc ∈ mjoin groups → run_trial (test_cmd enc) ≠ TrialRaised e) →
  NoDup (final_results.*1 ++ mjoin groups) →
  collect_results run_trial groups final_results
  = inr (final_results
         ++ map (λ enc, (enc, trial_ok (run_trial (test_cmd enc)))) (mjoin groups)).
Proof.
  revert final_results.
  induction groups as [|group groups IH]; intros final_results Hno Hnd;
    cbn [collect_results mjoin list_join].
  - cbn. by rewrite app_nil_r.
  - cbn [mjoin list_join] in Hno, Hnd.
    assert (NoDup group) as Hgroup.
    { apply NoDup_app in Hnd as (_ & _ & Hnd). by apply NoDup_app in Hnd as (Hnd & _). }
    unfold test_group. rewrite test_group_from_returns; cbn [fmap list_fmap app];
      [|intros enc e Hin; apply Hno, elem_of_app; by left|exact Hgroup].
    rewrite dict_update_fresh.
    + rewrite IH.
      * by rewrite map_app, app_assoc.
      * intros enc e Hin. apply Hno, elem_of_app. by right.
      * rewrite fmap_app, <- app_assoc, <- list_fmap_compose.
        cbn [compose fst]. by rewrite list_fmap_id.
    + rewrite <- list_fmap_compose. cbn [compose fst]. rewrite list_fmap_id.
      rewrite app_assoc in Hnd. by apply NoDup_app in Hnd as (Hnd & _).
Qed.

Lemma filter_available (l : list string) :
  map fst (List.filter (λ entry : string * bool, entry.2)
             (map (λ enc, (enc, trial_ok (run_trial (test_cmd enc)))) l))
  = List.filter (λ enc, trial_ok (run_trial (test_cmd enc))) l.
Proof.
  induction l as [|enc l IH]; cbn; [reflexivity|].
  destruct (trial_ok _); cbn; by rewrite IH.
Qed.

Lemma candidates_NoDup : NoDup candidates.
Proof. apply (bool_decide_unpack _). vm_compute. reflexivity. Qed.

Lemma getallmyencoders_returns :
  (∀ enc e, enc ∈ candidates → run_trial (test_cmd enc) ≠ TrialRaised e) →
  getallmyencoders run_trial
  = inr (List.filter (λ enc, trial_ok (run_trial (test_cmd enc))) candidates).
Proof.
  intros Hno. unfold getallmyencoders.
  rewrite collect_results_returns; [|exact Hno|exact candidates_NoDup].
  cbn [app]. by rewrite filter_available.
Qed.

End DetectionFacts.

Lemma trial_ok_iff (t : trial) : trial_ok t = true ↔ t = TrialExit 0.
Proof.
  destruct t as [[| |]| |]; cbn; split; congruence.
Qed.

Lemma test_group_from_raises (run_trial : list string → trial) (encoders : list string)
    (results : list (string * bool)) (enc : string) (e : Py.exn) :
  enc ∈ encoders → run_trial (test_cmd enc) = TrialRaised e →
  ∃ e', test_group_from run_trial encoders results = inl e'.
Proof.
  intros Hin Hraised. revert results.
  induction encoders as [|enc0 encoders IH]; intros results; [by apply elem_of_nil in Hin|].
  cbn [test_group_from].
  destruct (test_encoder run_trial enc0) as [e0|[name available]] eqn:Htest; [eauto|].
  apply elem_of_cons in Hin as [->|Hin]; [|by apply IH].
  unfold test_encoder in Htest. rewrite Hraised in Htest. discriminate Htest.
Qed.

Lemma collect_results_raises (run_trial : list string → trial) (groups : list (list string))
    (final_results : list (string * bool)) (enc : string) (e : Py.exn) :
  enc ∈ mjoin groups → run_trial (test_cmd enc) = TrialRaised e →
  ∃ e', collect_results run_trial groups final_results = inl e'.
Proof.
  intros Hin Hraised. revert final_results.
  induction groups as [|group groups IH]; intros final_results; [by apply elem_of_nil in Hin|].
  cbn [collect_results]. cbn [mjoin list_join] in Hin.
  destruct (test_group run_trial group) as [e0|results] eqn:Hgroup; [eauto|].
  apply elem_of_app in Hin as [Hin|Hin]; [|by apply IH].
  destruct (test_group_from_raises run_trial group [] enc e Hin Hraised) as [e' He'].
  unfold test_group in Hgroup. congruence.
Qed.

(** X1: when no trial encode raises anything but a [SubprocessError],
    [getallmyencoders] returns, without repetition, exactly the candidate
    encoders whose trial exited with code 0: a nonzero exit code or a
    timeout makes an encoder unavailable, never an error. *)
Theorem getallmyencoders_available (run_trial : list string → trial) :
  (∀ enc e, enc ∈ candidates → run_trial (test_cmd enc) ≠ TrialRaised e) →
  ∃ enc_list,
    getallmyencoders run_trial = inr enc_list
    ∧ NoDup enc_list
    ∧ ∀ enc, enc ∈ enc_list ↔ enc ∈ candidates ∧ run_trial (test_cmd enc) = TrialExit 0.
Proof.
  intros Hno. eexists. split; [by apply getallmyencoders_returns|].
  split; [apply NoDup_ListNoDup, List.NoDup_filter, NoDup_ListNoDup, candidates_NoDup|].
  intros enc. rewrite <- trial_ok_iff, !list_elem_of_In, filter_In. tauto.
Qed.

Lemma getallmyencoders_available_witness :
  ∃ enc_list,
    getallmyencoders trials_qsv_amf = inr enc_list
    ∧ ∀ enc, enc ∈ enc_list ↔ enc ∈ candidates ∧ trials_qsv_amf (test_cmd enc) = TrialExit 0.
Proof.
  destruct (getallmyencoders_available trials_qsv_amf) as (l & Hl & _ & Hin).
  - intros enc e _. unfold trials_qsv_amf. repeat case_bool_decide; discriminate.
  - exists l. split; [exact Hl|exact Hin].
Defined.

Lemma available_candidate (run_trial : list string → trial) (enc : string) :
  enc ∈ candidates →
  bool_decide (enc ∈ List.filter (λ enc, trial_ok (run_trial (test_cmd enc))) candidates)
  = trial_ok (run_trial (test_cmd enc)).
Proof.
  intros Hin.
  destruct (trial_ok (run_trial (test_cmd enc))) eqn:Hok.
  - apply bool_decide_eq_true_2.
    rewrite list_elem_of_In, filter_In, <- list_elem_of_In. by split.
  - apply bool_decide_eq_false_2.
    rewrite list_elem_of_In, filter_In. intros [_ Hok']. congruence.
Qed.

(** X2: when no trial raises, the encoders [run] works with are, per
    family, the first of NVENC, QSV, AMF whose trial exited with code 0,
    and the software encoder when none did; the text listing of
    [get_available_encoders] is not consulted. *)
Theorem detected_encoder_choice (run_trial : list string → trial)
    (encoder_listing : proc_result) :
  (∀ enc e, enc ∈ candidates → run_trial (test_cmd enc) ≠ TrialRaised e) →
  ∃ enc_list,
    find_encoders run_trial encoder_listing = inr (EncList enc_list)
    ∧ pick_best_encoder (EncList enc_list)
      = (if trial_ok (run_trial (test_cmd "av1_nvenc")) then "av1_nvenc"
         else if trial_ok (run_trial (test_cmd "av1_qsv")) then "av1_qsv"
         else if trial_ok (run_trial (test_cmd "av1_amf")) then "av1_amf"
         else "libxav1",
         if trial_ok (run_trial (test_cmd "hevc_nvenc")) then "hevc_nvenc"
         else if trial_ok (run_trial (test_cmd "hevc_qsv")) then "hevc_qsv"
         else if trial_ok (run_trial (test_cmd "hevc_amf")) then "hevc_amf"
         else "libx265",
         if trial_ok (run_trial (test_cmd "h264_nvenc")) then "h264_nvenc"
         else if trial_ok (run_trial (test_cmd "h264_qsv")) then "h264_qsv"
         else if trial_ok (run_trial (test_cmd "h264_amf")) then "h264_amf"
         else "libx264").
Proof.
  intros Hno. eexists. unfold find_encoders.
  rewrite getallmyencoders_returns by exact Hno.
  split; [reflexivity|].
  unfold pick_best_encoder, py_in.
  rewrite !available_candidate; [reflexivity|..];
    unfold candidates; cbn; rewrite !elem_of_cons; tauto.
Qed.

Lemma detected_encoder_choice_witness :
  ∃ enc_list,
    find_encoders trials_qsv_amf (Raised Py.IndexError) = inr (EncList enc_list)
    ∧ pick_best_encoder (EncList enc_list) = ("libxav1", "hevc_qsv", "libx264").
Proof.
  destruct (detected_encoder_choice trials_qsv_amf (Raised Py.IndexError))
    as (l & Hl & Hbest).
  - intros enc e _. unfold trials_qsv_amf. repeat case_bool_decide; discriminate.
  - exists l. split; [exact Hl|]. rewrite Hbest. reflexivity.
Defined.

(** X3: when a trial encode raises something else (ffmpeg is missing),
    detection falls back to the text printed by [ffmpeg -encoders],
    whatever its exit code, and an exception of that call escapes; on the
    text an encoder counts as available as soon as its name occurs
    anywhere in it. *)
Theorem detection_fallback (run_trial : list string → trial)
    (encoder_listing : proc_result) (enc : string) (e : Py.exn) :
  enc ∈ candidates →
  run_trial (test_cmd enc) = TrialRaised e →
  find_encoders run_trial encoder_listing
  = match encoder_listing with
    | Completed _ stdout => inr (EncText stdout)
    | Raised e' => inl e'
    end
  ∧ ∀ name stdout, py_in name (EncText stdout) = true ↔ substring_of name stdout.
Proof.
  intros Hin Hraised. split; [|intros; apply contains_spec].
  unfold find_encoders, getallmyencoders.
  destruct (collect_results_raises run_trial (map snd codec_groups) [] enc e Hin Hraised)
    as [e' ->].
  reflexivity.
Qed.

Lemma detection_fallback_witness :
  "av1_nvenc" ∈ candidates
  ∧ find_encoders trials_no_ffmpeg (Completed 1 "V....D libx264 hevc_nvenc")
    = inr (EncText "V....D libx264 hevc_nvenc")
  ∧ (pick_best_encoder (EncText "V....D libx264 hevc_nvenc")).1.2 = "hevc_nvenc".
Proof.
  assert ("av1_nvenc" ∈ candidates) as Hin by left.
  split; [exact Hin|].
  destruct (detection_fallback trials_no_ffmpeg (Completed 1 "V....D libx264 hevc_nvenc")
              "av1_nvenc" _ Hin eq_refl) as [Hfind _].
  split; [exact Hfind|reflexivity].
Defined.

(** ** Stream descriptions and the indices read back from them *)

Lemma has_char_app (c : ascii) (a b : string) :
  has_char c (a +:+ b) = has_char c a || has_char c b.
Proof.
  induction a as [|d a IH]; [reflexivity|].
  rewrite append_cons. cbn [has_char]. rewrite IH. by rewrite orb_assoc.
Qed.

Lemma split_without_sep (sep : ascii) (s : string) :
  has_char sep s = false → Py.split sep s = [s].
Proof.
  induction s as [|d s IH]; cbn [has_char Py.split]; [reflexivity|].
  intros [Hd Hs]%orb_false_elim. rewrite Hd, (IH Hs). reflexivity.
Qed.

Lemma split_at_first_sep (sep : ascii) (a b : string) :
  has_char sep a = false →
  Py.split sep (a +:+ String sep b) = a :: Py.split sep b.
Proof.
  induction a as [|d a IH]; cbn [has_char].
  - intros _. rewrite append_nil_l. cbn [Py.split]. by rewrite Ascii.eqb_refl.
  - intros [Hd Ha]%orb_false_elim.
    rewrite append_cons. cbn [Py.split]. rewrite Hd, (IH Ha). reflexivity.
Qed.

Lemma pretty_N_char_no_colon (x : N) : Ascii.eqb (pretty_N_char x) ":" = false.
Proof. unfold pretty_N_char. by repeat case_match. Qed.

Lemma pretty_N_go_no_colon (x : N) (s : string) :
  has_char ":" (pretty_N_go x s) = has_char ":" s.
Proof.
  revert s. induction (N.lt_wf_0 x) as [x _ IH]; intros s.
  assert (x = 0 ∨ 0 < x)%N as [->|Hpos] by lia.
  - by rewrite pretty_N_go_0.
  - rewrite pretty_N_go_step by done.
    rewrite IH by (by apply N.div_lt).
    cbn [has_char]. by rewrite pretty_N_char_no_colon.
Qed.

Lemma pretty_N_go_nonempty (x : N) (s : string) :
  s ≠ "" → pretty_N_go x s ≠ "".
Proof.
  revert s. induction (N.lt_wf_0 x) as [x _ IH]; intros s Hs.
  assert (x = 0 ∨ 0 < x)%N as [->|Hpos] by lia.
  - by rewrite pretty_N_go_0.
  - rewrite pretty_N_go_step by done. apply IH; [by apply N.div_lt|discriminate].
Qed.

Lemma pretty_N_no_colon (x : N) : has_char ":" (pretty x) = false.
Proof.
  unfold pretty, pretty_N. case_decide; [reflexivity|].
  by rewrite pretty_N_go_no_colon.
Qed.

Lemma pretty_N_nonempty (x : N) : pretty x ≠ "".
Proof.
  unfold pretty, pretty_N. case_decide; [discriminate|].
  rewrite pretty_N_go_step by lia. apply pretty_N_go_nonempty. discriminate.
Qed.

Lemma pretty_Z_no_colon (z : Z) : has_char ":" (pretty z) = false.
Proof.
  destruct z as [|p|p]; [reflexivity|apply pretty_N_no_colon|].
  unfold pretty, pretty_Z. rewrite has_char_app.
  cbn [has_char orb]. apply pretty_N_no_colon.
Qed.

Lemma pretty_Z_nonempty (z : Z) : pretty z ≠ "".
Proof.
  destruct z as [|p|p]; [discriminate|apply pretty_N_nonempty|].
  unfold pretty, pretty_Z. rewrite append_cons. discriminate.
Qed.

Lemma has_index_nonempty (i : string) : i ≠ "" → has_index (Some i) = true.
Proof. intros Hi. cbn. by destruct i. Qed.

(** What [run] reads back from a description that [describe] built. *)
Lemma describe_index (s : stream) (desc : string) :
  describe s = inr desc →
  (∀ name, codec_name s = Some name → has_char ":" name = false) →
  has_char ":" (default "und" (language s)) = false →
  ∃ idx, index s = Some idx ∧ stream_index desc = Some (pretty idx).
Proof.
  unfold describe. intros Hdesc Hname Hlang.
  destruct (index s) as [idx|]; [|discriminate].
  destruct (codec_name s) as [name|]; [|discriminate].
  injection Hdesc as <-. exists idx. split; [reflexivity|].
  unfold stream_index.
  replace (name +:+ " (" +:+ default "und" (language s) +:+ "):" +:+ pretty idx)
    with ((name +:+ " (" +:+ default "und" (language s) +:+ ")")
          +:+ String ":" (pretty idx))
    by (by rewrite !append_assoc).
  rewrite split_at_first_sep.
  - by rewrite split_without_sep by apply pretty_Z_no_colon.
  - rewrite !has_char_app, (Hname name eq_refl), Hlang. reflexivity.
Qed.

(** X4: a description built from a stream whose codec name and language
    tag have no colon is parsed back by [run] to that stream's index, in
    decimal, so the command maps stream [0:<index>]. *)
Theorem descriptor_index_round_trip (s : stream) (name : string) (idx : Z) :
  codec_name s = Some name →
  index s = Some idx →
  has_char ":" name = false →
  has_char ":" (default "und" (language s)) = false →
  ∃ desc,
    describe s = inr desc
    ∧ stream_index desc = Some (pretty idx)
    ∧ has_index (stream_index desc) = true
    ∧ stream_map (stream_index desc) = "0:" +:+ pretty idx.
Proof.
  intros Hname Hidx Hcn Hlang.
  assert (∃ desc, describe s = inr desc) as [desc Hdesc].
  { unfold describe. rewrite Hidx, Hname. eauto. }
  exists desc. split; [exact Hdesc|].
  destruct (describe_index s desc Hdesc) as (idx' & Hidx' & Hparsed); [|exact Hlang|].
  { intros name' Hname'. congruence. }
  assert (idx' = idx) as -> by congruence.
  rewrite Hparsed. split; [reflexivity|].
  split; [apply has_index_nonempty, pretty_Z_nonempty|reflexivity].
Qed.

Lemma descriptor_index_round_trip_witness :
  describe {| codec_type := Some "subtitle"; index := Some 4%Z;
              codec_name := Some "ass"; language := Some "jpn" |}
  = inr "ass (jpn):4"
  ∧ stream_index "ass (jpn):4" = Some "4".
Proof.
  destruct (descriptor_index_round_trip
              {| codec_type := Some "subtitle"; index := Some 4%Z;
                 codec_name := Some "ass"; language := Some "jpn" |}
              "ass" 4 eq_refl eq_refl eq_refl eq_refl)
    as (desc & Hdesc & Hidx & _).
  assert (desc = "ass (jpn):4") as -> by (vm_compute in Hdesc; congruence).
  split; [reflexivity|]. rewrite Hidx. reflexivity.
Defined.

(** ** Partition of the probed streams *)

Lemma describe_complete (s : stream) :
  complete_stream s →
  codec_type s = Some "audio" ∨ codec_type s = Some "subtitle" →
  ∃ desc, describe s = inr desc.
Proof.
  intros [_ Hkeys] Htype. destruct (Hkeys Htype) as [[idx Hidx] [name Hname]].
  unfold describe. rewrite Hidx, Hname. eauto.
Qed.

Lemma get_streams_loop_returns (streams : list stream) (subs0 audios0 : list string) :
  Forall complete_stream streams →
  ∃ subs audios,
    get_streams_loop streams subs0 audios0 = inr (subs0 ++ subs, audios0 ++ audios)
    ∧ Forall2 (λ s desc, describe s = inr desc)
        (filter (λ s, codec_type s = Some "subtitle") streams) subs
    ∧ Forall2 (λ s desc, describe s = inr desc)
        (filter (λ s, codec_type s = Some "audio") streams) audios.
Proof.
  intros Hall. revert subs0 audios0.
  induction Hall as [|s streams Hs Hall IH]; intros subs0 audios0.
  - exists [], []. cbn. rewrite !app_nil_r. repeat split; constructor.
  - cbn [get_streams_loop]. rewrite !filter_cons.
    destruct Hs as [[t Ht] Hkeys]. rewrite Ht.
    destruct (String.eqb_spec t "audio") as [->|Hna].
    + destruct (describe_complete s (conj (ex_intro _ _ Ht) Hkeys) (or_introl Ht))
        as [desc Hdesc].
      rewrite Hdesc.
      destruct (IH subs0 (audios0 ++ [desc])) as (subs & audios & -> & Hsubs & Haudios).
      exists subs, (desc :: audios). rewrite <- app_assoc.
      split; [reflexivity|].
      rewrite decide_False by discriminate. rewrite decide_True by reflexivity.
      split; [exact Hsubs|by constructor].
    + destruct (String.eqb_spec t "subtitle") as [->|Hns].
      * destruct (describe_complete s (conj (ex_intro _ _ Ht) Hkeys) (or_intror Ht))
          as [desc Hdesc].
        rewrite Hdesc.
        destruct (IH (subs0 ++ [desc]) audios0) as (subs & audios & -> & Hsubs & Haudios).
        exists (desc :: subs), audios. rewrite <- app_assoc.
        split; [reflexivity|].
        rewrite decide_True by reflexivity. rewrite decide_False by discriminate.
        split; [by constructor|exact Haudios].
      * destruct (IH subs0 audios0) as (subs & audios & -> & Hsubs & Haudios).
        exists subs, audios. split; [reflexivity|].
        rewrite !decide_False by congruence. by split.
Qed.

Lemma get_streams_loop_raises (streams : list stream) (subs0 audios0 : list string) :
  Exists (λ s, ¬ complete_stream s) streams →
  ∃ e, get_streams_loop streams subs0 audios0 = inl e.
Proof.
  revert subs0 audios0.
  induction streams as [|s streams IH]; intros subs0 audios0 Hex; [by inversion Hex|].
  cbn [get_streams_loop].
  destruct (codec_type s) as [t|] eqn:Ht; [|eauto].
  assert (∀ desc, describe s = inr desc → complete_stream s) as Hcomplete.
  { unfold describe, complete_stream. intros desc Hdesc. rewrite Ht.
    destruct (index s); [|discriminate]. destruct (codec_name s); [|discriminate].
    split; [eauto|]. intros _. split; eauto. }
  assert (complete_stream s → ∃ e, get_streams_loop streams subs0 audios0 = inl e)
    as Htail.
  { intros Hs. apply IH. by apply Exists_cons in Hex as [Hns|Hex]. }
  destruct (String.eqb_spec t "audio") as [->|Hna].
  - destruct (describe s) as [e|desc] eqn:Hdesc; [eauto|].
    apply IH. apply Exists_cons in Hex as [Hns|Hex]; [|exact Hex].
    destruct Hns. by eapply Hcomplete.
  - destruct (String.eqb_spec t "subtitle") as [->|Hns'].
    + destruct (describe s) as [e|desc] eqn:Hdesc; [eauto|].
      apply IH. apply Exists_cons in Hex as [Hns|Hex]; [|exact Hex].
      destruct Hns. by eapply Hcomplete.
    + apply Htail. unfold complete_stream. rewrite Ht. split; [eauto|].
      intros [[= ->]|[= ->]]; congruence.
Qed.

(** X5: when ffprobe's answer parses and every stream entry has the keys
    read from it, [get_streams] returns the descriptions of the subtitle
    streams and of the audio streams, each in ffprobe's order; entries of
    other types are ignored. *)
Theorem get_streams_partition (ffprobe : string → ffprobe_json) (file_path : string)
    (streams : list stream) :
  ffprobe file_path = Json (Some streams) →
  Forall complete_stream streams →
  ∃ subs audios,
    get_streams ffprobe file_path = inr (subs, audios)
    ∧ Forall2 (λ s desc, describe s = inr desc)
        (filter (λ s, codec_type s = Some "subtitle") streams) subs
    ∧ Forall2 (λ s desc, describe s = inr desc)
        (filter (λ s, codec_type s = Some "audio") streams) audios.
Proof.
  intros Hprobe Hall. unfold get_streams. rewrite Hprobe.
  destruct (get_streams_loop_returns streams [] [] Hall) as (subs & audios & H & Hrest).
  exists subs, audios. by split.
Qed.

Lemma film_streams_complete : Forall complete_stream film_streams.
Proof.
  unfold film_streams.
  repeat (apply Forall_cons; split;
          [split; [cbn; eauto|cbn; first [by intros [[=]|[=]]|intros _; split; eauto]]|]).
  apply Forall_nil. done.
Qed.

Lemma get_streams_partition_witness :
  Forall complete_stream film_streams
  ∧ ∃ subs audios,
      get_streams ffprobe_film "X/a.mkv" = inr (subs, audios)
      ∧ Forall2 (λ s desc, describe s = inr desc)
          (filter (λ s, codec_type s = Some "subtitle") film_streams) subs
      ∧ Forall2 (λ s desc, describe s = inr desc)
          (filter (λ s, codec_type s = Some "audio") film_streams) audios.
Proof.
  split; [exact film_streams_complete|].
  exact (get_streams_partition ffprobe_film "X/a.mkv" film_streams eq_refl
           film_streams_complete).
Defined.

(** X6: when ffprobe's answer parses, [get_streams] raises exactly when
    some stream entry lacks its type, or is an audio or subtitle entry
    without index or codec name; entries of other types need nothing
    else. *)
Theorem get_streams_raises_iff (ffprobe : string → ffprobe_json) (file_path : string)
    (streams : list stream) :
  ffprobe file_path = Json (Some streams) →
  (∃ e, get_streams ffprobe file_path = inl e)
  ↔ Exists (λ s, ¬ complete_stream s) streams.
Proof.
  intros Hprobe. unfold get_streams. rewrite Hprobe. split.
  - intros [e Hraised].
    assert (∀ s, Decision (complete_stream s)) as Hdec
      by (intros s; unfold complete_stream; apply _).
    apply not_Forall_Exists; [exact Hdec|]. intros Hall.
    destruct (get_streams_loop_returns streams [] [] Hall) as (subs & audios & H & _).
    congruence.
  - apply get_streams_loop_raises.
Qed.

Lemma get_streams_raises_iff_witness :
  (∃ e, get_streams
          (λ _, Json (Some [{| codec_type := Some "subtitle"; index := Some 2%Z;
                               codec_name := None; language := None |}]))
          "X/a.mkv" = inl e)
  ↔ Exists (λ s, ¬ complete_stream s)
      [{| codec_type := Some "subtitle"; index := Some 2%Z;
          codec_name := None; language := None |}].
Proof.
  exact (get_streams_raises_iff _ "X/a.mkv" _ eq_refl).
Defined.

(** ** A probe that raises during the scan *)

Lemma scan_walk_app get_streams getsize (pre post : list (string * list string))
    (fs : state_files) (acc : list (string * work_item)) :
  scan_walk get_streams getsize (pre ++ post) fs acc
  = match scan_walk get_streams getsize pre fs acc with
    | (fs1, inr acc1) => scan_walk get_streams getsize post fs1 acc1
    | (fs1, inl e) => (fs1, inl e)
    end.
Proof.
  revert fs acc. induction pre as [|[dirpath dir_files] pre IH]; intros fs acc;
    [reflexivity|].
  cbn [app scan_walk].
  destruct (scan_dir get_streams getsize dirpath dir_files fs) as [fs' [e|[item|]]];
    [reflexivity|apply IH..].
Qed.

(** X7: [scan_folders] has no handler around the stream probe: at the
    first directory whose probe raises, the scan ends with that exception
    and no registry; the state file of that directory is written all the
    same (fresh if there was none), while no state file of another
    directory changes after that point and the directories that follow
    are not visited. *)
Theorem scan_stops_at_failing_probe get_streams getsize
    (pre rest : list (string * list string)) (dirpath : string)
    (dir_files : list string) (fs fs1 : state_files)
    (folders1 : list (string * work_item)) (first : string) (videos : list string)
    (e : Py.exn) :
  scan_folders get_streams getsize pre fs = (fs1, inr folders1) →
  filter is_video dir_files = first :: videos →
  get_streams (Py.path_join dirpath first) = inl e →
  let result :=
    scan_folders get_streams getsize (pre ++ (dirpath, dir_files) :: rest) fs in
  result.2 = inl e
  ∧ (fs1 !! dirpath = None →
     result.1 !! dirpath = Some {[ "finished" := []; "pending" := first :: videos ]})
  ∧ (∀ st, fs1 !! dirpath = Some st → result.1 !! dirpath = Some st)
  ∧ (∀ other, other ≠ dirpath → result.1 !! other = fs1 !! other).
Proof.
  intros Hpre Hvideos Hraised. cbn zeta. unfold scan_folders in *.
  rewrite scan_walk_app, Hpre. cbn [scan_walk].
  pose proof (scan_dir_store get_streams getsize dirpath dir_files fs1) as Hstore.
  assert ((scan_dir get_streams getsize dirpath dir_files fs1).2 = inl e) as Hresult.
  { unfold scan_dir. rewrite Hvideos.
    destruct (fs1 !! dirpath); by rewrite Hraised. }
  destruct (scan_dir get_streams getsize dirpath dir_files fs1) as [fs' r].
  cbn [fst snd] in *. subst r. cbn [fst snd]. rewrite Hvideos in Hstore.
  split; [reflexivity|].
  destruct (fs1 !! dirpath) as [st|] eqn:Hst; subst fs'.
  - split; [done|]. split; [congruence|done].
  - split; [intros _; by rewrite lookup_insert_eq|]. split; [done|].
    intros other Hne. by rewrite lookup_insert_ne.
Qed.

Lemma scan_stops_at_failing_probe_witness :
  let result :=
    scan_folders (λ _, inl (Py.KeyError "streams")) no_sizes
      ([] ++ ("X", listing_ab) :: [("Y", listing_abc)]) ∅ in
  result.2 = inl (Py.KeyError "streams")
  ∧ result.1 !! "X" = Some {[ "finished" := []; "pending" := ["a.mkv"; "b.mkv"] ]}
  ∧ result.1 !! "Y" = None.
Proof.
  destruct (scan_stops_at_failing_probe (λ _, inl (Py.KeyError "streams")) no_sizes
              [] [("Y", listing_abc)] "X" listing_ab ∅ ∅ [] "a.mkv" ["b.mkv"]
              (Py.KeyError "streams") eq_refl eq_refl eq_refl)
    as (Hexn & Hfresh & _ & Hother).
  cbn zeta. split; [exact Hexn|]. split; [by apply Hfresh|].
  by rewrite Hother.
Defined.

(** ** Automatic track selection *)

Lemma filter_first {A} (P : A → Prop) `{∀ x, Decision (P x)} (l r : list A) (x : A) :
  filter P l = x :: r →
  ∃ before after, l = before ++ x :: after ∧ P x ∧ Forall (λ y, ¬ P y) before.
Proof.
  induction l as [|y l IH]; [discriminate|].
  rewrite filter_cons. destruct (decide (P y)) as [Hy|Hy].
  - intros [= -> <-]. exists [], l. by repeat split.
  - intros (before & after & -> & Hx & Hbefore)%IH.
    exists (y :: before), after. repeat split; [done|by constructor].
Qed.

Lemma is_jpn_iff (s : string) :
  is_jpn s = true
  ↔ substring_of "jpn" (Py.lower s) ∨ substring_of "japanese" (Py.lower s).
Proof.
  unfold is_jpn. rewrite !orb_true_iff, !contains_spec. split; [|tauto].
  intros [[(pre & post & Hs)|?]|?]; [|tauto..].
  left. exists (pre +:+ "("), (")" +:+ post). rewrite Hs.
  by rewrite !append_assoc.
Qed.

(** X8: for a non-empty list of tracks the automatic selection is the
    first track whose description mentions [jpn] or [japanese] in any
    letter case, and the first track of all when there is none. *)
Theorem auto_select_prefers_japanese (choices : list string) :
  choices ≠ [] →
  auto_select choices ∈ choices
  ∧ (is_jpn (auto_select choices) = true ↔ ∃ c, c ∈ choices ∧ is_jpn c = true)
  ∧ (∃ before after,
       choices = before ++ auto_select choices :: after
       ∧ Forall (λ c, is_jpn c = false) before
       ∧ (is_jpn (auto_select choices) = false → before = []))
  ∧ ∀ c, is_jpn c = true
         ↔ substring_of "jpn" (Py.lower c) ∨ substring_of "japanese" (Py.lower c).
Proof.
  intros Hne. destruct choices as [|first choices]; [done|].
  unfold auto_select.
  destruct (filter is_jpn (first :: choices)) as [|j r] eqn:Hfilter.
  - assert (∀ c, c ∈ first :: choices → is_jpn c = false) as Hnone.
    { intros c Hc. destruct (is_jpn c) eqn:Hj; [|reflexivity].
      assert (c ∈ filter is_jpn (first :: choices)) as Hin
        by (apply list_elem_of_filter; split; [by rewrite Hj|done]).
      rewrite Hfilter in Hin. by apply elem_of_nil in Hin. }
    split; [left|]. split.
    + rewrite (Hnone first) by left. split; [discriminate|].
      intros (c & Hc & Hj). rewrite (Hnone c Hc) in Hj. discriminate.
    + split; [|apply is_jpn_iff]. exists [], choices. by repeat split.
  - destruct (filter_first _ _ _ _ Hfilter) as (before & after & Hsplit & Hj & Hbefore).
    apply Is_true_true in Hj.
    split; [rewrite Hsplit; apply elem_of_app; right; left|]. split.
    + rewrite Hj. split; [|done]. intros _. exists j. split; [|done].
      rewrite Hsplit. apply elem_of_app. right. left.
    + split; [|apply is_jpn_iff]. exists before, after. split; [done|]. split.
      * eapply Forall_impl; [exact Hbefore|]. intros c Hc. cbn in Hc.
        by destruct (is_jpn c).
      * congruence.
Qed.

Lemma auto_select_prefers_japanese_witness :
  ["ass (eng):3"; "ass (JPN):4"] ≠ []
  ∧ auto_select ["ass (eng):3"; "ass (JPN):4"] ∈ ["ass (eng):3"; "ass (JPN):4"]
  ∧ is_jpn (auto_select ["ass (eng):3"; "ass (JPN):4"]) = true.
Proof.
  assert (["ass (eng):3"; "ass (JPN):4"] ≠ []) as Hne by discriminate.
  split; [exact Hne|].
  destruct (auto_select_prefers_japanese _ Hne) as (Hin & Hjpn & _).
  split; [exact Hin|]. apply Hjpn. exists "ass (JPN):4".
  split; [right; left|reflexivity].
Defined.

(** ** From the probe to the mapped stream *)

Lemma auto_select_in (choices : list string) :
  choices ≠ [] → auto_select choices ∈ choices.
Proof.
  destruct choices as [|first choices]; [done|]. intros _. unfold auto_select.
  destruct (filter is_jpn (first :: choices)) as [|j r] eqn:Hfilter; [left|].
  assert (j ∈ filter is_jpn (first :: choices)) as Hin by (rewrite Hfilter; left).
  by apply list_elem_of_filter in Hin as [_ ?].
Qed.

Lemma selected_stream (streams : list stream) (descs : list string) :
  Forall2 (λ s desc, describe s = inr desc) streams descs →
  Forall colon_free streams →
  streams ≠ [] →
  ∃ s idx,
    s ∈ streams
    ∧ index s = Some idx
    ∧ describe s = inr (auto_select descs)
    ∧ stream_index (auto_select descs) = Some (pretty idx).
Proof.
  intros Hdescs Hfree Hne.
  assert (descs ≠ []) as Hne'.
  { intros ->. apply Forall2_nil_inv_r in Hdescs. done. }
  pose proof (auto_select_in descs Hne') as Hin.
  apply list_elem_of_lookup in Hin as [i Hi].
  destruct (Forall2_lookup_r _ _ _ _ _ Hdescs Hi) as (s & Hs & Hdesc).
  assert (s ∈ streams) as Hsin by (apply list_elem_of_lookup; eauto).
  rewrite Forall_forall in Hfree. destruct (Hfree s Hsin) as [Hname Hlang].
  destruct (describe_index s _ Hdesc Hname Hlang) as (idx & Hidx & Hparsed).
  by exists s, idx.
Qed.

Lemma scan_dir_selection get_streams getsize (dirpath : string) (dir_files : list string)
    (fs : state_files) (first : string) (videos subs audios : list string) :
  filter is_video dir_files = first :: videos →
  get_streams (Py.path_join dirpath first) = inr (subs, audios) →
  ∃ item,
    (scan_dir get_streams getsize dirpath dir_files fs).2 = inr (Some item)
    ∧ selected_sub item = auto_select subs
    ∧ selected_audio item = auto_select audios.
Proof.
  intros Hv Hprobe. unfold scan_dir. rewrite Hv.
  destruct (fs !! dirpath) as [st|]; rewrite Hprobe; cbn; eauto.
Qed.

(** X9: when the first video of a folder has a subtitle stream (an audio
    stream) and no codec name or language tag of its streams contains a
    colon, the scan selects the description of one of these streams, and
    what [run] later reads back from the selection and maps in its ffmpeg
    commands is that stream's ffprobe index. *)
Theorem scanned_selection_maps_stream_index (ffprobe : string → ffprobe_json)
    (getsize : string → option Z) (dirpath : string) (dir_files : list string)
    (fs : state_files) (first : string) (videos : list string)
    (streams : list stream) :
  filter is_video dir_files = first :: videos →
  ffprobe (Py.path_join dirpath first) = Json (Some streams) →
  Forall complete_stream streams →
  Forall colon_free streams →
  ∃ item,
    (scan_dir (get_streams ffprobe) getsize dirpath dir_files fs).2 = inr (Some item)
    ∧ ((∃ s, s ∈ streams ∧ codec_type s = Some "subtitle") →
       ∃ s idx,
         s ∈ streams ∧ codec_type s = Some "subtitle" ∧ index s = Some idx
         ∧ describe s = inr (selected_sub item)
         ∧ has_index (stream_index (selected_sub item)) = true
         ∧ stream_map (stream_index (selected_sub item)) = "0:" +:+ pretty idx)
    ∧ ((∃ s, s ∈ streams ∧ codec_type s = Some "audio") →
       ∃ s idx,
         s ∈ streams ∧ codec_type s = Some "audio" ∧ index s = Some idx
         ∧ describe s = inr (selected_audio item)
         ∧ has_index (stream_index (selected_audio item)) = true
         ∧ stream_map (stream_index (selected_audio item)) = "0:" +:+ pretty idx).
Proof.
  intros Hv Hprobe Hcomplete Hfree.
  destruct (get_streams_loop_returns streams [] [] Hcomplete)
    as (subs & audios & Hloop & Hsubs & Haudios).
  assert (get_streams ffprobe (Py.path_join dirpath first) = inr (subs, audios))
    as Hget by (unfold get_streams; by rewrite Hprobe).
  destruct (scan_dir_selection (get_streams ffprobe) getsize dirpath dir_files fs
              first videos subs audios Hv Hget) as (item & Hitem & Hsel & Hsel').
  exists item. split; [exact Hitem|]. rewrite Hsel, Hsel'.
  assert (∀ (t : string) (descs : list string),
            Forall2 (λ s desc, describe s = inr desc)
              (filter (λ s, codec_type s = Some t) streams) descs →
            (∃ s, s ∈ streams ∧ codec_type s = Some t) →
            ∃ s idx,
              s ∈ streams ∧ codec_type s = Some t ∧ index s = Some idx
              ∧ describe s = inr (auto_select descs)
              ∧ has_index (stream_index (auto_select descs)) = true
              ∧ stream_map (stream_index (auto_select descs)) = "0:" +:+ pretty idx)
    as Hboth.
  { intros t descs Hdescs (s0 & Hs0 & Ht0).
    destruct (selected_stream _ descs Hdescs) as (s & idx & Hs & Hidx & Hdesc & Hparsed).
    - apply Forall_forall. intros s [_ Hs]%list_elem_of_filter.
      rewrite Forall_forall in Hfree. by apply Hfree.
    - intros Hnil.
      assert (s0 ∈ filter (λ s, codec_type s = Some t) streams) as Hin
        by (by apply list_elem_of_filter).
      rewrite Hnil in Hin. by apply elem_of_nil in Hin.
    - apply list_elem_of_filter in Hs as [Ht Hs].
      exists s, idx. rewrite Hparsed.
      repeat split; try done.
      apply has_index_nonempty, pretty_Z_nonempty. }
  split; [by apply Hboth|by apply Hboth].
Qed.

Lemma film_streams_colon_free : Forall colon_free film_streams.
Proof.
  unfold film_streams.
  repeat (apply Forall_cons; split;
          [split; [cbn; by intros name [= <-]|reflexivity]|]).
  by apply Forall_nil.
Qed.

Lemma scanned_selection_maps_stream_index_witness :
  ∃ item,
    (scan_dir (get_streams ffprobe_film) no_sizes "X" listing_ab ∅).2 = inr (Some item)
    ∧ ∃ s idx,
        s ∈ film_streams ∧ codec_type s = Some "subtitle" ∧ index s = Some idx
        ∧ describe s = inr (selected_sub item)
        ∧ has_index (stream_index (selected_sub item)) = true
        ∧ stream_map (stream_index (selected_sub item)) = "0:" +:+ pretty idx.
Proof.
  destruct (scanned_selection_maps_stream_index ffprobe_film no_sizes "X" listing_ab ∅
              "a.mkv" ["b.mkv"] film_streams eq_refl eq_refl
              film_streams_complete film_streams_colon_free)
    as (item & Hitem & Hsub & _).
  exists item. split; [exact Hitem|]. apply Hsub.
  eexists. split; [unfold film_streams; do 3 right; left|reflexivity].
Defined.

(** ** State files that lack a list *)

Lemma mark_done_raises_iff_aux (fs : state_files) (folder f : string) (st : state)
    (e : Py.exn) :
  fs !! folder = Some st →
  mark_done fs folder f = inl e →
  ∃ key, (key = "finished" ∨ key = "pending") ∧ st !! key = None ∧ e = Py.KeyError key.
Proof.
  intros Hst. unfold mark_done, current_state. rewrite Hst.
  destruct (st !! "finished") as [fin|] eqn:Hfin.
  - assert ((if bool_decide (f ∈ fin) then st else <["finished" := fin ++ [f]]> st)
            !! "pending" = st !! "pending") as ->.
    { case_bool_decide; [done|]. by rewrite lookup_insert_ne. }
    destruct (st !! "pending") as [pen|] eqn:Hpen; [discriminate|].
    intros [= <-]. exists "pending". auto.
  - intros [= <-]. exists "finished". auto.
Qed.

(** X10: on a state file that is absent or holds a JSON object whose
    values are lists of names, in a folder where it can be written,
    [mark_done] raises exactly when the file exists and lacks one of its
    two lists, with the [KeyError] of the first missing key; without a
    state file it does not raise. *)
Theorem mark_done_raises_iff (fs : state_files) (folder f : string) (e : Py.exn) :
  mark_done fs folder f = inl e
  ↔ ∃ st,
      fs !! folder = Some st
      ∧ ((st !! "finished" = None ∧ e = Py.KeyError "finished")
         ∨ (is_Some (st !! "finished") ∧ st !! "pending" = None
            ∧ e = Py.KeyError "pending")).
Proof.
  destruct (fs !! folder) as [st|] eqn:Hst; [unfold mark_done, current_state; rewrite Hst|].
  - destruct (st !! "finished") as [fin|] eqn:Hfin.
    + assert ((if bool_decide (f ∈ fin) then st else <["finished" := fin ++ [f]]> st)
              !! "pending" = st !! "pending") as ->.
      { case_bool_decide; [done|]. by rewrite lookup_insert_ne. }
      destruct (st !! "pending") as [pen|] eqn:Hpen.
      * split; [discriminate|].
        intros (st' & [= <-] & [[? _]|(_ & ? & _)]); congruence.
      * split.
        -- intros [= <-]. exists st. split; [done|]. right. eauto.
        -- intros (st' & [= <-] & [[? _]|(_ & _ & ->)]); congruence.
    + split.
      * intros [= <-]. exists st. split; [done|]. by left.
      * intros (st' & [= <-] & [[_ ->]|([? ?] & _)]); congruence.
  - destruct (fresh_state_well_formed fs folder Hst) as (Hwf & _).
    rewrite (mark_done_well_formed fs folder f Hwf).
    split; [discriminate|]. intros (st & ? & _). discriminate.
Qed.

(** X11: when the burn call returns but the folder's state file lacks a
    list, the file is not recorded: the state files stay as they were and
    the last thing logged is an "Error burning" line that quotes the
    missing key. *)
Theorem burn_not_recorded_without_lists (best265 best264 folder outfolder : string)
    (data : work_item) (f : string) (env : file_env) (w : world) (st : state)
    (rc : Z) (out : string) :
  store w !! folder = Some st →
  ¬ well_formed st →
  burn env = Completed rc out →
  let result := process_file best265 best264 folder outfolder data f env w in
  store result.1 = store w
  ∧ ∃ key,
      (key = "finished" ∨ key = "pending")
      ∧ st !! key = None
      ∧ last result.2 = Some (Log ("Error burning " +:+ f +:+ ": '" +:+ key +:+ "'")).
Proof.
  intros Hst Hbad Hburned. cbn zeta.
  assert (∃ key, (key = "finished" ∨ key = "pending") ∧ st !! key = None
                 ∧ mark_done (store w) folder f = inl (Py.KeyError key))
    as (key & Hkey & Hnone & Hraises).
  { destruct (mark_done (store w) folder f) as [e|fs'] eqn:Hmd.
    - destruct (mark_done_raises_iff_aux _ _ _ st e Hst Hmd)
        as (key & Hkey & Hnone & ->).
      eauto.
    - exfalso. apply Hbad.
      apply mark_done_inr_well_formed in Hmd.
      unfold current_state in Hmd. by rewrite Hst in Hmd. }
  split.
  - file_cases data env w folder f; simplify_eq; reflexivity.
  - exists key. split; [exact Hkey|]. split; [exact Hnone|].
    file_cases data env w folder f; simplify_eq; reflexivity.
Qed.

Lemma burn_not_recorded_without_lists_witness :
  store_no_pending !! "X" = Some {[ "finished" := ["a.mkv"] ]}
  ∧ store (process_file "libx265" "libx264" "X" "X-burned" data_jpn "b.mkv" env_ok
             {| store := store_no_pending; disk := ∅ |}).1 = store_no_pending
  ∧ last (process_file "libx265" "libx264" "X" "X-burned" data_jpn "b.mkv" env_ok
            {| store := store_no_pending; disk := ∅ |}).2
    = Some (Log "Error burning b.mkv: 'pending'").
Proof.
  split; [reflexivity|].
  destruct (burn_not_recorded_without_lists "libx265" "libx264" "X" "X-burned"
              data_jpn "b.mkv" env_ok {| store := store_no_pending; disk := ∅ |}
              {[ "finished" := ["a.mkv"] ]} 0 "" eq_refl)
    as (Hstore & key & _ & _ & _).
  - intros [_ [pen Hpen]]. discriminate Hpen.
  - reflexivity.
  - split; [exact Hstore|]. vm_compute. reflexivity.
Defined.

(** ** What every reachable state file looks like *)

Section ReachableInvariant.

(** A property of state files that holds of the fresh ones and that
    [mark_done] keeps. *)
Variable P : state → Prop.
Hypothesis P_scanned : ∀ videos, NoDup videos →
  P {[ "finished" := []; "pending" := videos ]}.
Hypothesis P_marked : ∀ f st, P st → P (marked_state f st).

Lemma P_current_state (fs : state_files) (folder : string) :
  (∀ folder st, fs !! folder = Some st → P st) → P (current_state fs folder).
Proof.
  intros Hall. unfold current_state.
  destruct (fs !! folder) as [st|] eqn:Hst; [by eapply Hall|].
  apply P_scanned. constructor.
Qed.

Lemma P_mark_done (fs fs' : state_files) (folder f : string) :
  (∀ folder st, fs !! folder = Some st → P st) →
  mark_done fs folder f = inr fs' →
  ∀ folder st, fs' !! folder = Some st → P st.
Proof.
  intros Hall Hmd.
  pose proof (mark_done_inr_well_formed _ _ _ _ Hmd) as Hwf.
  rewrite mark_done_well_formed in Hmd by exact Hwf. injection Hmd as <-.
  intros folder' st'. destruct (decide (folder = folder')) as [<-|Hne].
  - rewrite lookup_insert_eq. intros [= <-]. by apply P_marked, P_current_state.
  - rewrite lookup_insert_ne by done. apply Hall.
Qed.

Lemma P_scan_walk get_streams getsize (walk : list (string * list string))
    (fs : state_files) (acc : list (string * work_item)) :
  (∀ folder st, fs !! folder = Some st → P st) →
  Forall (λ entry : string * list string, NoDup entry.2) walk →
  ∀ folder st, (scan_walk get_streams getsize walk fs acc).1 !! folder = Some st → P st.
Proof.
  intros Hall Hwalk. revert fs acc Hall.
  induction Hwalk as [|[dirpath dir_files] walk Hnd Hwalk IH]; intros fs acc Hall;
    [exact Hall|].
  cbn [scan_walk].
  pose proof (scan_dir_store get_streams getsize dirpath dir_files fs) as Hstore.
  assert (∀ folder st,
            (scan_dir get_streams getsize dirpath dir_files fs).1 !! folder = Some st →
            P st) as Hall'.
  { rewrite Hstore.
    destruct (filter is_video dir_files) as [|first videos] eqn:Hv; [exact Hall|].
    destruct (fs !! dirpath) as [st0|] eqn:Hst0; [exact Hall|].
    intros folder st. destruct (decide (dirpath = folder)) as [<-|Hne].
    - rewrite lookup_insert_eq. intros [= <-]. apply P_scanned.
      rewrite <- Hv. by apply NoDup_filter.
    - rewrite lookup_insert_ne by done. apply Hall. }
  destruct (scan_dir get_streams getsize dirpath dir_files fs) as [fs' [e|[item|]]];
    cbn [fst] in *; [exact Hall'|by apply IH..].
Qed.

Lemma P_process_files (round : Q → Q) (envs : nat → file_env)
    (best265 best264 folder outfolder : string) (data : work_item)
    (num_files total_tasks : nat) (fs : list string)
    (processed completed : nat) (w : world) :
  (∀ folder st, store w !! folder = Some st → P st) →
  ∀ folder' st,
    store (process_files round envs best265 best264 folder outfolder data
             num_files total_tasks fs processed completed w).1.1 !! folder' = Some st →
    P st.
Proof.
  revert processed completed w.
  induction fs as [|f fs IH]; intros processed completed w Hall; [exact Hall|].
  cbn [process_files].
  pose proof (process_file_store best265 best264 folder outfolder data f
                (envs completed) w) as Hstore.
  destruct (process_file _ _ _ _ _ _ _ _) as [w1 ev]. cbn [fst] in Hstore.
  specialize (IH (S processed) (S completed) w1).
  destruct (process_files _ _ _ _ _ _ _ _ _ _ _ _ _) as [[w2 c2] ev'].
  cbn [fst] in *. apply IH.
  destruct Hstore as [->|Hmark]; [exact Hall|].
  by eapply P_mark_done.
Qed.

Lemma P_process_folders (round : Q → Q) (envs : nat → file_env)
    (best265 best264 : string) (total_tasks : nat)
    (folders : list (string * work_item)) (completed : nat) (w : world) :
  (∀ folder st, store w !! folder = Some st → P st) →
  ∀ folder' st,
    store (process_folders round envs best265 best264 total_tasks
             folders completed w).1.1 !! folder' = Some st →
    P st.
Proof.
  revert completed w.
  induction folders as [|[folder data] folders IH]; intros completed w Hall; [exact Hall|].
  cbn [process_folders].
  destruct (files data) as [|f fs] eqn:Hfiles; [by apply IH|].
  pose proof (P_process_files round envs best265 best264 folder
                (folder +:+ "-burned") data (length (f :: fs)) total_tasks
                (f :: fs) 0 completed w Hall) as Hall1.
  destruct (process_files _ _ _ _ _ _ _ _ _ _ _ _ _) as [[w1 c1] ev].
  specialize (IH c1 w1 Hall1).
  destruct (process_folders _ _ _ _ _ _ _ _) as [[w2 c2] ev'].
  exact IH.
Qed.

Lemma P_reachable (fs : state_files) :
  reachable fs → ∀ folder st, fs !! folder = Some st → P st.
Proof.
  induction 1 as [|get_streams getsize walk fs Hreach IH Hwalk
                  |folder f fs fs' Hreach IH Hmd
                  |round envs enc_list folders fs d Hreach IH].
  - intros folder st Hst. by rewrite lookup_empty in Hst.
  - by apply P_scan_walk.
  - by eapply P_mark_done.
  - unfold run.
    destruct (pick_best_encoder enc_list) as [[bestav1 b265] b264].
    destruct folders as [|entry folders]; [exact IH|].
    pose proof (P_process_folders round envs b265 b264
                  (count_tasks (entry :: folders)) (entry :: folders) 0
                  {| store := fs; disk := d |} IH) as Hall.
    destruct (process_folders _ _ _ _ _ _ _ _) as [[w' c'] ev]. exact Hall.
Qed.

End ReachableInvariant.

(** X12: every state file the program writes, starting from a tree
    without state files, holds both lists and neither list names a file
    twice; so on such state files [mark_done] never raises. *)
Theorem reachable_state_files_are_clean (fs : state_files) :
  reachable fs →
  (∀ folder st, fs !! folder = Some st →
     well_formed st ∧ NoDup (finished_of st) ∧ NoDup (pending_of st))
  ∧ ∀ folder f, ∃ fs', mark_done fs folder f = inr fs'.
Proof.
  intros Hreach.
  assert (∀ folder st, fs !! folder = Some st →
            well_formed st ∧ NoDup (finished_of st) ∧ NoDup (pending_of st)) as Hclean.
  { apply (P_reachable
             (λ st, well_formed st ∧ NoDup (finished_of st) ∧ NoDup (pending_of st)));
      [| |exact Hreach].
    - intros videos Hnd. unfold well_formed, finished_of, pending_of.
      rewrite lookup_insert_eq, lookup_insert_ne, lookup_singleton_eq by done.
      cbn. repeat split; eauto. constructor.
    - intros f st (Hwf & Hfin & Hpen).
      split; [apply marked_state_well_formed|].
      rewrite marked_state_finished, marked_state_pending.
      split; [|by apply list_remove_first_NoDup].
      case_bool_decide as Hin; [exact Hfin|].
      apply NoDup_app. split; [exact Hfin|]. split; [|apply NoDup_singleton].
      intros x Hx ->%list_elem_of_singleton. done. }
  split; [exact Hclean|].
  intros folder f. eexists. apply mark_done_well_formed.
  unfold current_state. destruct (fs !! folder) as [st|] eqn:Hst.
  - by destruct (Hclean folder st Hst).
  - split; eexists; reflexivity.
Qed.

Lemma reachable_state_files_are_clean_witness :
  reachable store_a_done
  ∧ ∃ fs', mark_done store_a_done "X" "b.mkv" = inr fs'.
Proof.
  assert (reachable store_a_done) as Hreach.
  { apply (reachable_mark_done "X" "a.mkv" store_ab); [|vm_compute; reflexivity].
    change store_ab
      with (scan_folders no_streams no_sizes [("X", listing_ab)] ∅).1.
    apply reachable_scan; [apply reachable_fresh|].
    repeat constructor; cbn; rewrite ?elem_of_cons, ?elem_of_nil;
      intuition discriminate. }
  split; [exact Hreach|].
  destruct (reachable_state_files_are_clean store_a_done Hreach) as [_ Hmd].
  apply Hmd.
Defined.

(** ** What a run does to the state files *)

Lemma state_advances_refl (st : state) : state_advances st st.
Proof. by split. Qed.

Lemma state_advances_trans (st1 st2 st3 : state) :
  state_advances st1 st2 → state_advances st2 st3 → state_advances st1 st3.
Proof. intros [H1 H1'] [H2 H2']. split; auto. Qed.

Lemma marked_state_advances (f : string) (st : state) :
  state_advances st (marked_state f st).
Proof.
  split; intros x.
  - rewrite marked_state_finished. case_bool_decide; [done|].
    intros Hx. apply elem_of_app. by left.
  - rewrite marked_state_pending. apply list_remove_first_subseteq.
Qed.

Lemma store_advances_refl (fs : state_files) : store_advances fs fs.
Proof. intros folder st Hst. exists st. split; [done|apply state_advances_refl]. Qed.

Lemma store_advances_trans (fs1 fs2 fs3 : state_files) :
  store_advances fs1 fs2 → store_advances fs2 fs3 → store_advances fs1 fs3.
Proof.
  intros H12 H23 folder st1 Hst1.
  destruct (H12 folder st1 Hst1) as (st2 & Hst2 & Hadv12).
  destruct (H23 folder st2 Hst2) as (st3 & Hst3 & Hadv23).
  exists st3. split; [done|]. by eapply state_advances_trans.
Qed.

Lemma mark_done_written (fs fs' : state_files) (folder f : string) :
  mark_done fs folder f = inr fs' →
  fs' = <[folder := marked_state f (current_state fs folder)]> fs.
Proof.
  intros Hmd.
  pose proof (mark_done_inr_well_formed _ _ _ _ Hmd) as Hwf.
  rewrite mark_done_well_formed in Hmd by exact Hwf. congruence.
Qed.

Lemma mark_done_advances (fs fs' : state_files) (folder f : string) :
  mark_done fs folder f = inr fs' → store_advances fs fs'.
Proof.
  intros ->%mark_done_written folder' st Hst.
  destruct (decide (folder = folder')) as [<-|Hne].
  - rewrite lookup_insert_eq. eexists. split; [reflexivity|].
    unfold current_state. rewrite Hst. apply marked_state_advances.
  - rewrite lookup_insert_ne by done. exists st.
    split; [done|apply state_advances_refl].
Qed.

Lemma process_files_advances (round : Q → Q) (envs : nat → file_env)
    (best265 best264 folder outfolder : string) (data : work_item)
    (num_files total_tasks : nat) (fs : list string)
    (processed completed : nat) (w : world) :
  store_advances (store w)
    (store (process_files round envs best265 best264 folder outfolder data
              num_files total_tasks fs processed completed w).1.1).
Proof.
  revert processed completed w.
  induction fs as [|f fs IH]; intros processed completed w; [apply store_advances_refl|].
  cbn [process_files].
  pose proof (process_file_store best265 best264 folder outfolder data f
                (envs completed) w) as Hstore.
  destruct (process_file _ _ _ _ _ _ _ _) as [w1 ev]. cbn [fst] in Hstore.
  specialize (IH (S processed) (S completed) w1).
  destruct (process_files _ _ _ _ _ _ _ _ _ _ _ _ _) as [[w2 c2] ev'].
  cbn [fst] in *. eapply store_advances_trans; [|exact IH].
  destruct Hstore as [->|Hmark]; [apply store_advances_refl|].
  by eapply mark_done_advances.
Qed.

Lemma process_folders_advances (round : Q → Q) (envs : nat → file_env)
    (best265 best264 : string) (total_tasks : nat)
    (folders : list (string * work_item)) (completed : nat) (w : world) :
  store_advances (store w)
    (store (process_folders round envs best265 best264 total_tasks
              folders completed w).1.1).
Proof.
  revert completed w.
  induction folders as [|[folder data] folders IH]; intros completed w;
    [apply store_advances_refl|].
  cbn [process_folders].
  destruct (files data) as [|f fs] eqn:Hfiles; [by apply IH|].
  pose proof (process_files_advances round envs best265 best264 folder
                (folder +:+ "-burned") data (length (f :: fs)) total_tasks
                (f :: fs) 0 completed w) as Hadv.
  destruct (process_files _ _ _ _ _ _ _ _ _ _ _ _ _) as [[w1 c1] ev].
  specialize (IH c1 w1).
  destruct (process_folders _ _ _ _ _ _ _ _) as [[w2 c2] ev'].
  by eapply store_advances_trans.
Qed.

(** X13: a run never deletes a state file, never removes a name from a
    [finished] list and never adds one to a [pending] list, whatever the
    tools do. *)
Theorem run_only_advances (round : Q → Q) (envs : nat → file_env)
    (enc_list : encoders) (folders : list (string * work_item)) (w : world)
    (folder : string) (st : state) :
  store w !! folder = Some st →
  ∃ st',
    store (run round envs enc_list folders w).1 !! folder = Some st'
    ∧ (∀ x, x ∈ finished_of st → x ∈ finished_of st')
    ∧ (∀ x, x ∈ pending_of st' → x ∈ pending_of st).
Proof.
  intros Hst.
  assert (store_advances (store w) (store (run round envs enc_list folders w).1))
    as Hadv.
  { unfold run.
    destruct (pick_best_encoder enc_list) as [[bestav1 b265] b264].
    destruct folders as [|entry folders]; [apply store_advances_refl|].
    pose proof (process_folders_advances round envs b265 b264
                  (count_tasks (entry :: folders)) (entry :: folders) 0 w) as Hadv.
    destruct (process_folders _ _ _ _ _ _ _ _) as [[w' c'] ev]. exact Hadv. }
  destruct (Hadv folder st Hst) as (st' & Hst' & Hfin & Hpen). eauto.
Qed.

Lemma run_only_advances_witness :
  store world_ab !! "X" = Some {[ "finished" := []; "pending" := ["a.mkv"; "b.mkv"] ]}
  ∧ ∃ st',
      store (run (λ q, q) (λ _, env_ok) (EncList []) [("X", data_jpn)] world_ab).1 !! "X"
      = Some st'
      ∧ ∀ x, x ∈ pending_of st' → x ∈ ["a.mkv"; "b.mkv"].
Proof.
  split; [reflexivity|].
  destruct (run_only_advances (λ q, q) (λ _, env_ok) (EncList []) [("X", data_jpn)]
              world_ab "X" _ eq_refl) as (st' & Hst' & _ & Hpen).
  exists st'. split; [exact Hst'|exact Hpen].
Defined.

Lemma process_file_other (best265 best264 folder outfolder : string)
    (data : work_item) (f : string) (env : file_env) (w : world) (other : string) :
  other ≠ folder →
  store (process_file best265 best264 folder outfolder data f env w).1 !! other
  = store w !! other.
Proof.
  intros Hne.
  destruct (process_file_store best265 best264 folder outfolder data f env w)
    as [->|Hmark]; [reflexivity|].
  apply mark_done_written in Hmark. rewrite Hmark. by rewrite lookup_insert_ne.
Qed.

Lemma process_files_other (round : Q → Q) (envs : nat → file_env)
    (best265 best264 folder outfolder : string) (data : work_item)
    (num_files total_tasks : nat) (fs : list string)
    (processed completed : nat) (w : world) (other : string) :
  other ≠ folder →
  store (process_files round envs best265 best264 folder outfolder data
           num_files total_tasks fs processed completed w).1.1 !! other
  = store w !! other.
Proof.
  intros Hne. revert processed completed w.
  induction fs as [|f fs IH]; intros processed completed w; [reflexivity|].
  cbn [process_files].
  pose proof (process_file_other best265 best264 folder outfolder data f
                (envs completed) w other Hne) as Hother.
  destruct (process_file _ _ _ _ _ _ _ _) as [w1 ev]. cbn [fst] in Hother.
  specialize (IH (S processed) (S completed) w1).
  destruct (process_files _ _ _ _ _ _ _ _ _ _ _ _ _) as [[w2 c2] ev'].
  cbn [fst] in *. congruence.
Qed.

(** X14: a run writes only the state files of the registry's folders that
    have files to process: the state file of any other folder, present or
    absent, is the same after the run. *)
Theorem run_leaves_other_folders (round : Q → Q) (envs : nat → file_env)
    (enc_list : encoders) (folders : list (string * work_item)) (w : world)
    (other : string) :
  (∀ data, (other, data) ∈ folders → files data = []) →
  store (run round envs enc_list folders w).1 !! other = store w !! other.
Proof.
  intros Hother. unfold run.
  destruct (pick_best_encoder enc_list) as [[bestav1 b265] b264].
  destruct folders as [|entry folders]; [reflexivity|].
  assert (∀ total completed w,
            store (process_folders round envs b265 b264 total
                     (entry :: folders) completed w).1.1 !! other
            = store w !! other) as Hfolders.
  { intros total. revert Hother. generalize (entry :: folders). clear.
    intros folders. induction folders as [|[folder data] folders IH];
      intros Hother completed w; [reflexivity|].
    cbn [process_folders].
    assert (∀ data', (other, data') ∈ folders → files data' = []) as Hother'
      by (intros data' Hin; apply Hother; by right).
    destruct (files data) as [|f fs] eqn:Hfiles; [by apply IH|].
    assert (other ≠ folder) as Hne.
    { intros ->. specialize (Hother data (list_elem_of_here _ _)). congruence. }
    pose proof (process_files_other round envs b265 b264 folder
                  (folder +:+ "-burned") data (length (f :: fs)) total
                  (f :: fs) 0 completed w other Hne) as Hfiles'.
    destruct (process_files _ _ _ _ _ _ _ _ _ _ _ _ _) as [[w1 c1] ev].
    specialize (IH Hother' c1 w1).
    destruct (process_folders _ _ _ _ _ _ _ _) as [[w2 c2] ev'].
    cbn [fst] in *. congruence. }
  specialize (Hfolders (count_tasks (entry :: folders)) 0%nat w).
  destruct (process_folders _ _ _ _ _ _ _ _) as [[w' c'] ev]. exact Hfolders.
Qed.

Lemma run_leaves_other_folders_witness :
  store (run (λ q, q) (λ _, env_ok) (EncList []) [("X", data_jpn)] world_ab).1 !! "Y"
  = None.
Proof.
  rewrite (run_leaves_other_folders (λ q, q) (λ _, env_ok) (EncList [])
             [("X", data_jpn)] world_ab "Y").
  - reflexivity.
  - intros data [[=]|Hin%elem_of_nil]%elem_of_cons. done.
Defined.

(** ** Which files a run records *)

Lemma returned_tasks_cons (envs : nat → file_env) (start : nat) (t : string * string)
    (ts : list (string * string)) :
  returned_tasks envs start (t :: ts)
  = (if returned (burn (envs start)) then [t] else [])
    ++ returned_tasks envs (S start) ts.
Proof.
  unfold returned_tasks. cbn [length seq zip zip_with]. rewrite filter_cons. cbn [snd].
  destruct (returned (burn (envs start))).
  - by rewrite decide_True.
  - by rewrite decide_False.
Qed.

Lemma returned_tasks_app (envs : nat → file_env) (start : nat)
    (ts1 ts2 : list (string * string)) :
  returned_tasks envs start (ts1 ++ ts2)
  = returned_tasks envs start ts1 ++ returned_tasks envs (start + length ts1) ts2.
Proof.
  revert start. induction ts1 as [|t ts1 IH]; intros start.
  - cbn [app length]. by rewrite Nat.add_0_r.
  - cbn [app length]. rewrite !returned_tasks_cons, IH, <- app_assoc.
    by rewrite Nat.add_succ_comm.
Qed.

Lemma process_file_marked (best265 best264 folder outfolder : string)
    (data : work_item) (f : string) (env : file_env) (w : world) :
  marked (process_file best265 best264 folder outfolder data f env w).2
  = if returned (burn env) then [(folder, f)] else [].
Proof. file_cases data env w folder f; reflexivity. Qed.

Lemma process_files_marked (round : Q → Q) (envs : nat → file_env)
    (best265 best264 folder outfolder : string) (data : work_item)
    (num_files total_tasks : nat) (fs : list string)
    (processed completed : nat) (w : world) :
  marked (process_files round envs best265 best264 folder outfolder data
            num_files total_tasks fs processed completed w).2
  = returned_tasks envs completed (pair folder <$> fs).
Proof.
  revert processed completed w.
  induction fs as [|f fs IH]; intros processed completed w; [reflexivity|].
  cbn [process_files fmap list_fmap]. rewrite returned_tasks_cons.
  pose proof (process_file_marked best265 best264 folder outfolder data f
                (envs completed) w) as Hfile.
  destruct (process_file _ _ _ _ _ _ _ _) as [w1 ev]. cbn [snd] in Hfile.
  specialize (IH (S processed) (S completed) w1).
  destruct (process_files _ _ _ _ _ _ _ _ _ _ _ _ _) as [[w2 c2] ev'].
  cbn [snd] in *. rewrite !marked_app, Hfile, IH. reflexivity.
Qed.

Lemma process_folders_marked (round : Q → Q) (envs : nat → file_env)
    (best265 best264 : string) (total_tasks : nat)
    (folders : list (string * work_item)) (completed : nat) (w : world) :
  marked (process_folders round envs best265 best264 total_tasks
            folders completed w).2
  = returned_tasks envs completed (tasks folders).
Proof.
  revert completed w.
  induction folders as [|[folder data] folders IH]; intros completed w; [reflexivity|].
  cbn [process_folders]. unfold tasks. cbn [mbind list_bind fst snd].
  fold (tasks folders). rewrite returned_tasks_app, length_fmap.
  destruct (files data) as [|f fs] eqn:Hfiles.
  - cbn [fmap list_fmap length]. rewrite Nat.add_0_r. apply IH.
  - pose proof (process_files_marked round envs best265 best264 folder
                  (folder +:+ "-burned") data (length (f :: fs)) total_tasks
                  (f :: fs) 0 completed w) as Hfiles'.
    pose proof (process_files_progress round envs best265 best264 folder
                  (folder +:+ "-burned") data (length (f :: fs)) total_tasks
                  (f :: fs) 0 completed w) as [Hcount _].
    destruct (process_files _ _ _ _ _ _ _ _ _ _ _ _ _) as [[w1 c1] ev].
    cbn [fst snd] in *. subst c1.
    specialize (IH (completed + length (f :: fs))%nat w1).
    destruct (process_folders _ _ _ _ _ _ _ _) as [[w2 c2] ev'].
    cbn [snd] in *. cbn [marked]. rewrite marked_app. cbn [marked].
    by rewrite Hfiles', IH.
Qed.

(** X15: [mark_done] is called for exactly those files whose burn call
    returned, once each, in the order in which the run works through the
    registry; it is never called for a file whose burn call raised. *)
Theorem run_marks_returned_burns (round : Q → Q) (envs : nat → file_env)
    (enc_list : encoders) (folders : list (string * work_item)) (w : world) :
  marked (run round envs enc_list folders w).2
  = returned_tasks envs 0 (tasks folders)
  ∧ length (tasks folders) = count_tasks folders.
Proof.
  split.
  - unfold run.
    destruct (pick_best_encoder enc_list) as [[bestav1 b265] b264].
    destruct folders as [|entry folders]; [reflexivity|].
    pose proof (process_folders_marked round envs b265 b264
                  (count_tasks (entry :: folders)) (entry :: folders) 0 w) as Hmarked.
    destruct (process_folders _ _ _ _ _ _ _ _) as [[w' c'] ev].
    cbn [snd] in *. rewrite marked_app, Hmarked. cbn. by rewrite app_nil_r.
  - induction folders as [|[folder data] folders IH]; [reflexivity|].
    rewrite count_tasks_cons, <- IH. unfold tasks. cbn [mbind list_bind fst snd].
    by rewrite length_app, length_fmap.
Qed.

(** ** Runs in which every burn call returns *)

Lemma process_file_records (best265 best264 folder outfolder : string)
    (data : work_item) (f : string) (env : file_env) (w : world) :
  returned (burn env) = true →
  well_formed (current_state (store w) folder) →
  store (process_file best265 best264 folder outfolder data f env w).1
  = <[folder := marked_state f (current_state (store w) folder)]> (store w).
Proof.
  intros Hret Hwf.
  pose proof (mark_done_well_formed (store w) folder f Hwf) as Hdone.
  file_cases data env w folder f; simplify_eq; reflexivity.
Qed.

Lemma tidy_scanned (videos : list string) :
  NoDup videos →
  well_formed ({[ "finished" := []; "pending" := videos ]} : state)
  ∧ NoDup (pending_of {[ "finished" := []; "pending" := videos ]}).
Proof.
  intros Hnd. unfold well_formed, pending_of.
  rewrite lookup_insert_eq, lookup_insert_ne, lookup_singleton_eq by done.
  cbn. repeat split; eauto.
Qed.

Lemma tidy_marked (f : string) (st : state) :
  well_formed st ∧ NoDup (pending_of st) →
  well_formed (marked_state f st) ∧ NoDup (pending_of (marked_state f st)).
Proof.
  intros [_ Hnd]. split; [apply marked_state_well_formed|].
  rewrite marked_state_pending. by apply list_remove_first_NoDup.
Qed.

Lemma process_files_all_finished (round : Q → Q) (envs : nat → file_env)
    (best265 best264 folder outfolder : string) (data : work_item)
    (num_files total_tasks : nat) (fs : list string)
    (processed completed : nat) (w : world) :
  (∀ folder st, store w !! folder = Some st → well_formed st ∧ NoDup (pending_of st)) →
  (∀ n, returned (burn (envs n)) = true) →
  ∀ f, f ∈ fs →
    ∃ st',
      store (process_files round envs best265 best264 folder outfolder data
               num_files total_tasks fs processed completed w).1.1 !! folder = Some st'
      ∧ f ∈ finished_of st' ∧ f ∉ pending_of st'.
Proof.
  intros Htidy Hret. revert processed completed w Htidy.
  induction fs as [|f0 fs IH]; intros processed completed w Htidy f Hf;
    [by apply elem_of_nil in Hf|].
  cbn [process_files].
  pose proof (P_current_state _ tidy_scanned (store w) folder Htidy) as [Hwf Hnd].
  pose proof (process_file_records best265 best264 folder outfolder data f0
                (envs completed) w (Hret completed) Hwf) as Hstore.
  destruct (process_file _ _ _ _ _ _ _ _) as [w1 ev]. cbn [fst] in Hstore.
  assert (∀ folder st, store w1 !! folder = Some st →
            well_formed st ∧ NoDup (pending_of st)) as Htidy1.
  { rewrite Hstore. intros folder' st'.
    destruct (decide (folder = folder')) as [<-|Hne].
    - rewrite lookup_insert_eq. intros [= <-]. by apply tidy_marked.
    - rewrite lookup_insert_ne by done. apply Htidy. }
  pose proof (process_files_advances round envs best265 best264 folder outfolder data
                num_files total_tasks fs (S processed) (S completed) w1) as Hadv.
  specialize (IH (S processed) (S completed) w1 Htidy1).
  destruct (process_files _ _ _ _ _ _ _ _ _ _ _ _ _) as [[w2 c2] ev'].
  cbn [fst] in *.
  apply elem_of_cons in Hf as [->|Hf]; [|by apply IH].
  destruct (Hadv folder (marked_state f0 (current_state (store w) folder)))
    as (st' & Hst' & Hfin & Hpen).
  { rewrite Hstore. apply lookup_insert_eq. }
  exists st'. split; [exact Hst'|]. split.
  - apply Hfin, marked_state_finished_in.
  - intros Hin%Hpen. rewrite marked_state_pending in Hin.
    eapply list_remove_first_gone; [|exact Hin]. by apply NoDup_at_most_once.
Qed.

Lemma process_folders_all_finished (round : Q → Q) (envs : nat → file_env)
    (best265 best264 : string) (total_tasks : nat)
    (folders : list (string * work_item)) (completed : nat) (w : world) :
  (∀ folder st, store w !! folder = Some st → well_formed st ∧ NoDup (pending_of st)) →
  (∀ n, returned (burn (envs n)) = true) →
  ∀ folder f, (folder, f) ∈ tasks folders →
    ∃ st',
      store (process_folders round envs best265 best264 total_tasks
               folders completed w).1.1 !! folder = Some st'
      ∧ f ∈ finished_of st' ∧ f ∉ pending_of st'.
Proof.
  intros Htidy Hret. revert completed w Htidy.
  induction folders as [|[folder0 data] folders IH]; intros completed w Htidy folder f Hin;
    [by apply elem_of_nil in Hin|].
  unfold tasks in Hin. cbn [mbind list_bind fst snd] in Hin. fold (tasks folders) in Hin.
  cbn [process_folders].
  destruct (files data) as [|f0 fs] eqn:Hfiles.
  { cbn in Hin. by apply IH. }
  pose proof (process_files_all_finished round envs best265 best264 folder0
                (folder0 +:+ "-burned") data (length (f0 :: fs)) total_tasks
                (f0 :: fs) 0 completed w Htidy Hret) as Hfirst.
  pose proof (P_process_files _ tidy_scanned tidy_marked round envs best265 best264
                folder0 (folder0 +:+ "-burned") data (length (f0 :: fs)) total_tasks
                (f0 :: fs) 0 completed w Htidy) as Htidy1.
  destruct (process_files _ _ _ _ _ _ _ _ _ _ _ _ _) as [[w1 c1] ev].
  pose proof (process_folders_advances round envs best265 best264 total_tasks
                folders c1 w1) as Hadv.
  specialize (IH c1 w1 Htidy1).
  destruct (process_folders _ _ _ _ _ _ _ _) as [[w2 c2] ev'].
  cbn [fst] in *.
  apply elem_of_app in Hin as [Hin|Hin]; [|by apply IH].
  apply list_elem_of_fmap in Hin as (f' & [= -> ->] & Hf').
  destruct (Hfirst f' Hf') as (st1 & Hst1 & Hfin1 & Hpen1).
  destruct (Hadv folder0 st1 Hst1) as (st' & Hst' & Hfin & Hpen).
  exists st'. split; [exact Hst'|]. split; [by apply Hfin|].
  intros Hin%Hpen. done.
Qed.

(** X16: when every state file holds both lists with no name twice in
    [pending], and every burn call of the run returns, then after the run
    every file of the registry is finished and not pending in the state
    file of its folder. *)
Theorem run_finishes_everything (round : Q → Q) (envs : nat → file_env)
    (enc_list : encoders) (folders : list (string * work_item)) (w : world) :
  (∀ folder st, store w !! folder = Some st → well_formed st ∧ NoDup (pending_of st)) →
  (∀ n, returned (burn (envs n)) = true) →
  ∀ folder data f, (folder, data) ∈ folders → f ∈ files data →
    ∃ st',
      store (run round envs enc_list folders w).1 !! folder = Some st'
      ∧ f ∈ finished_of st' ∧ f ∉ pending_of st'.
Proof.
  intros Htidy Hret folder data f Hfolder Hf.
  assert ((folder, f) ∈ tasks folders) as Htask.
  { unfold tasks. apply list_elem_of_bind. exists (folder, data).
    split; [|exact Hfolder]. cbn. apply list_elem_of_fmap. eauto. }
  unfold run.
  destruct (pick_best_encoder enc_list) as [[bestav1 b265] b264].
  destruct folders as [|entry folders]; [by apply elem_of_nil in Hfolder|].
  pose proof (process_folders_all_finished round envs b265 b264
                (count_tasks (entry :: folders)) (entry :: folders) 0 w
                Htidy Hret folder f Htask) as Hall.
  destruct (process_folders _ _ _ _ _ _ _ _) as [[w' c'] ev]. exact Hall.
Qed.

Lemma run_finishes_everything_witness :
  ∃ st',
    store (run (λ q, q) (λ _, env_ok) (EncList []) [("X", data_jpn)] world_ab).1
      !! "X" = Some st'
    ∧ "b.mkv" ∈ finished_of st' ∧ "b.mkv" ∉ pending_of st'.
Proof.
  apply (run_finishes_everything (λ q, q) (λ _, env_ok) (EncList [])
           [("X", data_jpn)] world_ab) with (data := data_jpn).
  - intros folder st Hst. unfold world_ab, store_ab in Hst. cbn [store] in Hst.
    apply lookup_singleton_Some in Hst as [_ <-]. apply tidy_scanned.
    apply (bool_decide_unpack _). vm_compute. reflexivity.
  - reflexivity.
  - left.
  - right. left.
Defined.

(** ** A fresh folder, scanned and then burned *)

Lemma process_files_in_order (round : Q → Q) (envs : nat → file_env)
    (best265 best264 folder outfolder : string) (data : work_item)
    (num_files total_tasks : nat) (fs rest : list string)
    (processed completed : nat) (w : world) (st : state) :
  (∀ n, returned (burn (envs n)) = true) →
  store w !! folder = Some st →
  well_formed st →
  pending_of st = fs ++ rest →
  NoDup fs →
  (∀ f, f ∈ fs → f ∉ finished_of st) →
  ∃ st',
    store (process_files round envs best265 best264 folder outfolder data
             num_files total_tasks fs processed completed w).1.1 !! folder = Some st'
    ∧ well_formed st'
    ∧ finished_of st' = finished_of st ++ fs
    ∧ pending_of st' = rest.
Proof.
  intros Hret. revert processed completed w st.
  induction fs as [|f fs IH]; intros processed completed w st Hst Hwf Hpen Hnd Hnew.
  - exists st. cbn [process_files fst]. by rewrite app_nil_r.
  - cbn [process_files].
    assert (current_state (store w) folder = st) as Hcur
      by (unfold current_state; by rewrite Hst).
    pose proof (process_file_records best265 best264 folder outfolder data f
                  (envs completed) w (Hret completed)) as Hstore.
    rewrite Hcur in Hstore. specialize (Hstore Hwf).
    destruct (process_file _ _ _ _ _ _ _ _) as [w1 ev]. cbn [fst] in Hstore.
    apply NoDup_cons in Hnd as [Hf Hnd].
    destruct (IH (S processed) (S completed) w1 (marked_state f st))
      as (st' & Hst' & Hwf' & Hfin' & Hpen').
    + rewrite Hstore. apply lookup_insert_eq.
    + apply marked_state_well_formed.
    + rewrite marked_state_pending, Hpen. cbn. by rewrite decide_True.
    + exact Hnd.
    + intros f' Hf'. rewrite marked_state_finished.
      rewrite bool_decide_eq_false_2 by (apply Hnew; left).
      intros [Hin| ->%list_elem_of_singleton]%elem_of_app; [|done].
      by apply (Hnew f'); [right|].
    + destruct (process_files _ _ _ _ _ _ _ _ _ _ _ _ _) as [[w2 c2] ev'].
      cbn [fst] in *. exists st'. split; [exact Hst'|]. split; [exact Hwf'|].
      split; [|exact Hpen'].
      rewrite Hfin', marked_state_finished.
      rewrite bool_decide_eq_false_2 by (apply Hnew; left).
      by rewrite <- app_assoc.
Qed.

(** X17: a folder without state file is scanned (its stream probe does not
    raise) and the registry is run with every burn call returning: the
    folder's state file then lists exactly the folder's videos as
    finished, in the order of the directory listing, and nothing as
    pending. *)
Theorem fresh_folder_scanned_and_burned get_streams getsize (round : Q → Q)
    (envs : nat → file_env) (enc_list : encoders) (dirpath : string)
    (dir_files : list string) (fs : state_files) (d : gset string)
    (first : string) (videos subs audios : list string) :
  fs !! dirpath = None →
  NoDup dir_files →
  filter is_video dir_files = first :: videos →
  get_streams (Py.path_join dirpath first) = inr (subs, audios) →
  (∀ n, returned (burn (envs n)) = true) →
  ∃ item st',
    (scan_folders get_streams getsize [(dirpath, dir_files)] fs).2 = inr [(dirpath, item)]
    ∧ files item = first :: videos
    ∧ store (run round envs enc_list [(dirpath, item)]
               {| store := (scan_folders get_streams getsize [(dirpath, dir_files)] fs).1;
                  disk := d |}).1 !! dirpath = Some st'
    ∧ finished_of st' = first :: videos
    ∧ pending_of st' = [].
Proof.
  intros Hnone Hnd Hv Hprobe Hret.
  destruct (scan_dir_returns get_streams getsize dirpath dir_files fs
              first videos subs audios Hv Hprobe) as [item Hitem].
  pose proof (scan_dir_item _ _ _ _ _ _ Hitem) as Hfields.
  rewrite Hnone in Hfields. destruct Hfields as [_ Hfiles]. rewrite Hv in Hfiles.
  rewrite scan_folders_single_store, scan_dir_store, Hv, Hnone.
  set (fresh := ({[ "finished" := []; "pending" := first :: videos ]} : state)).
  assert (NoDup (first :: videos)) as Hndv by (rewrite <- Hv; by apply NoDup_filter).
  destruct (tidy_scanned (first :: videos) Hndv) as [Hwf _].
  pose proof (process_files_in_order round envs
                (pick_best_encoder enc_list).1.2 (pick_best_encoder enc_list).2
                dirpath (dirpath +:+ "-burned") item (length (files item))
                (count_tasks [(dirpath, item)]) (first :: videos) [] 0 0
                {| store := <[dirpath := fresh]> fs; disk := d |} fresh Hret)
    as (st' & Hst' & _ & Hfin & Hpen).
  { apply lookup_insert_eq. }
  { exact Hwf. }
  { unfold pending_of, fresh.
    rewrite lookup_insert_ne, lookup_singleton_eq by done. cbn. by rewrite app_nil_r. }
  { exact Hndv. }
  { intros f _. unfold finished_of, fresh. rewrite lookup_insert_eq. cbn.
    apply not_elem_of_nil. }
  exists item, st'. split; [by apply scan_folders_single_item|].
  split; [exact Hfiles|].
  unfold run. destruct (pick_best_encoder enc_list) as [[bestav1 b265] b264].
  cbn [fst snd] in Hst'. cbn [process_folders]. rewrite Hfiles.
  rewrite Hfiles in Hst'.
  destruct (process_files _ _ _ _ _ _ _ _ _ _ _ _ _) as [[w1 c1] ev].
  cbn [fst] in *. split; [exact Hst'|]. split; [|exact Hpen].
  rewrite Hfin. unfold finished_of, fresh. by rewrite lookup_insert_eq.
Qed.

Lemma fresh_folder_scanned_and_burned_witness :
  ∃ item st',
    (scan_folders no_streams no_sizes [("X", listing_abc)] ∅).2 = inr [("X", item)]
    ∧ files item = ["a.mkv"; "b.mkv"; "c.mkv"]
    ∧ store (run (λ q, q) (λ _, env_ok) (EncList []) [("X", item)]
               {| store := (scan_folders no_streams no_sizes [("X", listing_abc)] ∅).1;
                  disk := ∅ |}).1 !! "X" = Some st'
    ∧ finished_of st' = ["a.mkv"; "b.mkv"; "c.mkv"]
    ∧ pending_of st' = [].
Proof.
  apply (fresh_folder_scanned_and_burned no_streams no_sizes (λ q, q) (λ _, env_ok)
           (EncList []) "X" listing_abc ∅ ∅ "a.mkv" ["b.mkv"; "c.mkv"] [] []).
  - reflexivity.
  - apply (bool_decide_unpack _). vm_compute. reflexivity.
  - reflexivity.
  - reflexivity.
  - reflexivity.
Defined.

(** ** Scanning again *)

Lemma scan_dir_extends get_streams getsize (dirpath : string) (dir_files : list string)
    (fs : state_files) :
  fs ⊆ (scan_dir get_streams getsize dirpath dir_files fs).1.
Proof.
  rewrite scan_dir_store.
  destruct (filter is_video dir_files) as [|first videos]; [done|].
  destruct (fs !! dirpath) as [st|] eqn:Hst; [done|].
  by apply insert_subseteq.
Qed.

Lemma scan_walk_extends get_streams getsize (walk : list (string * list string))
    (fs : state_files) (acc : list (string * work_item)) :
  fs ⊆ (scan_walk get_streams getsize walk fs acc).1.
Proof.
  revert fs acc. induction walk as [|[dirpath dir_files] walk IH]; intros fs acc; [done|].
  cbn [scan_walk].
  pose proof (scan_dir_extends get_streams getsize dirpath dir_files fs) as Hext.
  destruct (scan_dir get_streams getsize dirpath dir_files fs) as [fs' [e|[item|]]];
    cbn [fst] in *; [done|etrans; [exact Hext|apply IH]..].
Qed.

Lemma scan_dir_has_state get_streams getsize (dirpath : string) (dir_files : list string)
    (fs : state_files) :
  filter is_video dir_files ≠ [] →
  is_Some ((scan_dir get_streams getsize dirpath dir_files fs).1 !! dirpath).
Proof.
  intros Hv. rewrite scan_dir_store.
  destruct (filter is_video dir_files) as [|first videos]; [done|].
  destruct (fs !! dirpath) as [st|] eqn:Hst; [by rewrite Hst|].
  rewrite lookup_insert_eq. eauto.
Qed.

(** Whether [scan_dir] raises, skips or registers does not depend on the
    state files. *)
Lemma scan_dir_outcome get_streams getsize (dirpath : string) (dir_files : list string)
    (fs fs2 : state_files) :
  match (scan_dir get_streams getsize dirpath dir_files fs).2,
        (scan_dir get_streams getsize dirpath dir_files fs2).2 with
  | inl e, inl e2 => e = e2 ∧ filter is_video dir_files ≠ []
  | inr None, inr None => True
  | inr (Some _), inr (Some _) => filter is_video dir_files ≠ []
  | _, _ => False
  end.
Proof.
  unfold scan_dir.
  destruct (filter is_video dir_files) as [|first videos]; [done|].
  destruct (fs !! dirpath), (fs2 !! dirpath);
    destruct (get_streams (Py.path_join dirpath first)) as [e|[subs audios]]; done.
Qed.

Lemma scan_walk_fixed get_streams getsize (walk : list (string * list string))
    (fs fs2 : state_files) (acc acc2 : list (string * work_item)) :
  (scan_walk get_streams getsize walk fs acc).1 ⊆ fs2 →
  (scan_walk get_streams getsize walk fs2 acc2).1 = fs2.
Proof.
  revert fs acc acc2.
  induction walk as [|[dirpath dir_files] walk IH]; intros fs acc acc2 Hsub; [done|].
  cbn [scan_walk] in *.
  pose proof (scan_dir_outcome get_streams getsize dirpath dir_files fs fs2) as Hout.
  pose proof (scan_dir_has_state get_streams getsize dirpath dir_files fs) as Hhas.
  pose proof (scan_dir_store get_streams getsize dirpath dir_files fs2) as Hstore2.
  destruct (scan_dir get_streams getsize dirpath dir_files fs) as [fs' r].
  destruct (scan_dir get_streams getsize dirpath dir_files fs2) as [fs2' r2].
  cbn [fst snd] in *.
  assert (fs' ⊆ fs2) as Hfs'.
  { destruct r as [e|[item|]]; cbn [fst] in Hsub; [done|..];
      (etrans; [apply scan_walk_extends|exact Hsub]). }
  assert (fs2' = fs2) as ->.
  { rewrite Hstore2.
    destruct (filter is_video dir_files) as [|first videos] eqn:Hv; [done|].
    destruct (Hhas ltac:(done)) as [st Hst].
    by rewrite (lookup_weaken _ _ _ _ Hst Hfs'). }
  destruct r as [e|[item|]], r2 as [e2|[item2|]]; try done; cbn [fst] in *;
    by eapply IH.
Qed.

Lemma scan_walk_new_state get_streams getsize (walk : list (string * list string))
    (fs : state_files) (acc : list (string * work_item)) (folder : string) :
  fs !! folder = None →
  is_Some ((scan_walk get_streams getsize walk fs acc).1 !! folder) →
  ∃ dir_files, (folder, dir_files) ∈ walk ∧ filter is_video dir_files ≠ [].
Proof.
  revert fs acc. induction walk as [|[dirpath dir_files] walk IH]; intros fs acc Hnone Hsome.
  - cbn in Hsome. rewrite Hnone in Hsome. by destruct Hsome.
  - cbn [scan_walk] in Hsome.
    pose proof (scan_dir_store get_streams getsize dirpath dir_files fs) as Hstore.
    destruct (decide (dirpath = folder ∧ filter is_video dir_files ≠ []))
      as [[-> Hv]|Hnot].
    { exists dir_files. split; [left|exact Hv]. }
    assert ((scan_dir get_streams getsize dirpath dir_files fs).1 !! folder = None)
      as Hnone'.
    { rewrite Hstore.
      destruct (filter is_video dir_files) as [|first videos] eqn:Hv; [done|].
      destruct (fs !! dirpath); [done|].
      rewrite lookup_insert_ne; [done|]. intros ->. apply Hnot. by split. }
    destruct (scan_dir get_streams getsize dirpath dir_files fs) as [fs' [e|[item|]]];
      cbn [fst] in *.
    + rewrite Hnone' in Hsome. by destruct Hsome.
    + destruct (IH _ _ Hnone' Hsome) as (files' & Hin & Hv). exists files'.
      split; [by right|exact Hv].
    + destruct (IH _ _ Hnone' Hsome) as (files' & Hin & Hv). exists files'.
      split; [by right|exact Hv].
Qed.

(** X18: a scan never changes or removes a state file that exists; the
    state files it creates belong to directories of the walk that contain
    a video; and scanning the same tree again, with the same probe
    results, changes no state file at all. *)
Theorem rescan_changes_nothing get_streams getsize (walk : list (string * list string))
    (fs : state_files) :
  (∀ folder st, fs !! folder = Some st →
     (scan_folders get_streams getsize walk fs).1 !! folder = Some st)
  ∧ (∀ folder, fs !! folder = None →
       is_Some ((scan_folders get_streams getsize walk fs).1 !! folder) →
       ∃ dir_files, (folder, dir_files) ∈ walk ∧ filter is_video dir_files ≠ [])
  ∧ (scan_folders get_streams getsize walk
       (scan_folders get_streams getsize walk fs).1).1
    = (scan_folders get_streams getsize walk fs).1.
Proof.
  unfold scan_folders. split; [|split].
  - intros folder st Hst.
    eapply lookup_weaken; [exact Hst|apply scan_walk_extends].
  - intros folder. apply scan_walk_new_state.
  - by eapply scan_walk_fixed.
Qed.

(** ** Output files *)

Lemma lower_app (a b : string) : Py.lower (a +:+ b) = Py.lower a +:+ Py.lower b.
Proof.
  induction a as [|c a IH]; [reflexivity|].
  rewrite append_cons. cbn [Py.lower]. by rewrite IH, append_cons.
Qed.

Lemma substring_all (b : string) : String.substring 0 (String.length b) b = b.
Proof. induction b as [|c b IH]; [reflexivity|]. cbn. by rewrite IH. Qed.

Lemma substring_suffix (a b : string) :
  String.substring (String.length a) (String.length b) (a +:+ b) = b.
Proof.
  induction a as [|c a IH]; [apply substring_all|].
  rewrite append_cons. cbn [String.length String.substring]. exact IH.
Qed.

Lemma substring_prefix (a b : string) :
  String.substring 0 (String.length a) (a +:+ b) = a.
Proof.
  induction a as [|c a IH]; [by destruct b|].
  rewrite append_cons. cbn [String.length String.substring]. by rewrite IH.
Qed.

Lemma endswith_app (a b : string) : Py.endswith (a +:+ b) b = true.
Proof.
  unfold Py.endswith. rewrite length_append.
  replace (String.length a + String.length b - String.length b)%nat
    with (String.length a) by lia.
  rewrite substring_suffix, String.eqb_refl, andb_true_r.
  apply Nat.leb_le. lia.
Qed.

Lemma burned_name_is_video (root : string) : is_video (root +:+ "-burned.mp4") = true.
Proof.
  unfold is_video, Py.endswith_any, video_exts. rewrite lower_app.
  change (Py.lower "-burned.mp4") with ("-burned" +:+ ".mp4").
  rewrite <- append_assoc. cbn [existsb].
  rewrite endswith_app. by rewrite orb_true_r.
Qed.

(** X19: the name of every output file ends in [.mp4], so it is itself
    recognised as a video: when the output folder lies in the scanned
    tree and has no state file yet, a scan registers every output in it
    as pending work. *)
Theorem outputs_are_scanned_as_videos get_streams getsize (folder : string)
    (names : list string) (fs : state_files) :
  names ≠ [] →
  fs !! (folder +:+ "-burned") = None →
  (∀ path, ∃ r, get_streams path = inr r) →
  (∀ f, is_video (Py.splitext_root f +:+ "-burned.mp4") = true)
  ∧ ∃ item,
      (scan_dir get_streams getsize (folder +:+ "-burned")
         ((λ f, Py.splitext_root f +:+ "-burned.mp4") <$> names) fs).2
      = inr (Some item)
      ∧ files item = (λ f, Py.splitext_root f +:+ "-burned.mp4") <$> names.
Proof.
  intros Hne Hnone Hprobe. split; [intros f; apply burned_name_is_video|].
  set (outputs := (λ f, Py.splitext_root f +:+ "-burned.mp4") <$> names).
  assert (filter is_video outputs = outputs) as Hv.
  { subst outputs. clear. induction names as [|f names IH]; [reflexivity|].
    cbn [fmap list_fmap]. rewrite filter_cons, decide_True.
    - by rewrite IH.
    - by rewrite burned_name_is_video. }
  destruct outputs as [|first rest] eqn:Houtputs.
  { subst outputs. by destruct names. }
  destruct (Hprobe (Py.path_join (folder +:+ "-burned") first)) as [[subs audios] Hr].
  destruct (scan_dir_returns get_streams getsize (folder +:+ "-burned") (first :: rest) fs
              first rest subs audios Hv Hr) as [item Hitem].
  exists item. split; [exact Hitem|].
  apply scan_dir_item in Hitem. rewrite Hnone in Hitem.
  destruct Hitem as [_ ->]. exact Hv.
Qed.

Lemma outputs_are_scanned_as_videos_witness :
  ∃ item,
    (scan_dir no_streams no_sizes ("X" +:+ "-burned")
       ((λ f, Py.splitext_root f +:+ "-burned.mp4") <$> ["a.mkv"; "b.mkv"]) ∅).2
    = inr (Some item)
    ∧ files item = ["a-burned.mp4"; "b-burned.mp4"].
Proof.
  destruct (outputs_are_scanned_as_videos no_streams no_sizes "X" ["a.mkv"; "b.mkv"] ∅)
    as [_ (item & Hitem & Hfiles)].
  - discriminate.
  - reflexivity.
  - intros path. eexists. reflexivity.
  - exists item. split; [exact Hitem|]. rewrite Hfiles. reflexivity.
Defined.

Lemma rfind_absent (c : ascii) (s : string) : has_char c s = false → Py.rfind c s = None.
Proof.
  induction s as [|d s IH]; cbn [has_char Py.rfind]; [reflexivity|].
  intros [Hd Hs]%orb_false_elim. by rewrite (IH Hs), Hd.
Qed.

Lemma rfind_last (c : ascii) (a b : string) :
  has_char c b = false → Py.rfind c (a +:+ String c b) = Some (String.length a).
Proof.
  intros Hb. induction a as [|d a IH].
  - rewrite append_nil_l. cbn [Py.rfind]. by rewrite rfind_absent, Ascii.eqb_refl.
  - rewrite append_cons. cbn [Py.rfind String.length]. by rewrite IH.
Qed.

(** X20: a name [stem.ext], where [ext] has no dot and [stem] is not made
    of dots only, is burned to [stem-burned.mp4] whatever the extension:
    two videos of a folder that differ only in their extension get the
    same output path, which ffmpeg is told to overwrite. *)
Theorem same_stem_same_output (outfolder stem ext1 ext2 : string) :
  Py.all_char "." stem = false →
  has_char "." ext1 = false →
  has_char "." ext2 = false →
  Py.splitext_root (stem +:+ "." +:+ ext1) = stem
  ∧ output_path outfolder (stem +:+ "." +:+ ext1)
    = Py.path_join outfolder (stem +:+ "-burned.mp4")
  ∧ output_path outfolder (stem +:+ "." +:+ ext1)
    = output_path outfolder (stem +:+ "." +:+ ext2)
  ∧ ∀ input aud vf enc,
      burn_cmd input aud vf enc (output_path outfolder (stem +:+ "." +:+ ext1)) !! 1%nat
      = Some "-y".
Proof.
  intros Hstem Hext1 Hext2.
  assert (∀ ext, has_char "." ext = false →
            Py.splitext_root (stem +:+ "." +:+ ext) = stem) as Hroot.
  { intros ext Hext. unfold Py.splitext_root.
    change (stem +:+ "." +:+ ext) with (stem +:+ String "." ext).
    rewrite rfind_last by exact Hext.
    by rewrite substring_prefix, Hstem. }
  unfold output_path. rewrite !Hroot by done. repeat split.
Qed.

Lemma same_stem_same_output_witness :
  output_path "X-burned" ("film" +:+ "." +:+ "mkv")
  = output_path "X-burned" ("film" +:+ "." +:+ "mp4").
Proof.
  destruct (same_stem_same_output "X-burned" "film" "mkv" "mp4" eq_refl eq_refl eq_refl)
    as (_ & _ & Hsame & _).
  exact Hsame.
Defined.

(** ** The temporary subtitle file *)

Lemma wrote_keeps (created : bool) (p q : string) (d : gset string) :
  p ∈ d → p ∈ wrote created q d.
Proof.
  unfold wrote. destruct created; [|done]. intros Hp. by apply elem_of_union_r.
Qed.

(** X21: once the subtitle extraction has returned, the temporary
    subtitle file is removed only on the path where the burn call returns
    as well; when the burn call raises, a file the extraction wrote stays
    on disk. *)
Theorem sidecar_after_burn (best265 best264 folder : string) (data : work_item)
    (f : string) (env : file_env) (w : world) :
  has_index (stream_index (selected_sub data)) = true →
  returned (extract env) = true →
  let result :=
    process_file best265 best264 folder (folder +:+ "-burned") data f env w in
  (returned (burn env) = true → subtitle_path folder env ∉ disk result.1)
  ∧ (returned (burn env) = false → extract_wrote env = true →
     subtitle_path folder env ∈ disk result.1).
Proof.
  intros Hidx Hext. cbn zeta. unfold process_file, extract_step. rewrite Hidx.
  destruct (stream_index (selected_sub data)) as [idx|] eqn:Hsel; [|discriminate].
  destruct (extract env) as [e|rc out]; [discriminate|].
  destruct (burn env) as [e|rc' out'].
  - split; [discriminate|]. intros _ ->. cbn [fst disk].
    apply wrote_keeps, wrote_created.
  - split; [|discriminate]. intros _.
    destruct (mark_done (store w) folder f); cbn [fst disk];
      apply remove_if_exists_gone.
Qed.

Lemma sidecar_after_burn_witness :
  "X/subs0.5.ass"
  ∈ disk (process_file "libx265" "libx264" "X" ("X" +:+ "-burned") data_jpn "a.mkv"
            {| random_value := "0.5";
               probe := Completed 0 "yuv420p";
               extract := Completed 0 ""; extract_wrote := true;
               burn := Raised (Py.OtherError "killed"); burn_wrote := false |}
            world_ab).1.
Proof.
  destruct (sidecar_after_burn "libx265" "libx264" "X" data_jpn "a.mkv"
              {| random_value := "0.5";
                 probe := Completed 0 "yuv420p";
                 extract := Completed 0 ""; extract_wrote := true;
                 burn := Raised (Py.OtherError "killed"); burn_wrote := false |}
              world_ab eq_refl eq_refl) as [_ Hleak].
  exact (Hleak eq_refl eq_refl).
Defined.

(** ** Progress of one folder *)

Lemma folder_percents_app (folder : string) (tr1 tr2 : list event) :
  folder_percents folder (tr1 ++ tr2)
  = folder_percents folder tr1 ++ folder_percents folder tr2.
Proof.
  induction tr1 as [|[] tr1 IH]; cbn; [reflexivity|..]; rewrite ?IH; try reflexivity.
  by case_decide.
Qed.

Lemma process_file_no_folder_progress (best265 best264 folder outfolder : string)
    (data : work_item) (f : string) (env : file_env) (w : world) (shown : string) :
  folder_percents shown (process_file best265 best264 folder outfolder data f env w).2 = [].
Proof.
  file_cases data env w folder f; reflexivity.
Qed.

Lemma process_files_folder_progress (round : Q → Q) (envs : nat → file_env)
    (best265 best264 folder outfolder : string) (data : work_item)
    (num_files total_tasks : nat) (fs : list string)
    (processed completed : nat) (w : world) (shown : string) :
  folder_percents shown
    (process_files round envs best265 best264 folder outfolder data
       num_files total_tasks fs processed completed w).2
  = if decide (folder = shown)
    then (λ k, folder_percent round k num_files) <$> seq (S processed) (length fs)
    else [].
Proof.
  revert processed completed w.
  induction fs as [|f fs IH]; intros processed completed w.
  - cbn. by case_decide.
  - cbn [process_files].
    pose proof (process_file_no_folder_progress best265 best264 folder outfolder data f
                  (envs completed) w shown) as Hnone.
    destruct (process_file _ _ _ _ _ _ _ _) as [w1 ev]. cbn [snd] in Hnone.
    specialize (IH (S processed) (S completed) w1).
    destruct (process_files _ _ _ _ _ _ _ _ _ _ _ _ _) as [[w2 c2] ev'].
    cbn [snd] in *. rewrite folder_percents_app, Hnone. cbn [app folder_percents].
    rewrite IH. by case_decide.
Qed.

Lemma process_folders_no_folder_progress (round : Q → Q) (envs : nat → file_env)
    (best265 best264 : string) (total_tasks : nat)
    (folders : list (string * work_item)) (completed : nat) (w : world)
    (shown : string) :
  shown ∉ folders.*1 →
  folder_percents shown
    (process_folders round envs best265 best264 total_tasks folders completed w).2 = [].
Proof.
  revert completed w.
  induction folders as [|[folder data] folders IH]; intros completed w Hnot; [reflexivity|].
  cbn [fmap list_fmap fst] in Hnot. apply not_elem_of_cons in Hnot as [Hne Hnot].
  cbn [process_folders].
  destruct (files data) as [|f fs] eqn:Hfiles; [by apply IH|].
  pose proof (process_files_folder_progress round envs best265 best264 folder
                (folder +:+ "-burned") data (length (f :: fs)) total_tasks
                (f :: fs) 0 completed w shown) as Hfiles'.
  destruct (process_files _ _ _ _ _ _ _ _ _ _ _ _ _) as [[w1 c1] ev].
  specialize (IH c1 w1 Hnot).
  destruct (process_folders _ _ _ _ _ _ _ _) as [[w2 c2] ev'].
  cbn [snd] in *. cbn [folder_percents].
  rewrite folder_percents_app, Hfiles'. cbn [folder_percents]. rewrite IH.
  by rewrite decide_False.
Qed.

Lemma process_folders_folder_progress (round : Q → Q) (envs : nat → file_env)
    (best265 best264 : string) (total_tasks : nat)
    (folders : list (string * work_item)) (completed : nat) (w : world)
    (shown : string) (data : work_item) :
  NoDup folders.*1 →
  (shown, data) ∈ folders →
  folder_percents shown
    (process_folders round envs best265 best264 total_tasks folders completed w).2
  = (λ k, folder_percent round k (length (files data)))
      <$> seq 1 (length (files data)).
Proof.
  revert completed w.
  induction folders as [|[folder data0] folders IH]; intros completed w Hnd Hin;
    [by apply elem_of_nil in Hin|].
  cbn [fmap list_fmap fst] in Hnd. apply NoDup_cons in Hnd as [Hfresh Hnd].
  cbn [process_folders].
  apply elem_of_cons in Hin as [[= <- <-]|Hin].
  - destruct (files data) as [|f fs] eqn:Hfiles.
    + cbn. by apply process_folders_no_folder_progress.
    + pose proof (process_files_folder_progress round envs best265 best264 shown
                    (shown +:+ "-burned") data (length (f :: fs)) total_tasks
                    (f :: fs) 0 completed w shown) as Hfiles'.
      destruct (process_files _ _ _ _ _ _ _ _ _ _ _ _ _) as [[w1 c1] ev].
      pose proof (process_folders_no_folder_progress round envs best265 best264
                    total_tasks folders c1 w1 shown Hfresh) as Hrest.
      destruct (process_folders _ _ _ _ _ _ _ _) as [[w2 c2] ev'].
      cbn [snd] in *. cbn [folder_percents].
      rewrite folder_percents_app, Hfiles'. cbn [folder_percents]. rewrite Hrest.
      rewrite decide_True by done. by rewrite app_nil_r.
  - assert (folder ≠ shown) as Hne.
    { intros ->. apply Hfresh. apply list_elem_of_fmap. by exists (shown, data). }
    destruct (files data0) as [|f fs] eqn:Hfiles; [by apply IH|].
    pose proof (process_files_folder_progress round envs best265 best264 folder
                  (folder +:+ "-burned") data0 (length (f :: fs)) total_tasks
                  (f :: fs) 0 completed w shown) as Hfiles'.
    destruct (process_files _ _ _ _ _ _ _ _ _ _ _ _ _) as [[w1 c1] ev].
    specialize (IH c1 w1 Hnd Hin).
    destruct (process_folders _ _ _ _ _ _ _ _) as [[w2 c2] ev'].
    cbn [snd] in *. cbn [folder_percents].
    rewrite folder_percents_app, Hfiles'. cbn [folder_percents]. rewrite IH.
    by rewrite decide_False.
Qed.

Section FolderProgress.

Variable round : Q → Q.
Hypothesis round_monotone : ∀ x y, (x <= y)%Q → (round x <= round y)%Q.
Hypothesis round_one : (round 1 == 1)%Q.
Hypothesis round_hundred : (round 100 == 100)%Q.

(** X22: for a folder of the registry (whose keys are distinct) with
    [n > 0] files and a non-empty path, the values a run gives to the
    folder's progress bar are those of 1, 2, ..., [n] processed files, one
    per file whatever its outcome; they never decrease and the last one
    is 100. *)
Theorem folder_progress_monotone (envs : nat → file_env) (enc_list : encoders)
    (folders : list (string * work_item)) (w : world) (folder : string)
    (data : work_item) :
  NoDup folders.*1 →
  (folder, data) ∈ folders →
  folder ≠ "" →
  files data ≠ [] →
  let n := length (files data) in
  let percents := folder_percents folder (run round envs enc_list folders w).2 in
  percents = (λ k, folder_percent round k n) <$> seq 1 n
  ∧ nondecreasing percents
  ∧ ∃ v, last percents = Some v ∧ (v == 100)%Q.
Proof.
  intros Hnd Hin Hname Hfiles n percents.
  assert (0 < n)%nat as Hn.
  { subst n. destruct (files data); [done|cbn; lia]. }
  assert (percents = (λ k, folder_percent round k n) <$> seq 1 n) as Hpercents.
  { subst percents. unfold run.
    destruct (pick_best_encoder enc_list) as [[bestav1 b265] b264].
    destruct folders as [|entry folders]; [by apply elem_of_nil in Hin|].
    pose proof (process_folders_folder_progress round envs b265 b264
                  (count_tasks (entry :: folders)) (entry :: folders) 0 w
                  folder data Hnd Hin) as Hp.
    destruct (process_folders _ _ _ _ _ _ _ _) as [[w' c'] ev].
    cbn [snd] in *. rewrite folder_percents_app, Hp. cbn [folder_percents].
    rewrite decide_False by done. by rewrite app_nil_r. }
  split; [exact Hpercents|]. rewrite Hpercents.
  change (λ k, folder_percent round k n) with (λ k, global_percent round k n).
  split.
  - intros i j x y Hij Hi Hj.
    apply percents_lookup in Hi as [Hilt ->].
    apply percents_lookup in Hj as [Hjlt ->].
    apply global_percent_monotone; [exact round_monotone|done|lia].
  - exists (global_percent round n n). split.
    + rewrite fmap_last, last_lookup, length_seq.
      replace (Nat.pred n) with (n - 1)%nat by lia.
      rewrite lookup_seq_lt by lia. cbn. do 2 f_equal. lia.
    + by apply global_percent_complete.
Qed.

End FolderProgress.

Lemma folder_progress_monotone_witness :
  folder_percents "X"
    (run (λ q, q) (λ _, env_extract_raises) (EncList []) [("X", data_jpn)] world_ab).2
  = [folder_percent (λ q, q) 1 2; folder_percent (λ q, q) 2 2]
  ∧ nondecreasing
      (folder_percents "X"
         (run (λ q, q) (λ _, env_extract_raises) (EncList []) [("X", data_jpn)]
            world_ab).2).
Proof.
  destruct (folder_progress_monotone (λ q, q) (λ x y Hxy, Hxy) (Qeq_refl 1)
              (Qeq_refl 100) (λ _, env_extract_raises) (EncList [])
              [("X", data_jpn)] world_ab "X" data_jpn)
    as (Hpercents & Hmono & _).
  - apply (bool_decide_unpack _). vm_compute. reflexivity.
  - left.
  - discriminate.
  - discriminate.
  - split; [exact Hpercents|exact Hmono].
Defined.

(** ** Resuming after a run *)

Lemma list_remove_first_filter (f : string) (l : list string) :
  NoDup l → list_remove_first f l = filter (λ x, x ≠ f) l.
Proof.
  induction 1 as [|y l Hy Hnd IH]; [reflexivity|].
  cbn [list_remove_first]. rewrite filter_cons.
  destruct (decide (f = y)) as [->|Hne].
  - rewrite decide_False by (intros Hyy; by apply Hyy).
    rewrite <- IH. symmetry. by apply list_remove_first_absent.
  - rewrite decide_True by congruence. by rewrite IH.
Qed.

Lemma filter_not_in_nil (l : list string) : filter (λ v, v ∉ ([] : list string)) l = l.
Proof.
  induction l as [|x l IH]; [reflexivity|].
  rewrite filter_cons_True by apply not_elem_of_nil. by rewrite IH.
Qed.

(** In a folder whose videos are [all_videos], the pending names of a
    state are the videos that are not finished, in listing order. *)
Lemma marked_state_unfinished (all_videos : list string) (f : string) (st : state) :
  NoDup all_videos →
  pending_of st = filter (λ v, v ∉ finished_of st) all_videos →
  pending_of (marked_state f st)
  = filter (λ v, v ∉ finished_of (marked_state f st)) all_videos.
Proof.
  intros Hnd Hpen. rewrite marked_state_pending, marked_state_finished, Hpen.
  rewrite list_remove_first_filter by (by apply NoDup_filter).
  rewrite list_filter_filter. apply list_filter_iff. intros v.
  case_bool_decide as Hf.
  - split; [tauto|]. intros Hv. split; [|exact Hv]. intros ->. done.
  - rewrite elem_of_app, list_elem_of_singleton. tauto.
Qed.

Lemma process_files_unfinished (round : Q → Q) (envs : nat → file_env)
    (best265 best264 folder outfolder : string) (data : work_item)
    (num_files total_tasks : nat) (fs all_videos : list string)
    (processed completed : nat) (w : world) (st : state) :
  NoDup all_videos →
  store w !! folder = Some st →
  pending_of st = filter (λ v, v ∉ finished_of st) all_videos →
  ∃ st',
    store (process_files round envs best265 best264 folder outfolder data
             num_files total_tasks fs processed completed w).1.1 !! folder = Some st'
    ∧ pending_of st' = filter (λ v, v ∉ finished_of st') all_videos.
Proof.
  intros Hnd. revert processed completed w st.
  induction fs as [|f fs IH]; intros processed completed w st Hst Hpen; [eauto|].
  cbn [process_files].
  pose proof (process_file_store best265 best264 folder outfolder data f
                (envs completed) w) as Hstore.
  destruct (process_file _ _ _ _ _ _ _ _) as [w1 ev]. cbn [fst] in Hstore.
  assert (∃ st1, store w1 !! folder = Some st1
                 ∧ pending_of st1 = filter (λ v, v ∉ finished_of st1) all_videos)
    as (st1 & Hst1 & Hpen1).
  { destruct Hstore as [->|Hmark]; [eauto|].
    apply mark_done_written in Hmark. rewrite Hmark, lookup_insert_eq.
    eexists. split; [reflexivity|].
    unfold current_state. rewrite Hst. by apply marked_state_unfinished. }
  specialize (IH (S processed) (S completed) w1 st1 Hst1 Hpen1).
  destruct (process_files _ _ _ _ _ _ _ _ _ _ _ _ _) as [[w2 c2] ev']. exact IH.
Qed.

(** X23: a folder without state file is scanned, its registry entry is
    run with the tools behaving in any way, and the folder is scanned
    again with the same directory listing: the new registry entry lists
    as pending exactly the folder's videos that are not finished in the
    state file, in listing order, and as done the finished ones. *)
Theorem rescan_after_run_resumes get_streams getsize (round : Q → Q)
    (envs : nat → file_env) (enc_list : encoders) (dirpath : string)
    (dir_files : list string) (fs : state_files) (d : gset string) :
  fs !! dirpath = None →
  NoDup dir_files →
  filter is_video dir_files ≠ [] →
  (∀ path, ∃ r, get_streams path = inr r) →
  ∃ item st' item',
    (scan_dir get_streams getsize dirpath dir_files fs).2 = inr (Some item)
    ∧ store (run round envs enc_list [(dirpath, item)]
               {| store := (scan_dir get_streams getsize dirpath dir_files fs).1;
                  disk := d |}).1 !! dirpath = Some st'
    ∧ (scan_dir get_streams getsize dirpath dir_files
         (store (run round envs enc_list [(dirpath, item)]
                   {| store := (scan_dir get_streams getsize dirpath dir_files fs).1;
                      disk := d |}).1)).2 = inr (Some item')
    ∧ done item' = finished_of st'
    ∧ files item' = filter (λ v, v ∉ finished_of st') (filter is_video dir_files).
Proof.
  intros Hnone Hnd Hv Hprobe.
  destruct (filter is_video dir_files) as [|first videos] eqn:Hvideos; [done|].
  destruct (Hprobe (Py.path_join dirpath first)) as [[subs audios] Hr].
  destruct (scan_dir_returns get_streams getsize dirpath dir_files fs
              first videos subs audios Hvideos Hr) as [item Hitem].
  exists item.
  rewrite scan_dir_store, Hvideos, Hnone.
  set (fresh := ({[ "finished" := []; "pending" := first :: videos ]} : state)).
  assert (NoDup (first :: videos)) as Hndv by (rewrite <- Hvideos; by apply NoDup_filter).
  assert (pending_of fresh = filter (λ v, v ∉ finished_of fresh) (first :: videos))
    as Hfresh.
  { assert (finished_of fresh = []) as ->
      by (unfold finished_of, fresh; by rewrite lookup_insert_eq).
    assert (pending_of fresh = first :: videos) as ->
      by (unfold pending_of, fresh;
          by rewrite lookup_insert_ne, lookup_singleton_eq by done).
    symmetry. apply filter_not_in_nil. }
  assert (∃ st',
            store (run round envs enc_list [(dirpath, item)]
                     {| store := <[dirpath := fresh]> fs; disk := d |}).1 !! dirpath
            = Some st'
            ∧ pending_of st' = filter (λ v, v ∉ finished_of st') (first :: videos))
    as (st' & Hst' & Hpen').
  { unfold run. destruct (pick_best_encoder enc_list) as [[bestav1 b265] b264].
    cbn [process_folders].
    destruct (files item) as [|f0 fs0] eqn:Hfiles.
    - cbn [fst store]. rewrite lookup_insert_eq. eauto.
    - destruct (process_files_unfinished round envs b265 b264 dirpath
                  (dirpath +:+ "-burned") item (length (f0 :: fs0))
                  (count_tasks [(dirpath, item)]) (f0 :: fs0) (first :: videos) 0 0
                  {| store := <[dirpath := fresh]> fs; disk := d |} fresh Hndv)
        as (st' & Hst' & Hpen').
      + apply lookup_insert_eq.
      + exact Hfresh.
      + destruct (process_files _ _ _ _ _ _ _ _ _ _ _ _ _) as [[w1 c1] ev].
        cbn [fst] in *. eauto. }
  exists st'.
  destruct (scan_dir_returns get_streams getsize dirpath dir_files
              (store (run round envs enc_list [(dirpath, item)]
                        {| store := <[dirpath := fresh]> fs; disk := d |}).1)
              first videos subs audios Hvideos Hr) as [item' Hitem'].
  exists item'. split; [exact Hitem|]. split; [exact Hst'|]. split; [exact Hitem'|].
  apply scan_dir_item in Hitem'. rewrite Hst', Hvideos in Hitem'.
  destruct Hitem' as [-> ->]. split; [reflexivity|].
  rewrite Hpen'. by case_match.
Qed.

Lemma rescan_after_run_resumes_witness :
  ∃ item st' item',
    (scan_dir no_streams no_sizes "X" listing_abc ∅).2 = inr (Some item)
    ∧ store (run (λ q, q) (λ _, env_ok) (EncList []) [("X", item)]
               {| store := (scan_dir no_streams no_sizes "X" listing_abc ∅).1;
                  disk := ∅ |}).1 !! "X" = Some st'
    ∧ (scan_dir no_streams no_sizes "X" listing_abc
         (store (run (λ q, q) (λ _, env_ok) (EncList []) [("X", item)]
                   {| store := (scan_dir no_streams no_sizes "X" listing_abc ∅).1;
                      disk := ∅ |}).1)).2 = inr (Some item')
    ∧ done item' = finished_of st'
    ∧ files item' = filter (λ v, v ∉ finished_of st') (filter is_video listing_abc).
Proof.
  apply (rescan_after_run_resumes no_streams no_sizes (λ q, q) (λ _, env_ok) (EncList [])
           "X" listing_abc ∅ ∅).
  - reflexivity.
  - apply (bool_decide_unpack _). vm_compute. reflexivity.
  - discriminate.
  - intros path. eexists. reflexivity.
Defined.

(** ** A state file with pending names *)

(** X24: when the state file of a folder has a non-empty [pending] list
    and the directory holds a video, the first of which is probed without
    an exception, the scan registers the stored [pending] list as it is
    and the stored [finished] list as done, whichever videos the directory
    holds now (a video added since is not registered, a pending name whose
    file is gone stays registered), and leaves the state file as it was;
    the video count, the total size and the tracks are those of the
    directory.  When the directory holds no video, the folder is skipped
    and the stored list is not registered. *)
Theorem stored_pending_taken_as_is get_streams getsize (dirpath : string)
    (dir_files : list string) (fs : state_files) (st : state)
    (p : string) (pen : list string) :
  fs !! dirpath = Some st →
  pending_of st = p :: pen →
  (filter is_video dir_files = [] →
   scan_dir get_streams getsize dirpath dir_files fs = (fs, inr None))
  ∧ (∀ first videos subs audios,
       filter is_video dir_files = first :: videos →
       get_streams (Py.path_join dirpath first) = inr (subs, audios) →
       scan_dir get_streams getsize dirpath dir_files fs
       = (fs, inr (Some {|
            files := p :: pen;
            done := finished_of st;
            subs := subs;
            audios := audios;
            selected_sub := auto_select subs;
            selected_audio := auto_select audios;
            video_count := length (first :: videos);
            video_size := total_size_of getsize dirpath (first :: videos) |}))).
Proof.
  intros Hst Hpen. split.
  - intros Hv. unfold scan_dir. by rewrite Hv.
  - intros first videos subs audios Hv Hr.
    unfold scan_dir. rewrite Hv, Hst, Hpen, Hr.
    by rewrite (insert_id fs dirpath st Hst).
Qed.

Lemma stored_pending_taken_as_is_witness :
  scan_dir no_streams no_sizes "X" listing_abc store_gone_pending
  = (store_gone_pending,
     inr (Some {| files := ["gone.mkv"]; done := ["a.mkv"];
                  subs := []; audios := [];
                  selected_sub := ""; selected_audio := "";
                  video_count := 3; video_size := 0 |}))
  ∧ scan_dir no_streams no_sizes "X" ["burn_state.json"] store_gone_pending
    = (store_gone_pending, inr None).
Proof.
  destruct (stored_pending_taken_as_is no_streams no_sizes "X" listing_abc
              store_gone_pending
              {[ "finished" := ["a.mkv"]; "pending" := ["gone.mkv"] ]} "gone.mkv" [])
    as (_ & Hvideos); [reflexivity..|].
  destruct (stored_pending_taken_as_is no_streams no_sizes "X" ["burn_state.json"]
              store_gone_pending
              {[ "finished" := ["a.mkv"]; "pending" := ["gone.mkv"] ]} "gone.mkv" [])
    as (Hnone & _); [reflexivity..|].
  split.
  - by rewrite (Hvideos "a.mkv" ["b.mkv"; "c.mkv"] [] [] eq_refl eq_refl).
  - by apply Hnone.
Defined.

(** ** Where the output goes *)

Lemma has_char_substring_prefix (c : ascii) (n : nat) (s : string) :
  has_char c s = false → has_char c (String.substring 0 n s) = false.
Proof.
  revert n. induction s as [|d s IH]; intros n; [by destruct n|].
  cbn [has_char]. intros [Hd Hs]%orb_false_elim.
  destruct n as [|n]; [reflexivity|].
  cbn [String.substring has_char]. by rewrite Hd, IH.
Qed.

Lemma splitext_root_no_char (c : ascii) (f : string) :
  has_char c f = false → has_char c (Py.splitext_root f) = false.
Proof.
  intros Hf. unfold Py.splitext_root.
  destruct (Py.rfind "." f) as [i|]; [|exact Hf].
  destruct (Py.all_char "." (String.substring 0 i f)); [exact Hf|].
  by apply has_char_substring_prefix.
Qed.

Lemma startswith_char (c : ascii) (s : string) :
  has_char c s = false → Py.startswith s (String c "") = false.
Proof.
  destruct s as [|d s]; [reflexivity|].
  cbn [has_char]. intros [Hd _]%orb_false_elim.
  unfold Py.startswith. cbn [String.prefix].
  destruct (ascii_dec c d) as [->|_]; [|reflexivity].
  by rewrite Ascii.eqb_refl in Hd.
Qed.

Lemma substring_split (k : nat) (s : string) :
  (k ≤ String.length s)%nat →
  s = String.substring 0 k s +:+ String.substring k (String.length s - k) s.
Proof.
  revert k. induction s as [|c s IH]; intros k Hk.
  - cbn in Hk. by replace k with 0%nat by lia.
  - destruct k as [|k].
    + cbn [String.substring String.length Nat.sub]. rewrite append_nil_l.
      cbn [String.substring]. by rewrite substring_all.
    + cbn [String.length] in *. cbn [String.substring Nat.sub].
      rewrite append_cons. f_equal. apply IH. lia.
Qed.

Lemma endswith_suffix (s suf : string) :
  Py.endswith s suf = true → ∃ pre, s = pre +:+ suf.
Proof.
  unfold Py.endswith. intros [Hle Heq]%andb_prop.
  apply Nat.leb_le in Hle. apply String.eqb_eq in Heq.
  remember (String.length suf) as m eqn:Hm. clear Hm.
  exists (String.substring 0 (String.length s - m) s).
  pose proof (substring_split (String.length s - m) s) as Hsplit.
  replace (String.length s - (String.length s - m))%nat with m in Hsplit by lia.
  rewrite Heq in Hsplit. apply Hsplit. lia.
Qed.

(** The [-burned] folder is never empty and never ends with a separator,
    so a relative name is joined to it with one. *)
Lemma burned_folder_join (folder y : string) :
  Py.startswith y "/" = false →
  Py.path_join (folder +:+ "-burned") y = folder +:+ "-burned" +:+ "/" +:+ y.
Proof.
  intros Hy. unfold Py.path_join. rewrite Hy.
  assert (String.eqb (folder +:+ "-burned") "" = false) as -> by by destruct folder.
  destruct (Py.endswith (folder +:+ "-burned") "/") eqn:Hend.
  - apply endswith_suffix in Hend as [pre Hpre].
    change "-burned" with ("-burne" +:+ "d") in Hpre.
    rewrite <- append_assoc in Hpre.
    apply append_suffix_inj in Hpre; [discriminate Hpre|reflexivity].
  - cbn [orb]. by rewrite append_assoc.
Qed.

(** X25: the output path of a file is never the folder's state file nor
    the temporary subtitle file; for file names without a separator, as
    a directory listing gives them, it is never an input path of the same
    folder; and for a folder whose path is not empty and does not end
    with a separator, no relative path inside it is a path inside its
    [-burned] folder.  For the root [/] the [-burned] folder lies inside
    the folder itself. *)
Theorem burned_folder_is_apart (folder f f' : string) (env : file_env) :
  output_path (folder +:+ "-burned") f ≠ Py.path_join folder "burn_state.json"
  ∧ output_path (folder +:+ "-burned") f ≠ subtitle_path folder env
  ∧ (has_char "/" f = false → has_char "/" f' = false →
     output_path (folder +:+ "-burned") f ≠ input_path folder f')
  ∧ (folder ≠ "" → Py.endswith folder "/" = false →
     ∀ x y, Py.startswith x "/" = false → Py.startswith y "/" = false →
       Py.path_join folder x ≠ Py.path_join (folder +:+ "-burned") y)
  ∧ (Py.startswith f "/" = false →
     Py.path_join "/" ("-burned/" +:+ f) = Py.path_join ("/" +:+ "-burned") f).
Proof.
  split; [|split; [|split; [|split]]].
  - unfold output_path.
    destruct (path_join_suffix (folder +:+ "-burned")
                (Py.splitext_root f +:+ "-burned.mp4")) as [p1 ->].
    destruct (path_join_suffix folder "burn_state.json") as [p2 ->].
    change "-burned.mp4" with ("-burne" +:+ "d.mp4").
    change "burn_state.json" with ("burn_state" +:+ ".json").
    rewrite <- !append_assoc. intros H.
    apply append_suffix_inj in H; [discriminate H|reflexivity].
  - intros H. symmetry in H. by apply sidecar_is_not_output in H.
  - intros Hf Hf'. unfold output_path, input_path.
    assert (has_char "/" (Py.splitext_root f +:+ "-burned.mp4") = false) as Hname.
    { rewrite has_char_app, splitext_root_no_char by done. reflexivity. }
    rewrite burned_folder_join by by apply startswith_char.
    unfold Py.path_join. rewrite (startswith_char _ _ Hf').
    destruct (String.eqb folder "" || Py.endswith folder "/") eqn:Hroot.
    + intros H%String.app_inj.
      rewrite <- H, has_char_app in Hf'. discriminate Hf'.
    + intros H%String.app_inj.
      rewrite !append_cons in H. discriminate H.
  - intros Hne Hend x y Hx Hy.
    rewrite burned_folder_join by done.
    unfold Py.path_join. rewrite Hx, Hend.
    assert (String.eqb folder "" = false) as -> by by apply String.eqb_neq.
    cbn [orb]. intros H%String.app_inj.
    rewrite !append_cons in H. discriminate H.
  - intros Hf. rewrite burned_folder_join by done.
    unfold Py.path_join. reflexivity.
Qed.

Lemma burned_folder_is_apart_witness :
  output_path ("X" +:+ "-burned") "a.mkv" ≠ input_path "X" "a-burned.mp4"
  ∧ Py.path_join "X" "-burned/a.mkv" ≠ Py.path_join ("X" +:+ "-burned") "a.mkv".
Proof.
  destruct (burned_folder_is_apart "X" "a.mkv" "a-burned.mp4" env_ok)
    as (_ & _ & Hinput & Hpaths & _).
  split.
  - apply Hinput; reflexivity.
  - apply Hpaths; [discriminate|reflexivity..].
Defined.
